(** * Flight tracker: the price store, the fetch orchestrator and the
      insight engine of [server/index.js]

    A shallow embedding of the server's decision logic.

    Conventions of the model.
    - A JS number is an IEEE 754 binary64 value ([num], the [spec_float]
      of the Standard Library with precision 53 and exponent bound 1024):
      the arithmetic of the source ([avgPrice * 0.9], [sum / length],
      [a - b]) is carried out with its correctly rounded operations. A
      number decoded from JSON or read from the [REAL NOT NULL] column
      [price] is any such value but NaN ([real]).
    - Strings are ASCII ([string]); [toUpperCase] and SQLite's [UPPER] agree
      on them.
    - [scraped_at] is the instant (milliseconds) whose ISO rendering the
      source stores; ISO renderings of one format order as their instants.
    - The time zone of the process is part of the environment, as the
      function LocalTZA of ECMAScript; so is what the engine's [Date]
      parser makes of a string that is not of the date-only form
      [YYYY-MM-DD], which the language leaves to the implementation.
    - The SQLite table is the list of its rows in insertion order. A JS
      object used as a map is an association list in insertion order.
      Airline names, as every write path stores them, contain [JetBlue] or
      [JSX] and so are neither array indices nor member names of
      [Object.prototype]. Departure dates come from request bodies
      unchecked: a date that names a member of [Object.prototype] never
      becomes a key of [cheapestByDate], which is modelled; a date that
      reads as an array index would be enumerated first by
      [Object.entries], which only decides between dates of equal price
      and can show, of the fields modelled here, only in the sign of a
      zero price. *)

From Stdlib Require Import ZArith QArith List Bool Lia String Ascii DecimalString.
From Stdlib Require Import Sorted Permutation SpecFloat.
Import ListNotations.
Local Open Scope string_scope.
Local Open Scope list_scope.
Local Open Scope Z_scope.

Set Implicit Arguments.

(* ------------------------------------------------------------------ *)
(** ** Numbers *)

(** A JS number: an IEEE 754 double *)
Abbreviation num := spec_float.

(** [a + b], [a - b], [a * b], [a / b], rounded to nearest, ties to even *)
Definition num_add (a b : num) : num := SFadd 53 1024 a b.
Definition num_sub (a b : num) : num := SFsub 53 1024 a b.
Definition num_mul (a b : num) : num := SFmul 53 1024 a b.
Definition num_div (a b : num) : num := SFdiv 53 1024 a b.

(** [a < b], [a <= b] and [a === b]: false as soon as one side is NaN *)
Definition num_lt (a b : num) : bool := SFltb a b.
Definition num_le (a b : num) : bool := SFleb a b.
Definition num_eq (a b : num) : bool := SFeqb a b.

Definition is_nan (x : num) : bool :=
  match x with S754_nan => true | _ => false end.

(** The number of an integer (exact up to [2^53]) *)
Definition num_of_Z (z : Z) : num := binary_normalize 53 1024 z 0 false.

(** The number a decimal literal [n / 10^k] denotes: the double nearest
    to it, as the quotient of two integers rounds to *)
Definition literal (n : Z) (k : nat) : num :=
  num_div (num_of_Z n) (num_of_Z (10 ^ Z.of_nat k)).

Definition zero : num := S754_zero false.

(** The literals [0.9], [1.1] and [20] of the source *)
Definition lit_0_9 : num := literal 9 1.
Definition lit_1_1 : num := literal 11 1.
Definition lit_20 : num := num_of_Z 20.

(** A number that is not NaN, with the mantissa and exponent of a double:
    what [JSON.parse] yields for a number and what a [REAL NOT NULL]
    column holds *)
Inductive real :=
| Rzero (s : bool)
| Rinfinity (s : bool)
| Rfinite (s : bool) (m : positive) (e : Z) (Hb : bounded 53 1024 m e = true).

Definition num_of (r : real) : num :=
  match r with
  | Rzero s => S754_zero s
  | Rinfinity s => S754_infinity s
  | Rfinite s m e _ => S754_finite s m e
  end.

Coercion num_of : real >-> spec_float.

(** The other way, for the numbers written in this file; NaN, which none
    of them is, goes to [+0] *)
Definition real_of (x : num) : real :=
  match x with
  | S754_zero s => Rzero s
  | S754_infinity s => Rinfinity s
  | S754_nan => Rzero false
  | S754_finite s m e =>
      match bounded 53 1024 m e as b
            return bounded 53 1024 m e = b -> real with
      | true => fun Hb => Rfinite s m e Hb
      | false => fun _ => Rzero false
      end eq_refl
  end.

(** A whole number of dollars, and a decimal amount [n / 10^k] *)
Definition usd (z : Z) : real := real_of (num_of_Z z).
Definition decimal (n : Z) (k : nat) : real := real_of (literal n k).

(** [Math.round(x)]: the integer nearest to [x], halves going up; [-0]
    for [-0.5 <= x < 0] *)
Definition Math_round (x : num) : num :=
  match x with
  | S754_finite s m e =>
      if 0 <=? e then x
      else
        let n := (2 * cond_Zopp s (Zpos m) + 2 ^ (- e)) / 2 ^ (1 - e) in
        if n =? 0 then S754_zero s else num_of_Z n
  | _ => x
  end.

(** [Boolean(x)] on a number that is not NaN *)
Definition truthy_num (x : real) : bool :=
  match x with Rzero _ => false | _ => true end.

(** The exact value of a finite number *)
Definition num_value (x : num) : Q :=
  match x with
  | S754_finite s m e =>
      ((if s then -1 else 1) * inject_Z (Zpos m) * 2 ^ e)%Q
  | _ => 0%Q
  end.

(** The order of the numbers that are not NaN, read as the lexicographic
    order of a key: class, then exponent, then mantissa *)
Definition num_key (x : num) : option (Z * Z * Z) :=
  match x with
  | S754_nan => None
  | S754_infinity true => Some (-2, 0, 0)
  | S754_finite true m e => Some (-1, - e, - Zpos m)
  | S754_zero _ => Some (0, 0, 0)
  | S754_finite false m e => Some (1, e, Zpos m)
  | S754_infinity false => Some (2, 0, 0)
  end.

Definition key_compare (a b : Z * Z * Z) : comparison :=
  let '(a1, a2, a3) := a in
  let '(b1, b2, b3) := b in
  match a1 ?= b1 with
  | Eq => match a2 ?= b2 with Eq => a3 ?= b3 | c => c end
  | c => c
  end.

(** A number with the sign [s] that is neither a zero nor NaN *)
Definition signed (s : bool) (x : num) : Prop :=
  (exists m e, x = S754_finite s m e) \/ x = S754_infinity s.

(** Two numbers that differ at most in the sign of a zero *)
Definition same_num (x y : num) : Prop :=
  x = y \/ exists s s', x = S754_zero s /\ y = S754_zero s'.

(* ------------------------------------------------------------------ *)
(** ** Strings *)

Infix "+++" := String.append (right associativity, at level 60).

(** [s.includes(sub)] *)
Fixpoint includes (s sub : string) : bool :=
  prefix sub s ||
  match s with
  | EmptyString => false
  | String _ s' => includes s' sub
  end.

Definition upper_ascii (c : ascii) : ascii :=
  let n := nat_of_ascii c in
  if (Nat.leb 97 n && Nat.leb n 122)%bool then ascii_of_nat (n - 32) else c.

(** [s.toUpperCase()], and [UPPER(s)] of SQLite *)
Fixpoint toUpperCase (s : string) : string :=
  match s with
  | EmptyString => EmptyString
  | String c s' => String (upper_ascii c) (toUpperCase s')
  end.

(** Truthiness of a string: [Boolean(s)] *)
Definition truthy_str (s : string) : bool :=
  match s with EmptyString => false | _ => true end.

(** [o || dflt] on a possibly undefined string *)
Definition or_str (o : option string) (dflt : string) : string :=
  match o with
  | Some s => if truthy_str s then s else dflt
  | None => dflt
  end.

(* ------------------------------------------------------------------ *)
(** ** Calendar dates: the part of [Date] the server uses *)

Definition digit_char (n : Z) : ascii := ascii_of_nat (48 + Z.to_nat (n mod 10)).

(** [k] decimal digits of [n], zero padded *)
Fixpoint digits (k : nat) (n : Z) : string :=
  match k with
  | O => ""
  | S k' => digits k' (n / 10) +++ String (digit_char n) ""
  end.

Definition digit_val (c : ascii) : option Z :=
  let n := Z.of_nat (nat_of_ascii c) in
  if (48 <=? n) && (n <=? 57) then Some (n - 48) else None.

(** Day number (days since 1970-01-01) of the proleptic Gregorian date
    [y-m-d]; linear in [d], which is how [MakeDay] treats a day of month
    outside the month. *)
Definition days_from_civil (y m d : Z) : Z :=
  let y' := if m <=? 2 then y - 1 else y in
  let era := y' / 400 in
  let yoe := y' - era * 400 in
  let mp := if 2 <? m then m - 3 else m + 9 in
  let doy := (153 * mp + 2) / 5 + d - 1 in
  let doe := yoe * 365 + yoe / 4 - yoe / 100 + doy in
  era * 146097 + doe - 719468.

(** Year, month (1..12) and day of month of a day number *)
Definition civil_from_days (z : Z) : Z * Z * Z :=
  let z' := z + 719468 in
  let era := z' / 146097 in
  let doe := z' - era * 146097 in
  let yoe := (doe - doe / 1460 + doe / 36524 - doe / 146096) / 365 in
  let doy := doe - (365 * yoe + yoe / 4 - yoe / 100) in
  let mp := (5 * doy + 2) / 153 in
  let d := doy - (153 * mp + 2) / 5 + 1 in
  let m := if mp <? 10 then mp + 3 else mp - 9 in
  let y := yoe + era * 400 in
  (if m <=? 2 then y + 1 else y, m, d).

(** Time values are milliseconds since 1970-01-01T00:00Z *)
Definition msPerDay : Z := 86400000.

Definition Day (t : Z) : Z := t / msPerDay.

Definition TimeWithinDay (t : Z) : Z := t mod msPerDay.

(** [TimeClip]: a [Date] holds a time value of at most 8.64e15 in
    magnitude, or NaN ([None], the Invalid Date) *)
Definition maxTime : Z := 8640000000000000.

Definition TimeClip (t : Z) : option Z :=
  if Z.abs t <=? maxTime then Some t else None.

(** The time zone of the process, as [LocalTZA(t, isUTC)] of ECMAScript:
    the offset of local time from UTC, in milliseconds, in force at the
    UTC instant [t] ([isUTC = true]) or at the local time [t]
    ([isUTC = false]) *)
Definition timezone := Z -> bool -> Z.

Definition LocalTime (tz : timezone) (t : Z) : Z := t + tz t true.

Definition UTC (tz : timezone) (t : Z) : Z := t - tz t false.

(** The date-only form [YYYY-MM-DD], read as UTC midnight of that day *)
Definition parseIsoDate (s : string) : option Z :=
  match list_ascii_of_string s with
  | [y1; y2; y3; y4; sep1; m1; m2; sep2; d1; d2] =>
      match digit_val y1, digit_val y2, digit_val y3, digit_val y4,
            digit_val m1, digit_val m2, digit_val d1, digit_val d2 with
      | Some a, Some b, Some c, Some e, Some f, Some g, Some h, Some i =>
          let y := 1000 * a + 100 * b + 10 * c + e in
          let m := 10 * f + g in
          let d := 10 * h + i in
          if (Ascii.eqb sep1 "-" && Ascii.eqb sep2 "-" &&
              (1 <=? m) && (m <=? 12) && (1 <=? d) && (d <=? 31))%bool
          then Some ((days_from_civil y m 1 + d - 1) * msPerDay)
          else None
      | _, _, _, _, _, _, _, _ => None
      end
  | _ => None
  end.

(** [new Date(s)]: the time value, [None] for the Invalid Date. A string
    that is not a date of the form above is left to [legacy], the
    implementation-defined part of the engine's parser. *)
Definition parseDate (legacy : string -> option Z) (s : string) : option Z :=
  match parseIsoDate s with
  | Some t => Some t
  | None => match legacy s with
            | Some t => TimeClip t
            | None => None
            end
  end.

(** [date.getDate()]: the day of the month in local time *)
Definition getDate (tz : timezone) (t : Z) : Z :=
  snd (civil_from_days (Day (LocalTime tz t))).

(** [date.setDate(dayValue)]: in local time, the day of month replaced,
    year, month and time of day kept, overflow carried into the
    neighbouring months; the result is converted back to UTC and clipped *)
Definition setDate (tz : timezone) (t dayValue : Z) : option Z :=
  let lt := LocalTime tz t in
  let '(y, m, _) := civil_from_days (Day lt) in
  TimeClip (UTC tz ((days_from_civil y m 1 + dayValue - 1) * msPerDay
                    + TimeWithinDay lt)).

(** [date.toISOString().split('T')[0]]: the UTC date of a time value *)
Definition isoDate (t : Z) : string :=
  let '(y, m, d) := civil_from_days (Day t) in
  (if (0 <=? y) && (y <=? 9999) then digits 4 y
   else (if y <? 0 then "-" else "+") +++ digits 6 (Z.abs y))
  +++ "-" +++ digits 2 m +++ "-" +++ digits 2 d.

(** The two dates iteration [i] of the loop pushes; [None]: [toISOString]
    threw a [RangeError] on an Invalid Date *)
Definition flexPair (tz : timezone) (baseDate : Z) (i : nat)
  : option (list string) :=
  match setDate tz baseDate (getDate tz baseDate - Z.of_nat i) with
  | None => None
  | Some prevDate =>
      match setDate tz baseDate (getDate tz baseDate + Z.of_nat i) with
      | None => None
      | Some nextDate => Some [isoDate prevDate; isoDate nextDate]
      end
  end.

Fixpoint flexDates (tz : timezone) (baseDate : Z) (steps : list nat)
  : option (list string) :=
  match steps with
  | [] => Some []
  | i :: rest =>
      match flexPair tz baseDate i with
      | None => None
      | Some two =>
          match flexDates tz baseDate rest with
          | None => None
          | Some l => Some (two ++ l)
          end
      end
  end.

(** The window of dates of [fetchRealFlightPrices]: [datesToSearch] after
    the loop over [i = 1..flexDays]. [None]: the loop threw. *)
Definition datesToSearch (tz : timezone) (legacy : string -> option Z)
  (baseDateStr : string) (flexDays : nat) : option (list string) :=
  match flexDays with
  | O => Some [baseDateStr]
  | S _ =>
      match parseDate legacy baseDateStr with
      | Some baseDate =>
          match flexDates tz baseDate (seq 1 flexDays) with
          | Some l => Some (baseDateStr :: l)
          | None => None
          end
      | None => None
      end
  end.

(** A zone that keeps one offset, such as UTC *)
Definition fixed_zone (offset : Z) : timezone := fun _ _ => offset.

(** [tz] has the offset [c] at every instant *)
Definition keeps_offset (tz : timezone) (c : Z) : Prop :=
  forall t isUTC, tz t isUTC = c.

(** America/New_York in 2024: UTC-5, and UTC-4 between 2024-03-10T07:00Z
    and 2024-11-03T06:00Z. A local time that the change skips or repeats
    is read with the offset before the change. *)
Definition new_york_2024 : timezone :=
  fun t isUTC =>
    let hour := 3600000 in
    let spring := 1710054000000 in
    let autumn := 1730613600000 in
    if isUTC then
      if (spring <=? t) && (t <? autumn) then -4 * hour else -5 * hour
    else
      if (spring - 4 * hour <=? t) && (t <? autumn - 4 * hour)
      then -4 * hour else -5 * hour.

(** The check that [civil_from_days] and [days_from_civil] agree on the
    day [doe] of a 400-year era, and its run over a range of days *)
Definition civil_check (doe : Z) : bool :=
  let yoe := (doe - doe / 1460 + doe / 36524 - doe / 146096) / 365 in
  let doy := doe - (365 * yoe + yoe / 4 - yoe / 100) in
  let mp := (5 * doy + 2) / 153 in
  let d := doy - (153 * mp + 2) / 5 + 1 in
  let m := if mp <? 10 then mp + 3 else mp - 9 in
  let mp' := if 2 <? m then m - 3 else m + 9 in
  (0 <=? yoe) && (yoe <? 400) && (1 <=? m) && (m <=? 12) &&
  (1 <=? d) && (d <=? 31) &&
  (yoe * 365 + yoe / 4 - yoe / 100 + ((153 * mp' + 2) / 5 + 1 - 1) + d - 1 =? doe).

Fixpoint check_from (n : nat) (z : Z) : bool :=
  match n with
  | O => true
  | S n' => civil_check z && check_from n' (z + 1)
  end.

(* ------------------------------------------------------------------ *)
(** ** Key rotation *)

(** [[process.env.SERPAPI_KEY, process.env.SERPAPI_KEY_2].filter(Boolean)] *)
Definition serpApiKeys_of_env (k1 k2 : option string) : list string :=
  flat_map (fun o => match o with
                     | Some s => if truthy_str s then [s] else []
                     | None => []
                     end) [k1; k2].

(** [getNextSerpKey]: the key handed out, [None] for [null], and the new
    value of [serpKeyIndex] *)
Definition getNextSerpKey (serpApiKeys : list string) (serpKeyIndex : nat)
  : option string * nat :=
  match serpApiKeys with
  | [] => (None, serpKeyIndex)
  | _ => (nth_error serpApiKeys (serpKeyIndex mod List.length serpApiKeys)%nat,
          S serpKeyIndex)
  end.

(** The results of [n] successive calls of [getNextSerpKey] *)
Fixpoint nextKeys (serpApiKeys : list string) (serpKeyIndex : nat) (n : nat)
  : list (option string) :=
  match n with
  | O => []
  | S n' =>
      let '(key, idx') := getNextSerpKey serpApiKeys serpKeyIndex in
      key :: nextKeys serpApiKeys idx' n'
  end.

(* ------------------------------------------------------------------ *)
(** ** The [flights] table *)

Record flight_row := {
  airline : string;
  origin : string;
  destination : string;
  departure_date : string;
  price : real;
  scraped_at : Z;
  departure_time : string;      (* [""] also stands for NULL *)
  arrival_time : string;
  duration_min : option Z;
  flight_number : string;
  stops : Z;
  booking_token : string
}.

(** Stable sort, the order of [ORDER BY] and of [Array.prototype.sort] *)
Fixpoint insert_by (A : Type) (le : A -> A -> bool) (x : A) (l : list A) : list A :=
  match l with
  | [] => [x]
  | y :: l' => if le x y then x :: l else y :: insert_by le x l'
  end.

Definition sort_by (A : Type) (le : A -> A -> bool) (l : list A) : list A :=
  fold_right (insert_by le) [] l.

(** [WHERE UPPER(origin) = UPPER(?) AND UPPER(destination) = UPPER(?)] *)
Definition route_matches (o d : string) (r : flight_row) : bool :=
  String.eqb (toUpperCase (origin r)) (toUpperCase o) &&
  String.eqb (toUpperCase (destination r)) (toUpperCase d).

(** The rows selected by the two read endpoints: the route filter applies
    only when both query parameters are present and non-empty
    ([if (origin && destination)]). *)
Definition select_rows (qorigin qdestination : option string)
  (table : list flight_row) : list flight_row :=
  match qorigin, qdestination with
  | Some o, Some d =>
      if truthy_str o && truthy_str d then filter (route_matches o d) table
      else table
  | _, _ => table
  end.

(** [GET /api/flights/history]: [... ORDER BY scraped_at ASC] *)
Definition queryHistory (qorigin qdestination : option string)
  (table : list flight_row) : list flight_row :=
  sort_by (fun a b => scraped_at a <=? scraped_at b)
          (select_rows qorigin qdestination table).

(** The window of [GET /api/insights]:
    [... ORDER BY scraped_at DESC LIMIT 100] *)
Definition queryRecent (qorigin qdestination : option string)
  (table : list flight_row) : list flight_row :=
  firstn 100 (sort_by (fun a b => scraped_at b <=? scraped_at a)
                      (select_rows qorigin qdestination table)).

(* ------------------------------------------------------------------ *)
(** ** JS objects used as maps, in insertion order *)

Fixpoint obj_get (V : Type) (m : list (string * V)) (k : string) : option V :=
  match m with
  | [] => None
  | (k', v) :: m' => if String.eqb k' k then Some v else obj_get m' k
  end.

(** [m[k] = v]: an existing key keeps its place, a new one goes last *)
Fixpoint obj_set (V : Type) (m : list (string * V)) (k : string) (v : V)
  : list (string * V) :=
  match m with
  | [] => [(k, v)]
  | (k', v') :: m' =>
      if String.eqb k' k then (k, v) :: m' else (k', v') :: obj_set m' k v
  end.

(** [[...new Set(l)]]: first occurrences, in order *)
Definition set_of (l : list string) : list string :=
  fold_left (fun acc x => if existsb (String.eqb x) acc then acc else acc ++ [x])
            l [].

(** The member names of [Object.prototype]: on an object literal, reading
    such a key while the object has no property of its own by that name
    yields the inherited member (a function, or [Object.prototype] itself
    for [__proto__]), which is truthy and has no [price] *)
Definition inherited (k : string) : bool :=
  existsb (String.eqb k)
    ["constructor"; "toString"; "toLocaleString"; "valueOf";
     "hasOwnProperty"; "isPrototypeOf"; "propertyIsEnumerable";
     "__proto__"; "__defineGetter__"; "__defineSetter__";
     "__lookupGetter__"; "__lookupSetter__"].

(* ------------------------------------------------------------------ *)
(** ** Insights *)

Inductive insight_type := buy | wait | flex.

(** An element of the response of [GET /api/insights]. The [description]
    text is left out: it is display text only. *)
Record insight := {
  id : nat;
  type : insight_type;
  i_airline : string;
  i_price : num;
  savings : option num;         (* flex only *)
  title : string;
  flightDetail : option string; (* absent on flex *)
  date : option string;         (* absent on flex *)
  searchUrl : option string     (* absent on flex *)
}.

Definition string_of_Z (z : Z) : string :=
  DecimalString.NilZero.string_of_int (Z.to_int z).

(** The state of the handler: [idCounter] and the [insights] array *)
Definition istate := (nat * list insight)%type.

Definition byAirline (rows : list flight_row) : list (string * list flight_row) :=
  fold_left (fun m r =>
               match obj_get m (airline r) with
               | None => obj_set m (airline r) [r]
               | Some l => obj_set m (airline r) (l ++ [r])
               end) rows [].

Definition flights_of (m : list (string * list flight_row)) (a : string)
  : list flight_row :=
  match obj_get m a with Some l => l | None => [] end.

Definition buildGFUrl (o dest d : string) : string :=
  "https://www.google.com/travel/flights?q=flights+from+" +++ o +++ "+to+" +++
  dest +++ "+on+" +++ d +++ "+one+way".

(** One step of [Math.min]: NaN wins, [-0] is below [+0], otherwise the
    lesser of the two *)
Definition min_step (lowest number : num) : num :=
  match lowest, number with
  | S754_nan, _ | _, S754_nan => S754_nan
  | S754_zero false, S754_zero true => number
  | _, _ => if num_lt number lowest then number else lowest
  end.

(** [Math.min(...l)], which starts from [+Infinity] *)
Definition Math_min (l : list num) : num :=
  fold_left min_step l (S754_infinity false).

(** [flights.map(f => f.price)] *)
Definition prices_of (flights : list flight_row) : list num :=
  map (fun f => num_of (price f)) flights.

(** [Math.round(prices.reduce((a, b) => a + b, 0) / prices.length)] *)
Definition avgPrice (prices : list num) : num :=
  Math_round (num_div (fold_left num_add prices zero)
                      (num_of_Z (Z.of_nat (List.length prices)))).

Definition flightDetail_of (cheapest : flight_row) : string :=
  if truthy_str (departure_time cheapest) && truthy_str (arrival_time cheapest)
  then departure_time cheapest +++ "–" +++ arrival_time cheapest +++
       (if 0 <? stops cheapest
        then " (" +++ string_of_Z (stops cheapest) +++ " stop)"
        else " nonstop")
  else "".

(** The body of the first [airlines.forEach]: one best-price insight *)
Definition bestPriceStep (m : list (string * list flight_row))
  (st : istate) (a : string) : istate :=
  let '(idCounter, insights) := st in
  let flights := flights_of m a in
  let prices := prices_of flights in
  let minP := Math_min prices in
  let avgP := avgPrice prices in
  match find (fun f => num_eq (price f) minP) flights with
  | None => st                  (* not reached: see [find_minPrice] *)
  | Some cheapest =>
      let base ty ttl :=
        {| id := idCounter; type := ty; i_airline := a; i_price := minP;
           savings := None; title := ttl;
           flightDetail := Some (flightDetail_of cheapest);
           date := Some (departure_date cheapest);
           searchUrl := Some (buildGFUrl (origin cheapest) (destination cheapest)
                                         (departure_date cheapest)) |} in
      (S idCounter,
       insights ++
       [if num_lt minP (num_mul avgP lit_0_9)
        then base buy "Strong Buy Recommendation"
        else if num_lt (num_mul avgP lit_1_1) minP
        then base wait "Hold / Wait"
        else base buy "Best Price Found"])
  end.

(** The loop that fills [cheapestByDate]. For a date that names a member
    of [Object.prototype] the test [!cheapestByDate[date]] is false and
    the comparison with the member's [price], which is undefined, is
    false too: the flight is passed over. *)
Definition cheapestByDate (flights : list flight_row)
  : list (string * flight_row) :=
  fold_left (fun m f =>
               match obj_get m (departure_date f) with
               | None => if inherited (departure_date f) then m
                         else obj_set m (departure_date f) f
               | Some g => if num_lt (price f) (price g)
                           then obj_set m (departure_date f) f else m
               end) flights [].

(** The comparator [(a, b) => a[1].price - b[1].price] of [dates.sort], as
    the test "not after": a positive difference puts [a] after [b], and
    NaN counts as 0 *)
Definition by_price (a b : string * flight_row) : bool :=
  negb (num_lt zero (num_sub (price (snd a)) (price (snd b)))).

(** The body of the second [airlines.forEach]: at most one flex insight *)
Definition flexStep (m : list (string * list flight_row))
  (st : istate) (a : string) : istate :=
  let '(idCounter, insights) := st in
  let flights := flights_of m a in
  let uniqueDates := filter truthy_str (set_of (map departure_date flights)) in
  if (List.length uniqueDates <=? 1)%nat then st
  else
    let dates := sort_by by_price (cheapestByDate flights) in
    match hd_error dates, hd_error (rev dates) with
    | Some cheapest, Some mostExpensive =>
        if negb (String.eqb (fst cheapest) (fst mostExpensive)) then
          let sav := num_sub (price (snd mostExpensive)) (price (snd cheapest)) in
          if num_lt lit_20 sav then
            (S idCounter,
             insights ++
             [{| id := idCounter; type := flex; i_airline := a;
                 i_price := price (snd cheapest); savings := Some sav;
                 title := "Cheaper " +++ a +++ " Date";
                 flightDetail := None; date := None; searchUrl := None |}])
          else st
        else st
    | _, _ => st
    end.

(** The handler of [GET /api/insights] on the rows of its query *)
Definition deriveInsights (rows : list flight_row) : list insight :=
  match rows with
  | [] => []
  | _ =>
      let m := byAirline rows in
      let airlines := map fst m in
      let st1 := fold_left (bestPriceStep m) airlines (1%nat, []) in
      let st2 := fold_left (flexStep m) airlines st1 in
      snd st2
  end.

Definition insightsEndpoint (qorigin qdestination : option string)
  (table : list flight_row) : list insight :=
  deriveInsights (queryRecent qorigin qdestination table).

(* ------------------------------------------------------------------ *)
(** ** The upstream source and the fetch orchestrator *)

(** [flight.price] of a candidate fare, as decoded from JSON *)
Inductive price_field := PriceAbsent | PriceNull | PriceNum (p : real).

Record leg := {
  leg_airline : option string;
  departure_airport_time : option string;
  arrival_airport_time : option string;
  leg_duration : option Z;
  leg_flight_number : option string
}.

Record candidate := {
  c_flights : option (list leg);
  c_price : price_field;
  total_duration : option Z
}.

Record response_data := {
  best_flights : option (list candidate);
  other_flights : option (list candidate);
  google_flights_url : option string
}.

Record request := {
  departure_id : string;
  arrival_id : string;
  outbound_date : string;
  api_key : string
}.

(** What [await axios.get(...)] does: it yields the response, or throws *)
Inductive upstream_result :=
| Responds (data : response_data)
| Fails (message : string).

(** The world outside the program: the answer of the upstream source to
    the [n]-th request and the time read while handling it, the time zone
    of the process and the engine's reading of the date strings that the
    language leaves to it *)
Record environment := {
  upstream : nat -> request -> upstream_result;
  clock : nat -> Z;
  zone : timezone;
  legacyParse : string -> option Z
}.

Inductive log_line :=
| LogNoKey
| LogFetching (o d dStr : string)
| LogSaved (r : flight_row)
| LogError (message : string).

(** The state of the process: the table, the rotation index, the console
    and the number of upstream requests made so far *)
Record world := {
  db : list flight_row;
  serpKeyIndex : nat;
  console : list log_line;
  calls : nat
}.

Definition log (l : log_line) (w : world) : world :=
  {| db := db w; serpKeyIndex := serpKeyIndex w;
     console := console w ++ [l]; calls := calls w |}.

Definition insert_row (r : flight_row) (w : world) : world :=
  {| db := db w ++ [r]; serpKeyIndex := serpKeyIndex w;
     console := console w; calls := calls w |}.

(** [price && ...]: the number when the field is truthy *)
Definition truthy_price (p : price_field) : option real :=
  match p with
  | PriceNum x => if truthy_num x then Some x else None
  | _ => None
  end.

(** [a || b || null] on numbers *)
Definition or_num (a b : option Z) : option Z :=
  match a with
  | Some z => if z =? 0 then (match b with
                              | Some y => if y =? 0 then None else Some y
                              | None => None
                              end)
              else Some z
  | None => match b with
            | Some y => if y =? 0 then None else Some y
            | None => None
            end
  end.

Definition empty_leg : leg :=
  {| leg_airline := None; departure_airport_time := None;
     arrival_airport_time := None; leg_duration := None;
     leg_flight_number := None |}.

(** [flight.flights?.[0] || {}] *)
Definition first_leg (flight : candidate) : leg :=
  match c_flights flight with
  | Some (l :: _) => l
  | _ => empty_leg
  end.

(** [leg.airline || ''] *)
Definition candidate_airline (flight : candidate) : string :=
  or_str (leg_airline (first_leg flight)) "".

(** The body of [allFlights.forEach] *)
Definition saveFlight (o d dStr : string) (now : Z) (bookingToken : string)
  (w : world) (flight : candidate) : world :=
  let lg := first_leg flight in
  let a := candidate_airline flight in
  match truthy_price (c_price flight) with
  | Some p =>
      if includes a "JetBlue" || includes a "JSX" then
        let depTime := or_str (departure_airport_time lg) "" in
        let arrTime := or_str (arrival_airport_time lg) "" in
        let duration := or_num (total_duration flight) (leg_duration lg) in
        let flightNum := match leg_flight_number lg with
                         | Some n => if truthy_str n then a +++ " " +++ n else ""
                         | None => ""
                         end in
        let nlegs := match c_flights flight with
                     | Some [] | None => 1
                     | Some l => Z.of_nat (List.length l)
                     end in
        let r := {| airline := a; origin := o; destination := d;
                    departure_date := dStr; price := p; scraped_at := now;
                    departure_time := depTime; arrival_time := arrTime;
                    duration_min := duration; flight_number := flightNum;
                    stops := nlegs - 1; booking_token := bookingToken |} in
        log (LogSaved r) (insert_row r w)
      else w
  | None => w
  end.

Definition or_list (A : Type) (o : option (list A)) : list A :=
  match o with Some l => l | None => [] end.

(** [[...(data.best_flights || []), ...(data.other_flights || [])]] *)
Definition allFlights (data : response_data) : list candidate :=
  or_list (best_flights data) ++ or_list (other_flights data).

(** The [params] of the request for one date *)
Definition request_for (o d apiKey dStr : string) : request :=
  {| departure_id := o; arrival_id := d; outbound_date := dStr;
     api_key := apiKey |}.

(** The [for (const dStr of datesToSearch)] loop inside [try]; the first
    request that throws leaves the loop for the [catch] clause *)
Fixpoint fetchDates (env : environment) (o d apiKey : string)
  (dates : list string) (w : world) : world :=
  match dates with
  | [] => w
  | dStr :: rest =>
      let w1 := log (LogFetching o d dStr) w in
      let req := request_for o d apiKey dStr in
      let n := calls w1 in
      let w2 := {| db := db w1; serpKeyIndex := serpKeyIndex w1;
                   console := console w1; calls := S n |} in
      match upstream env n req with
      | Fails message => log (LogError message) w2
      | Responds data =>
          let now := clock env n in
          let bookingToken := or_str (google_flights_url data) "" in
          fetchDates env o d apiKey rest
                     (fold_left (saveFlight o d dStr now bookingToken)
                                (allFlights data) w2)
      end
  end.

(** How a call of the async function ends *)
Inductive outcome :=
| Returned (w : world)
| Rejected (w : world).         (* [RangeError] of [toISOString] *)

Definition world_of (r : outcome) : world :=
  match r with Returned w | Rejected w => w end.

Definition fetchRealFlightPrices (env : environment) (serpApiKeys : list string)
  (o d baseDateStr : string) (flexDays : nat) (w : world) : outcome :=
  let '(key, idx) := getNextSerpKey serpApiKeys (serpKeyIndex w) in
  let w0 := {| db := db w; serpKeyIndex := idx;
               console := console w; calls := calls w |} in
  match key with
  | None => Returned (log LogNoKey w0)
  | Some apiKey =>
      if truthy_str apiKey then
        let o' := toUpperCase o in
        let d' := toUpperCase d in
        match datesToSearch (zone env) (legacyParse env) baseDateStr flexDays with
        | None => Rejected w0
        | Some dates => Returned (fetchDates env o' d' apiKey dates w0)
        end
      else Returned (log LogNoKey w0)
  end.

(** [POST /api/flights/search] *)
Record search_body := {
  b_origin : option string;
  b_destination : option string;
  b_date : option string;
  b_returnDate : option string;
  b_flexDays : nat
}.

Inductive http_response :=
| Json200 (message : string)
| Json400 (error : string)
| Unanswered.                   (* the handler's promise was rejected *)

Definition dflt (o : option string) (v : string) : string :=
  match o with Some s => s | None => v end.

Definition searchEndpoint (env : environment) (serpApiKeys : list string)
  (body : search_body) (w : world) : http_response * world :=
  match serpApiKeys with
  | [] => (Json400 "No API key configured.", w)
  | _ =>
      match fetchRealFlightPrices env serpApiKeys
              (dflt (b_origin body) "JFK") (dflt (b_destination body) "MIA")
              (dflt (b_date body) "2024-04-12") (b_flexDays body) w with
      | Rejected w1 => (Unanswered, w1)
      | Returned w1 =>
          match b_returnDate body with
          | Some rd =>
              if truthy_str rd then
                match fetchRealFlightPrices env serpApiKeys
                        (dflt (b_destination body) "JFK")
                        (dflt (b_origin body) "MIA")
                        rd (b_flexDays body) w1 with
                | Rejected w2 => (Unanswered, w2)
                | Returned w2 =>
                    (Json200 "Live search completed and prices stored.", w2)
                end
              else (Json200 "Live search completed and prices stored.", w1)
          | None => (Json200 "Live search completed and prices stored.", w1)
          end
      end
  end.

(** Reading the console: the dates of the upstream requests announced,
    and the messages of the errors caught *)
Definition fetched_dates (c : list log_line) : list string :=
  flat_map (fun l => match l with LogFetching _ _ dStr => [dStr] | _ => [] end) c.

Definition logged_errors (c : list log_line) : list string :=
  flat_map (fun l => match l with LogError message => [message] | _ => [] end) c.

(** A fare of a tracked carrier *)
Definition tracked (f : candidate) : bool :=
  includes (candidate_airline f) "JetBlue" || includes (candidate_airline f) "JSX".

(** The rows a fetch may add for the route [o], [d] *)
Definition fetched_row (o d : string) (r : flight_row) : Prop :=
  origin r = o /\ destination r = d /\ truthy_num (price r) = true /\
  (includes (airline r) "JetBlue" = true \/ includes (airline r) "JSX" = true).

(* ------------------------------------------------------------------ *)
(** ** The other writers: the seed endpoint and the scheduled job *)

(** [pastDate = new Date(); pastDate.setDate(today.getDate() - i)], with
    [now] the instant [new Date()] reads; [None] is the Invalid Date, on
    which [pastDate.toISOString()] throws *)
Definition pastDate (tz : timezone) (today now : Z) (i : Z) : option Z :=
  setDate tz now (getDate tz today - i).

(** A row written with the six columns of the seed statement; the other
    columns take their defaults *)
Definition seed_row (a : string) (p : real) (t : Z) : flight_row :=
  {| airline := a; origin := "JFK"; destination := "MIA";
     departure_date := "2024-04-12"; price := p; scraped_at := t;
     departure_time := ""; arrival_time := ""; duration_min := None;
     flight_number := ""; stops := 0; booking_token := "" |}.

(** The two rows of iteration [i] of the seed loop, stamped [dateStr];
    the prices are small whole numbers, on which the arithmetic of
    doubles is exact *)
Definition seed_rows_of (i : Z) (dateStr : Z) : list flight_row :=
  let baseJbPrice := 220 + (7 - i) * 15 in
  let baseJbPrice := if i =? 2 then baseJbPrice - 45 else baseJbPrice in
  let baseJsxPrice := 450 + (7 - i) * 10 in
  let baseJsxPrice := if i =? 1 then baseJsxPrice + 50 else baseJsxPrice in
  [seed_row "JetBlue" (usd baseJbPrice) dateStr;
   seed_row "JSX" (usd baseJsxPrice) dateStr].

(** The loop [for (let i = 7; i >= 0; i--)] over the values of [i] that
    are left; a [RangeError] ends it, and the handler with it *)
Fixpoint seedLoop (tz : timezone) (today : Z) (nows : Z -> Z)
  (steps : list Z) (rows : list flight_row) : list flight_row :=
  match steps with
  | [] => rows
  | i :: rest =>
      match pastDate tz today (nows i) i with
      | None => rows
      | Some dateStr =>
          seedLoop tz today nows rest (rows ++ seed_rows_of i dateStr)
      end
  end.

(** [GET /api/seed] *)
Definition seed (env : environment) (today : Z) (nows : Z -> Z) (w : world)
  : world :=
  {| db := seedLoop (zone env) today nows [7; 6; 5; 4; 3; 2; 1; 0] (db w);
     serpKeyIndex := serpKeyIndex w; console := console w; calls := calls w |}.

(** The job of [cron.schedule]: [fetchRealFlightPrices('JFK', 'MIA',
    '2024-04-12')], the fourth parameter at its default [0] *)
Definition scheduledJob (env : environment) (serpApiKeys : list string)
  (w : world) : outcome :=
  fetchRealFlightPrices env serpApiKeys "JFK" "MIA" "2024-04-12" 0 w.

(** What can change the state of the server: the two writing endpoints
    and the scheduled job (the two reading endpoints leave it alone) *)
Inductive server_event :=
| GetSeed (today : Z) (nows : Z -> Z)
| PostSearch (body : search_body)
| CronTick.

Definition handle (env : environment) (serpApiKeys : list string)
  (w : world) (e : server_event) : world :=
  match e with
  | GetSeed today nows => seed env today nows w
  | PostSearch body => snd (searchEndpoint env serpApiKeys body w)
  | CronTick => world_of (scheduledJob env serpApiKeys w)
  end.

Definition run (env : environment) (serpApiKeys : list string)
  (events : list server_event) (w : world) : world :=
  fold_left (handle env serpApiKeys) events w.

(** What every stored row satisfies *)
Definition row_ok (r : flight_row) : Prop :=
  (includes (airline r) "JetBlue" = true \/ includes (airline r) "JSX" = true) /\
  truthy_num (price r) = true /\
  toUpperCase (origin r) = origin r /\
  toUpperCase (destination r) = destination r.

(* ------------------------------------------------------------------ *)
(** ** The dashboard: merging the insights of the two legs *)

(** An insight as the dashboard holds it, tagged with its leg *)
Inductive leg_tag := outbound | return_leg.

Record tagged_insight := {
  t_insight : insight;
  t_leg : leg_tag;
  t_id : nat                    (* the [id] after tagging, the React key *)
}.

(** [outInsights.forEach(i => { i.leg = 'outbound'; });
    retInsights.forEach(i => { i.leg = 'return'; i.id = i.id + 100; });
    setInsights([...outInsights, ...retInsights])] *)
Definition mergeInsights (outInsights retInsights : list insight)
  : list tagged_insight :=
  map (fun i => {| t_insight := i; t_leg := outbound; t_id := id i |}) outInsights
  ++ map (fun i => {| t_insight := i; t_leg := return_leg;
                      t_id := (id i + 100)%nat |}) retInsights.

(** What [fetchData] shows for a route: the insights of the outbound
    query and of the query with the two airports swapped *)
Definition dashboardInsights (o d : string) (table : list flight_row)
  : list tagged_insight :=
  mergeInsights (insightsEndpoint (Some o) (Some d) table)
                (insightsEndpoint (Some d) (Some o) table).

(* ------------------------------------------------------------------ *)
(** ** The notions the properties are stated with *)

(** The first observation of a list whose price equals [p], with the ones
    before it *)
Definition first_at_price (g : list flight_row) (p : num) (c : flight_row) : Prop :=
  exists pre post, g = pre ++ c :: post /\ num_eq (price c) p = true /\
                   forall r, In r pre -> num_eq (price r) p = false.

(** What a fetch for the route [o], [d] over the window [dates] writes *)
Definition window_row (o d : string) (dates : list string) (r : flight_row)
  : Prop :=
  origin r = toUpperCase o /\ destination r = toUpperCase d /\
  In (departure_date r) dates /\ 0 <= stops r /\ row_ok r.

(** The rows the insert of one candidate fare adds: none, or one *)
Definition fare_rows (o d dStr : string) (now : Z) (tok : string)
  (f : candidate) : list flight_row :=
  db (saveFlight o d dStr now tok
        {| db := []; serpKeyIndex := 0; console := []; calls := 0 |} f).

(** The rows of the fares of one answer, in the order of the answer *)
Definition answer_rows (o d dStr : string) (now : Z) (data : response_data)
  : list flight_row :=
  flat_map (fare_rows o d dStr now (or_str (google_flights_url data) ""))
           (allFlights data).

(** The rows of the answers to the requests of a window, the first of
    them being request number [n], up to the first request that fails *)
Fixpoint window_rows (env : environment) (o d apiKey : string) (n : nat)
  (dates : list string) : list flight_row :=
  match dates with
  | [] => []
  | dStr :: rest =>
      match upstream env n (request_for o d apiKey dStr) with
      | Responds data =>
          answer_rows o d dStr (clock env n) data
          ++ window_rows env o d apiKey (S n) rest
      | Fails _ => []
      end
  end.

Definition is_seed (e : server_event) : bool :=
  match e with GetSeed _ _ => true | _ => false end.

(** The year of a time value, in UTC *)
Definition year_of (t : Z) : Z := fst (fst (civil_from_days (Day t))).

(** The airline group of [a] in a window: its observations, in order *)
Definition group_of (rows : list flight_row) (a : string) : list flight_row :=
  filter (fun r => String.eqb (airline r) a) rows.

Definition is_flex (i : insight) : bool :=
  match type i with flex => true | _ => false end.

(** The insights of one airline, by kind *)
Definition best_price_of (a : string) (l : list insight) : list insight :=
  filter (fun i => negb (is_flex i) && String.eqb (i_airline i) a) l.

Definition flex_of (a : string) (l : list insight) : list insight :=
  filter (fun i => is_flex i && String.eqb (i_airline i) a) l.

(** What the first loop pushes for a group, read as the [if / else if /
    else] it is *)
Definition best_price_insight (g : list flight_row) (a : string) (i : insight)
  : Prop :=
  let minP := Math_min (prices_of g) in
  let avgP := avgPrice (prices_of g) in
  i_airline i = a /\ i_price i = minP /\ savings i = None /\ type i <> flex /\
  (num_lt minP (num_mul avgP lit_0_9) = true ->
   type i = buy /\ title i = "Strong Buy Recommendation") /\
  (num_lt minP (num_mul avgP lit_0_9) = false ->
   num_lt (num_mul avgP lit_1_1) minP = true ->
   type i = wait /\ title i = "Hold / Wait") /\
  (num_lt minP (num_mul avgP lit_0_9) = false ->
   num_lt (num_mul avgP lit_1_1) minP = false ->
   type i = buy /\ title i = "Best Price Found").

(** The greatest of a list of numbers, from [-Infinity] *)
Definition max_step (highest number : num) : num :=
  match highest, number with
  | S754_nan, _ | _, S754_nan => S754_nan
  | S754_zero true, S754_zero false => number
  | _, _ => if num_lt highest number then number else highest
  end.

Definition Math_max (l : list num) : num :=
  fold_left max_step l (S754_infinity true).

(** The distinct non-empty departure dates of a group *)
Definition distinct_nonempty_dates (g : list flight_row) : list string :=
  nodup string_dec (filter truthy_str (map departure_date g)).

(** The departure dates of a group that become keys of [cheapestByDate],
    each once: all of them, the empty one included, but the names of
    members of [Object.prototype] *)
Definition date_keys (g : list flight_row) : list string :=
  nodup string_dec (filter (fun k => negb (inherited k)) (map departure_date g)).

(** The observations of a group on one departure date *)
Definition on_date (g : list flight_row) (dStr : string) : list flight_row :=
  filter (fun f => String.eqb (departure_date f) dStr) g.

(** The cheapest price of a group on one departure date *)
Definition per_date_cheapest (g : list flight_row) (dStr : string) : num :=
  Math_min (prices_of (on_date g dStr)).

(** The cheapest and the most expensive of the per-date cheapest prices *)
Definition cheapest_date_price (g : list flight_row) : num :=
  Math_min (map (per_date_cheapest g) (date_keys g)).

Definition dearest_date_price (g : list flight_row) : num :=
  Math_max (map (per_date_cheapest g) (date_keys g)).

(** Their difference, as the subtraction of doubles gives it *)
Definition date_spread (g : list flight_row) : num :=
  num_sub (dearest_date_price g) (cheapest_date_price g).

Definition flex_condition (g : list flight_row) : Prop :=
  (2 <= List.length (distinct_nonempty_dates g))%nat /\
  num_lt lit_20 (date_spread g) = true.

Definition flex_insight (g : list flight_row) (a : string) (i : insight) : Prop :=
  type i = flex /\ i_airline i = a /\
  num_eq (i_price i) (cheapest_date_price g) = true /\
  savings i = Some (date_spread g).

(** What the second loop pushes for a group: one flex insight when the
    condition holds, nothing otherwise *)
Definition flex_outcome (g : list flight_row) (a : string) (l : list insight)
  : Prop :=
  (flex_condition g /\ exists i, l = [i] /\ flex_insight g a i) \/
  (~ flex_condition g /\ l = []).

(** The invariant of the loop that fills [cheapestByDate]: after the
    flights [done], the keys are their dates, those that name an
    inherited member apart, and each value is a cheapest flight of its
    date *)
Definition cheapest_inv (done : list flight_row) (m : list (string * flight_row))
  : Prop :=
  NoDup (map fst m) /\
  (forall dStr, In dStr (map fst m) <->
                In dStr (map departure_date done) /\ inherited dStr = false) /\
  (forall dStr g, obj_get m dStr = Some g ->
     In g done /\ departure_date g = dStr /\
     forall f, In f done -> departure_date f = dStr ->
               num_le (price g) (price f) = true).

(** What the first loop pushes for a group, read for the fields it copies
    from the cheapest observation *)
Definition provenance (g : list flight_row) (a : string) (i : insight) : Prop :=
  i_airline i = a /\ type i <> flex /\ i_price i = Math_min (prices_of g) /\
  exists c, first_at_price g (i_price i) c /\
            date i = Some (departure_date c) /\
            searchUrl i = Some (buildGFUrl (origin c) (destination c)
                                           (departure_date c)) /\
            flightDetail i = Some (flightDetail_of c).

(* ------------------------------------------------------------------ *)
(** ** Sample data *)

Definition sample_row (a dDate : string) (p : real) (t : Z) : flight_row :=
  {| airline := a; origin := "JFK"; destination := "MIA";
     departure_date := dDate; price := p; scraped_at := t;
     departure_time := ""; arrival_time := ""; duration_min := None;
     flight_number := ""; stops := 0; booking_token := "" |}.

Definition sample_leg (a : string) : leg :=
  {| leg_airline := Some a; departure_airport_time := Some "2024-04-12 08:00";
     arrival_airport_time := Some "2024-04-12 11:05"; leg_duration := Some 185;
     leg_flight_number := Some "B6 1" |}.

Definition sample_fare (a : string) (p : price_field) : candidate :=
  {| c_flights := Some [sample_leg a]; c_price := p; total_duration := Some 185 |}.

Definition empty_world : world :=
  {| db := []; serpKeyIndex := 0; console := []; calls := 0 |}.

Definition no_results : response_data :=
  {| best_flights := None; other_flights := None; google_flights_url := None |}.

(** A process in UTC whose engine reads no other date form, and whose
    upstream source fails on the second request *)
Definition env_second_fails : environment :=
  {| upstream := fun n _ => if Nat.eqb n 1 then Fails "Request failed with status code 429"
                            else Responds no_results;
     clock := fun n => Z.of_nat n;
     zone := fixed_zone 0;
     legacyParse := fun _ => None |}.

Definition sample_body : search_body :=
  {| b_origin := Some "jfk"; b_destination := Some "mia";
     b_date := Some "2024-04-12"; b_returnDate := None; b_flexDays := 1 |}.

(** An upstream source that always answers with one JetBlue fare at $199
    and one Delta fare at $150 *)
Definition two_fares : response_data :=
  {| best_flights := Some [sample_fare "JetBlue" (PriceNum (usd 199))];
     other_flights := Some [sample_fare "Delta" (PriceNum (usd 150))];
     google_flights_url := Some "https://www.google.com/travel/flights" |}.

Definition env_two_fares : environment :=
  {| upstream := fun _ _ => Responds two_fares;
     clock := fun n => 1712900000000 + Z.of_nat n;
     zone := fixed_zone 0;
     legacyParse := fun _ => None |}.

(** An upstream source that answers the first request with two fares and
    fails on the second *)
Definition env_fares_then_failure : environment :=
  {| upstream := fun n _ => if Nat.eqb n 0 then Responds two_fares
                            else Fails "Request failed with status code 429";
     clock := fun n => 1712900000000 + Z.of_nat n;
     zone := fixed_zone 0;
     legacyParse := fun _ => None |}.

(** An answer with three JetBlue fares: one without a price, one at $0
    and one at -$5 *)
Definition odd_fares : response_data :=
  {| best_flights := Some [sample_fare "JetBlue" PriceAbsent;
                           sample_fare "JetBlue" (PriceNum (usd 0));
                           sample_fare "JetBlue" (PriceNum (usd (-5)))];
     other_flights := None;
     google_flights_url := None |}.

Definition env_odd_fares : environment :=
  {| upstream := fun _ _ => Responds odd_fares;
     clock := fun n => 1712900000000 + Z.of_nat n;
     zone := fixed_zone 0;
     legacyParse := fun _ => None |}.

(** A process in New York *)
Definition env_new_york : environment :=
  {| upstream := fun _ _ => Responds no_results;
     clock := fun n => 1710000000000 + Z.of_nat n;
     zone := new_york_2024;
     legacyParse := fun _ => None |}.

(** Windows of the insight query, most recent row first.
    One airline seen on two departure dates, at $100 and at $200: *)
Definition two_dates : list flight_row :=
  [sample_row "JetBlue" "2024-04-12" (usd 100) 2;
   sample_row "JetBlue" "2024-04-13" (usd 200) 1].

(** The example of the specification: three fares at $200 and one at $80 *)
Definition one_low_fare : list flight_row :=
  [sample_row "JetBlue" "2024-04-12" (usd 200) 4;
   sample_row "JetBlue" "2024-04-12" (usd 200) 3;
   sample_row "JetBlue" "2024-04-12" (usd 200) 2;
   sample_row "JetBlue" "2024-04-12" (usd 80) 1].

(** A single fare of $1.40: the mean rounds down to 1 *)
Definition one_small_fare : list flight_row :=
  [sample_row "JSX" "2024-04-12" (decimal 14 1) 1].

(** A single fare of $100 *)
Definition one_fare : list flight_row :=
  [sample_row "JSX" "2024-04-12" (usd 100) 1].

(** Fares of $6.30 and $7.70, and fares of $11.70 and $14.30 *)
Definition fares_6_3_and_7_7 : list flight_row :=
  [sample_row "JetBlue" "2024-04-12" (decimal 63 1) 2;
   sample_row "JetBlue" "2024-04-12" (decimal 77 1) 1].

Definition fares_11_7_and_14_3 : list flight_row :=
  [sample_row "JetBlue" "2024-04-12" (decimal 117 1) 2;
   sample_row "JetBlue" "2024-04-12" (decimal 143 1) 1].



(** One airline at $10 on a date spelt [constructor], and at $100 and
    $200 on two dates *)
Definition inherited_date_window : list flight_row :=
  [sample_row "JetBlue" "constructor" (usd 10) 3;
   sample_row "JetBlue" "2024-04-12" (usd 100) 2;
   sample_row "JetBlue" "2024-04-13" (usd 200) 1].

Definition round_trip_body : search_body :=
  {| b_origin := Some "hpn"; b_destination := Some "pbi";
     b_date := Some "2026-03-01"; b_returnDate := Some "2026-03-08";
     b_flexDays := 0 |}.

(** A day of events: the demo data, a search and a tick of the schedule *)
Definition sample_events : list server_event :=
  [GetSeed 1712900000000 (fun _ => 1712900000123);
   PostSearch sample_body; CronTick].

(** The flex insight of [two_dates] *)
Definition two_dates_flex : insight :=
  {| id := 2; type := flex; i_airline := "JetBlue"; i_price := usd 100;
     savings := Some (num_of_Z 100); title := "Cheaper JetBlue Date";
     flightDetail := None; date := None; searchUrl := None |}.

(** The best-price insight of [one_low_fare] *)
Definition one_low_fare_best : insight :=
  {| id := 1; type := buy; i_airline := "JetBlue"; i_price := usd 80;
     savings := None; title := "Strong Buy Recommendation";
     flightDetail := Some "";
     date := Some "2024-04-12";
     searchUrl := Some "https://www.google.com/travel/flights?q=flights+from+JFK+to+MIA+on+2024-04-12+one+way" |}.

(* ================================================================== *)
(** * Properties *)

(* ------------------------------------------------------------------ *)
(** ** The order of numbers *)

Lemma SFcompare_key (x y : num) (kx ky : Z * Z * Z) :
  num_key x = Some kx -> num_key y = Some ky ->
  SFcompare x y = Some (key_compare kx ky).
Proof.
  destruct x as [[]|[]| |[] mx ex]; destruct y as [[]|[]| |[] my ey];
    cbn [num_key]; intros Hx Hy; try discriminate;
    injection Hx as <-; injection Hy as <-; cbn; try reflexivity.
  f_equal. rewrite Z.compare_opp, (Z.compare_antisym ex ey).
  change (PosDef.Pos.compare_cont Eq mx my) with (mx ?= my)%positive.
  destruct (ex ?= ey); reflexivity.
Qed.

Lemma key_compare_spec (a1 a2 a3 b1 b2 b3 : Z) :
  match key_compare (a1, a2, a3) (b1, b2, b3) with
  | Lt => a1 < b1 \/ (a1 = b1 /\ (a2 < b2 \/ (a2 = b2 /\ a3 < b3)))
  | Eq => a1 = b1 /\ a2 = b2 /\ a3 = b3
  | Gt => b1 < a1 \/ (a1 = b1 /\ (b2 < a2 \/ (a2 = b2 /\ b3 < a3)))
  end.
Proof.
  unfold key_compare.
  destruct (Z.compare_spec a1 b1); [|lia|lia].
  destruct (Z.compare_spec a2 b2); [|lia|lia].
  destruct (Z.compare_spec a3 b3); lia.
Qed.

Lemma num_key_some (x : num) :
  is_nan x = false -> exists k1 k2 k3, num_key x = Some (k1, k2, k3).
Proof. destruct x as [[]|[]| |[] m e]; cbn; try discriminate; eauto. Qed.

Lemma num_key_same (x y : num) (k : Z * Z * Z) :
  num_key x = Some k -> num_key y = Some k -> same_num x y.
Proof.
  unfold same_num.
  destruct x as [[]|[]| |[] mx ex]; destruct y as [[]|[]| |[] my ey];
    cbn [num_key]; intros Hx Hy; try discriminate; rewrite <- Hx in Hy;
    try (injection Hy as Hy1 Hy2); try discriminate;
    try (left; reflexivity); try (right; eauto; fail).
  - left. f_equal; lia.
  - left. f_equal; lia.
Qed.

Lemma num_of_not_nan (r : real) : is_nan r = false.
Proof. now destruct r. Qed.

Lemma num_le_not_nan (a b : num) :
  num_le a b = true -> is_nan a = false /\ is_nan b = false.
Proof. destruct a as [| | |]; destruct b as [| | |]; cbn; auto; discriminate. Qed.

Lemma num_lt_not_nan (a b : num) :
  num_lt a b = true -> is_nan a = false /\ is_nan b = false.
Proof. destruct a as [| | |]; destruct b as [| | |]; cbn; auto; discriminate. Qed.

(** The comparisons of two numbers, read off their keys *)
Ltac compare_keys a b Ha Hb :=
  let a1 := fresh "a" in let a2 := fresh "a" in let a3 := fresh "a" in
  let b1 := fresh "b" in let b2 := fresh "b" in let b3 := fresh "b" in
  let Ea := fresh "Ea" in let Eb := fresh "Eb" in
  let K1 := fresh "K" in let K2 := fresh "K" in
  destruct (num_key_some a Ha) as (a1 & a2 & a3 & Ea);
  destruct (num_key_some b Hb) as (b1 & b2 & b3 & Eb);
  unfold num_lt, num_le, num_eq, SFltb, SFleb, SFeqb;
  rewrite ?(SFcompare_key a b Ea Eb), ?(SFcompare_key b a Eb Ea);
  pose proof (key_compare_spec a1 a2 a3 b1 b2 b3) as K1;
  pose proof (key_compare_spec b1 b2 b3 a1 a2 a3) as K2;
  destruct (key_compare (a1, a2, a3) (b1, b2, b3));
  destruct (key_compare (b1, b2, b3) (a1, a2, a3)).

Lemma num_le_refl (a : num) : is_nan a = false -> num_le a a = true.
Proof.
  intros Ha. destruct (num_key_some a Ha) as (k1 & k2 & k3 & Ea).
  unfold num_le, SFleb. rewrite (SFcompare_key a a Ea Ea).
  pose proof (key_compare_spec k1 k2 k3 k1 k2 k3) as K.
  destruct (key_compare _ _); try reflexivity; lia.
Qed.

Section Order.
Variables a b c : num.
Hypothesis Ha : is_nan a = false.
Hypothesis Hb : is_nan b = false.
Hypothesis Hc : is_nan c = false.

Lemma num_le_trans : num_le a b = true -> num_le b c = true -> num_le a c = true.
Proof.
  destruct (num_key_some a Ha) as (a1 & a2 & a3 & Ea).
  destruct (num_key_some b Hb) as (b1 & b2 & b3 & Eb).
  destruct (num_key_some c Hc) as (c1 & c2 & c3 & Ec).
  unfold num_le, SFleb.
  rewrite (SFcompare_key a b Ea Eb), (SFcompare_key b c Eb Ec), (SFcompare_key a c Ea Ec).
  pose proof (key_compare_spec a1 a2 a3 b1 b2 b3) as K1.
  pose proof (key_compare_spec b1 b2 b3 c1 c2 c3) as K2.
  pose proof (key_compare_spec a1 a2 a3 c1 c2 c3) as K3.
  destruct (key_compare (a1, a2, a3) (b1, b2, b3)); try discriminate;
    destruct (key_compare (b1, b2, b3) (c1, c2, c3)); try discriminate;
    destruct (key_compare (a1, a2, a3) (c1, c2, c3)); try reflexivity;
    intros _ _; exfalso; lia.
Qed.

Lemma num_lt_le : num_lt a b = negb (num_le b a).
Proof. compare_keys a b Ha Hb; try reflexivity; exfalso; lia. Qed.

Lemma num_eq_le : num_eq a b = num_le a b && num_le b a.
Proof. compare_keys a b Ha Hb; try reflexivity; exfalso; lia. Qed.

Lemma num_le_total : num_le a b = false -> num_le b a = true.
Proof. compare_keys a b Ha Hb; try reflexivity; try discriminate; intros _; exfalso; lia. Qed.

Lemma num_eq_same : num_eq a b = true -> same_num a b.
Proof.
  destruct (num_key_some a Ha) as (a1 & a2 & a3 & Ea).
  destruct (num_key_some b Hb) as (b1 & b2 & b3 & Eb).
  unfold num_eq, SFeqb. rewrite (SFcompare_key a b Ea Eb).
  pose proof (key_compare_spec a1 a2 a3 b1 b2 b3) as K1.
  destruct (key_compare (a1, a2, a3) (b1, b2, b3)); try discriminate. intros _.
  destruct K1 as (-> & -> & ->). eapply num_key_same; eassumption.
Qed.
End Order.

Lemma num_eq_refl (a : num) : is_nan a = false -> num_eq a a = true.
Proof.
  intros Ha. rewrite (num_eq_le a a Ha Ha), (num_le_refl a Ha). reflexivity.
Qed.

Lemma num_le_antisym (a b : num) :
  num_le a b = true -> num_le b a = true -> num_eq a b = true.
Proof.
  intros H1 H2. destruct (num_le_not_nan _ _ H1) as [Ha Hb].
  rewrite (num_eq_le a b Ha Hb), H1, H2. reflexivity.
Qed.

(** Numbers that differ in the sign of a zero compare and subtract alike. *)
Lemma same_num_sym (x y : num) : same_num x y -> same_num y x.
Proof. intros [->|(s & s' & -> & ->)]; [left|right]; eauto. Qed.

Lemma same_num_lt (k x y : num) : same_num x y -> num_lt k x = num_lt k y.
Proof.
  intros [->|(s & s' & -> & ->)]; [reflexivity|].
  destruct k as [| | |[] m e]; reflexivity.
Qed.

Lemma same_num_eq (k x y : num) : same_num x y -> num_eq x k = num_eq y k.
Proof.
  intros [->|(s & s' & -> & ->)]; [reflexivity|].
  destruct k as [| | |[] m e]; reflexivity.
Qed.

Lemma same_num_sub (a a' c c' : num) :
  same_num a a' -> same_num c c' -> same_num (num_sub a c) (num_sub a' c').
Proof.
  intros [->|(s & s' & -> & ->)] [->|(t & t' & -> & ->)].
  - left. reflexivity.
  - destruct a' as [u|u| |u m e]; cbn.
    + right. destruct u, t, t'; eauto.
    + left. reflexivity.
    + left. reflexivity.
    + left. reflexivity.
  - destruct c' as [u|u| |u m e]; cbn.
    + right. destruct u, s, s'; eauto.
    + left. reflexivity.
    + left. reflexivity.
    + left. reflexivity.
  - right. cbn. destruct s, s', t, t'; eauto.
Qed.

Lemma above_20_same (x y : num) :
  same_num x y -> num_lt lit_20 x = true -> x = y.
Proof.
  intros [->|(s & s' & -> & ->)]; [reflexivity|]. discriminate.
Qed.

(* ------------------------------------------------------------------ *)
(** ** The sign of a difference of doubles *)

Lemma digits2_pos_bounds (p : positive) :
  2 ^ (Zpos (digits2_pos p) - 1) <= Zpos p < 2 ^ Zpos (digits2_pos p).
Proof.
  induction p as [p IH|p IH|]; cbn [digits2_pos].
  - rewrite Pos2Z.inj_succ.
    replace (Z.succ (Zpos (digits2_pos p)) - 1) with (Z.succ (Zpos (digits2_pos p) - 1)) by lia.
    rewrite !Z.pow_succ_r by lia. lia.
  - rewrite Pos2Z.inj_succ.
    replace (Z.succ (Zpos (digits2_pos p)) - 1) with (Z.succ (Zpos (digits2_pos p) - 1)) by lia.
    rewrite !Z.pow_succ_r by lia. lia.
  - cbn. lia.
Qed.

Lemma pow2_pos (n : Z) : 0 <= n -> 0 < 2 ^ n.
Proof. intros H. apply Z.pow_pos_nonneg; lia. Qed.

(** One right shift halves the mantissa, and [p] of them divide it by
    [2^p]. *)
Lemma shr_1_m (mrs : shr_record) :
  0 <= shr_m mrs -> shr_m (shr_1 mrs) = shr_m mrs / 2 /\ 0 <= shr_m (shr_1 mrs).
Proof.
  destruct mrs as [m r s]. cbn [shr_m shr_1]. intros Hm.
  destruct m as [|[p|p|]|p]; cbn [shr_m]; try lia.
  - split; [reflexivity|lia].
  - split; [|lia]. apply Z.div_unique with 1; lia.
  - split; [|lia]. apply Z.div_unique with 0; lia.
  - split; [reflexivity|lia].
Qed.

Lemma iter_shr_m (p : positive) :
  forall mrs, 0 <= shr_m mrs ->
  shr_m (iter_pos shr_1 p mrs) = shr_m mrs / 2 ^ Zpos p /\
  0 <= shr_m (iter_pos shr_1 p mrs).
Proof.
  induction p as [p IH|p IH|]; intros mrs Hm; cbn [iter_pos].
  - destruct (shr_1_m mrs Hm) as [E1 P1].
    destruct (IH _ P1) as [E2 P2]. destruct (IH _ P2) as [E3 P3].
    split; [|exact P3]. rewrite E3, E2, E1.
    assert (Hp : 0 < 2 ^ Zpos p) by (apply pow2_pos; lia).
    rewrite !Z.div_div by lia. f_equal.
    replace (Zpos p~1) with (1 + Zpos p + Zpos p) by lia.
    rewrite !Z.pow_add_r by lia. change (2 ^ 1) with 2. lia.
  - destruct (IH _ Hm) as [E2 P2]. destruct (IH _ P2) as [E3 P3].
    split; [|exact P3]. rewrite E3, E2.
    assert (Hp : 0 < 2 ^ Zpos p) by (apply pow2_pos; lia).
    rewrite !Z.div_div by lia. f_equal.
    replace (Zpos p~0) with (Zpos p + Zpos p) by lia.
    rewrite !Z.pow_add_r by lia. reflexivity.
  - destruct (shr_1_m mrs Hm) as [E1 P1]. split; [|exact P1].
    rewrite E1. reflexivity.
Qed.

Lemma shr_record_of_loc_m (m : Z) (l : location) : shr_m (shr_record_of_loc m l) = m.
Proof. destruct l as [|[]]; reflexivity. Qed.

(** Rounding a positive mantissa whose exponent is not below the least
    one leaves a positive mantissa: nothing underflows to zero. *)
Lemma shr_fexp_pos (m e : Z) (l : location) :
  0 < m -> -1074 <= e ->
  0 < shr_m (fst (shr_fexp 53 1024 m e l)) /\ -1074 <= snd (shr_fexp 53 1024 m e l).
Proof.
  intros Hm He. unfold shr_fexp, shr.
  destruct m as [|p|p]; try lia. cbn [Zdigits2].
  pose proof (digits2_pos_bounds p) as [Hlo _].
  set (dg := Zpos (digits2_pos p)) in *.
  unfold fexp, SpecFloat.emin.
  destruct (Z.max (dg + e - 53) (3 - 1024 - 53) - e) as [|n|n] eqn:En;
    cbn [fst snd]; rewrite ?shr_record_of_loc_m; try lia.
  assert (Hn : Zpos n = dg - 53) by lia.
  destruct (iter_shr_m n (shr_record_of_loc (Zpos p) l)) as [E _];
    [rewrite shr_record_of_loc_m; lia|].
  rewrite E, shr_record_of_loc_m. split; [|lia].
  apply Z.div_str_pos. split; [apply pow2_pos; lia|].
  apply Z.le_trans with (2 ^ (dg - 1)); [|exact Hlo].
  apply Z.pow_le_mono_r; lia.
Qed.

Lemma round_nearest_even_pos (m : Z) (l : location) :
  0 < m -> 0 < round_nearest_even m l.
Proof.
  intros Hm. unfold round_nearest_even.
  destruct l as [|[]]; try lia. destruct (Z.even m); lia.
Qed.

Lemma binary_round_aux_signed (s : bool) (m e : Z) (l : location) :
  0 < m -> -1074 <= e -> signed s (binary_round_aux 53 1024 s m e l).
Proof.
  intros Hm He. unfold binary_round_aux.
  destruct (shr_fexp_pos l Hm He) as [H1 H2].
  destruct (shr_fexp 53 1024 m e l) as [mrs' e']. cbn [fst snd] in H1, H2.
  pose proof (round_nearest_even_pos (loc_of_shr_record mrs') H1) as H3.
  destruct (shr_fexp_pos loc_Exact H3 H2) as [H4 _].
  destruct (shr_fexp 53 1024 _ e' loc_Exact) as [mrs'' e'']. cbn [fst] in H4.
  destruct (shr_m mrs'') as [|q|q]; try lia.
  destruct (e'' <=? 1024 - 53); [left; eauto|right; reflexivity].
Qed.

Lemma iter_xO (m d : positive) : Zpos (Pos.iter xO m d) = Zpos m * 2 ^ Zpos d.
Proof.
  induction d as [|d IH] using Pos.peano_ind.
  - cbn. lia.
  - rewrite Pos.iter_succ, Pos2Z.inj_xO, IH, Pos2Z.inj_succ, Z.pow_succ_r by lia. lia.
Qed.

Lemma shl_align_fst (m : positive) (e ez : Z) :
  ez <= e -> Zpos (fst (shl_align m e ez)) = Zpos m * 2 ^ (e - ez).
Proof.
  intros H. unfold shl_align.
  destruct (ez - e) as [|d|d] eqn:E; cbn [fst]; try lia.
  - replace (e - ez) with 0 by lia. cbn. lia.
  - rewrite iter_xO. replace (e - ez) with (Zpos d) by lia. reflexivity.
Qed.

Lemma binary_round_signed (s : bool) (m : positive) (e : Z) :
  -1074 <= e -> signed s (binary_round 53 1024 s m e).
Proof.
  intros He. unfold binary_round.
  set (e' := fexp 53 1024 (Zpos (digits2_pos m) + e)).
  assert (He' : -1074 <= e') by (unfold e', fexp, SpecFloat.emin; lia).
  assert (Hs : -1074 <= snd (shl_align m e e')).
  { unfold shl_align. destruct (e' - e); cbn [snd]; lia. }
  destruct (shl_align m e e') as [mz ez]. cbn [snd] in Hs.
  apply binary_round_aux_signed; lia.
Qed.

Lemma binary_normalize_signed (d e : Z) :
  -1074 <= e -> d <> 0 ->
  signed (d <? 0) (binary_normalize 53 1024 d e false).
Proof.
  intros He Hd. unfold binary_normalize.
  destruct d as [|p|p]; [congruence| |]; now apply binary_round_signed.
Qed.

(** What [bounded] says of the mantissa and the exponent of a double *)
Lemma bounded_inv (m : positive) (e : Z) :
  bounded 53 1024 m e = true ->
  -1074 <= e /\ Zpos m < 2 ^ 53 /\ (-1074 < e -> 2 ^ 52 <= Zpos m).
Proof.
  unfold bounded, canonical_mantissa, fexp, SpecFloat.emin.
  intros H. apply andb_true_iff in H as [H _]. apply Z.eqb_eq in H.
  pose proof (digits2_pos_bounds m) as [Hlo Hhi].
  set (dg := Zpos (digits2_pos m)) in *.
  split; [lia|]. split.
  - apply Z.lt_le_trans with (2 ^ dg); [exact Hhi|].
    apply Z.pow_le_mono_r; lia.
  - intros He. assert (dg = 53) by lia.
    replace 52 with (dg - 1) by lia. exact Hlo.
Qed.

(** Of two positive doubles the one with the greater exponent is the
    greater. *)
Lemma magnitude_lt (ma mb : positive) (ea eb : Z) :
  bounded 53 1024 ma ea = true -> bounded 53 1024 mb eb = true ->
  ea < eb -> Zpos ma < Zpos mb * 2 ^ (eb - ea).
Proof.
  intros Ha Hb Hlt.
  destruct (bounded_inv _ _ Ha) as (Ha1 & Ha2 & _).
  destruct (bounded_inv _ _ Hb) as (_ & _ & Hb3).
  specialize (Hb3 ltac:(lia)).
  assert (2 ^ 1 <= 2 ^ (eb - ea)) by (apply Z.pow_le_mono_r; lia).
  change (2 ^ 1) with 2 in *. change (2 ^ 53) with (2 ^ 52 * 2) in Ha2.
  nia.
Qed.

Lemma signed_pos (s : bool) (x : num) : signed s x -> num_lt zero x = negb s.
Proof. intros [(m & e & ->)| ->]; destruct s; reflexivity. Qed.

Lemma finite_sub (sa sb : bool) (ma mb : positive) (ea eb : Z) :
  bounded 53 1024 ma ea = true -> bounded 53 1024 mb eb = true ->
  num_lt zero (num_sub (S754_finite sa ma ea) (S754_finite sb mb eb))
  = num_lt (S754_finite sb mb eb) (S754_finite sa ma ea).
Proof.
  intros Ha Hb. unfold num_sub, SFsub.
  destruct (bounded_inv _ _ Ha) as (Ha1 & _).
  destruct (bounded_inv _ _ Hb) as (Hb1 & _).
  set (ez := Z.min ea eb).
  rewrite (@shl_align_fst ma ea ez ltac:(lia)), (@shl_align_fst mb eb ez ltac:(lia)).
  set (d := cond_Zopp sa (Zpos ma * 2 ^ (ea - ez)) - cond_Zopp sb (Zpos mb * 2 ^ (eb - ez))).
  assert (Hpa : 0 < 2 ^ (ea - ez)) by (apply pow2_pos; lia).
  assert (Hpb : 0 < 2 ^ (eb - ez)) by (apply pow2_pos; lia).
  assert (Hcmp : (0 < d <-> num_lt (S754_finite sb mb eb) (S754_finite sa ma ea) = true) /\
                 (d = 0 -> num_lt (S754_finite sb mb eb) (S754_finite sa ma ea) = false)).
  { unfold num_lt, SFltb. subst d.
    assert (Hm : (ea < eb -> Zpos ma * 2 ^ (ea - ez) < Zpos mb * 2 ^ (eb - ez)) /\
                 (eb < ea -> Zpos mb * 2 ^ (eb - ez) < Zpos ma * 2 ^ (ea - ez)) /\
                 (ea = eb -> 2 ^ (ea - ez) = 1 /\ 2 ^ (eb - ez) = 1)).
    { split; [|split].
      - intros Hlt. pose proof (@magnitude_lt ma mb ea eb Ha Hb Hlt).
        replace (ea - ez) with 0 by lia. replace (eb - ez) with (eb - ea) by lia.
        change (2 ^ 0) with 1. lia.
      - intros Hlt. pose proof (@magnitude_lt mb ma eb ea Hb Ha Hlt).
        replace (eb - ez) with 0 by lia. replace (ea - ez) with (ea - eb) by lia.
        change (2 ^ 0) with 1. lia.
      - intros ->. replace (eb - ez) with 0 by lia. split; reflexivity. }
    destruct Hm as (M1 & M2 & M3).
    set (A := Zpos ma * 2 ^ (ea - ez)) in *. set (B := Zpos mb * 2 ^ (eb - ez)) in *.
    assert (HA : 0 < A) by (subst A; lia). assert (HB : 0 < B) by (subst B; lia).
    assert (M3' : ea = eb -> A = Zpos ma /\ B = Zpos mb).
    { intros E. destruct (M3 E) as [E1 E2]. subst A B. rewrite E1, E2. lia. }
    clearbody A B. clear M3 Hpa Hpb.
    destruct sa, sb; cbn [cond_Zopp];
      match goal with |- context [SFcompare ?x ?y] =>
        rewrite (@SFcompare_key x y _ _ eq_refl eq_refl) end;
      match goal with |- context [key_compare (?a1, ?a2, ?a3) (?b1, ?b2, ?b3)] =>
        pose proof (key_compare_spec a1 a2 a3 b1 b2 b3) as K;
        destruct (key_compare (a1, a2, a3) (b1, b2, b3)) end;
      (split; [split|]); intros; try reflexivity; try discriminate;
      destruct (Z.lt_total ea eb) as [Hlt|[Heq|Hgt]];
      try (specialize (M1 Hlt)); try (specialize (M2 Hgt));
      try (destruct (M3' Heq) as [-> ->]); first [lia | exfalso; lia]. }
  destruct Hcmp as [Hpos Hzero].
  destruct (Z.eq_dec d 0) as [E0|Hne].
  - rewrite E0, (Hzero E0). reflexivity.
  - rewrite (signed_pos (@binary_normalize_signed d ez ltac:(lia) Hne)).
    destruct (Z.ltb_spec d 0) as [Hneg|Hnn]; cbn [negb].
    + destruct Hpos as [_ Hp].
      destruct (num_lt (S754_finite sb mb eb) (S754_finite sa ma ea)); [|reflexivity].
      specialize (Hp eq_refl). lia.
    + symmetry. apply Hpos. lia.
Qed.

(** The difference [a - b] of two doubles is positive exactly when
    [b < a]: rounding never takes a difference across zero. *)
Lemma num_sub_pos (a b : real) : num_lt zero (num_sub a b) = num_lt b a.
Proof.
  destruct a as [sa|sa|sa ma ea Ha], b as [sb|sb|sb mb eb Hb]; cbn [num_of];
    try (destruct sa, sb; reflexivity);
    try (destruct sa; reflexivity); try (destruct sb; reflexivity).
  now apply finite_sub.
Qed.

(** The comparator of [dates.sort] orders by price. *)
Lemma by_price_le (x y : string * flight_row) :
  by_price x y = num_le (price (snd x)) (price (snd y)).
Proof.
  unfold by_price. rewrite num_sub_pos.
  rewrite (num_lt_le (price (snd y)) (price (snd x)))
    by apply num_of_not_nan.
  apply negb_involutive.
Qed.

Lemma num_sub_self (p : real) : num_lt lit_20 (num_sub p p) = false.
Proof.
  destruct (num_lt lit_20 (num_sub p p)) eqn:E; [|reflexivity].
  assert (H0 : num_lt zero (num_sub p p) = true).
  { destruct (num_lt_not_nan _ _ E) as [_ Hn].
    assert (Hz : is_nan zero = false) by reflexivity.
    assert (H20 : is_nan lit_20 = false) by reflexivity.
    rewrite (num_lt_le zero _ Hz Hn).
    rewrite (num_lt_le lit_20 _ H20 Hn) in E.
    apply negb_true_iff in E. apply negb_true_iff.
    destruct (num_le (num_sub p p) zero) eqn:E0; [|reflexivity].
    rewrite <- E. symmetry.
    apply (num_le_trans (num_sub p p) zero lit_20 Hn Hz H20 E0). reflexivity. }
  rewrite num_sub_pos in H0.
  rewrite (num_lt_le p p (num_of_not_nan p) (num_of_not_nan p)) in H0.
  rewrite (num_le_refl p (num_of_not_nan p)) in H0. discriminate.
Qed.

(* ------------------------------------------------------------------ *)
(** ** [Math.min] and the greatest of a list *)

Lemma min_step_spec (lowest number : num) :
  is_nan lowest = false -> is_nan number = false ->
  (min_step lowest number = lowest \/ min_step lowest number = number) /\
  num_le (min_step lowest number) lowest = true /\
  num_le (min_step lowest number) number = true.
Proof.
  intros Hl Hn. unfold min_step.
  assert (Hgen : (let r := if num_lt number lowest then number else lowest in
                  (r = lowest \/ r = number) /\ num_le r lowest = true /\
                  num_le r number = true)).
  { cbv zeta. rewrite (num_lt_le number lowest Hn Hl).
    destruct (num_le lowest number) eqn:E; cbn [negb].
    - rewrite (num_le_refl lowest Hl). auto.
    - rewrite (num_le_refl number Hn), (num_le_total lowest number Hl Hn E). auto. }
  destruct lowest as [[]| | |]; destruct number as [[]| | |];
    try discriminate; try exact Hgen.
  cbn. auto.
Qed.

Lemma fold_min_spec (l : list num) :
  forall acc, is_nan acc = false -> Forall (fun x => is_nan x = false) l ->
  let r := fold_left min_step l acc in
  is_nan r = false /\ In r (acc :: l) /\ num_le r acc = true /\
  Forall (fun x => num_le r x = true) l.
Proof.
  induction l as [|x l IH]; intros acc Ha Hall; cbn [fold_left].
  - cbv zeta. split; [exact Ha|]. split; [now left|].
    split; [now apply num_le_refl|constructor].
  - inversion Hall as [|? ? Hx Hl]; subst.
    destruct (min_step_spec acc x Ha Hx) as (Hor & H1 & H2).
    assert (Hs : is_nan (min_step acc x) = false)
      by (destruct Hor as [-> | ->]; assumption).
    destruct (IH (min_step acc x) Hs Hl) as (Hr & Hin & Hle & Hrest).
    cbv zeta. split; [exact Hr|]. split; [|split].
    + destruct Hin as [E|Hin]; [|right; right; exact Hin].
      rewrite <- E. destruct Hor as [-> | ->]; [left|right; left]; reflexivity.
    + apply (num_le_trans _ (min_step acc x) acc); auto.
    + constructor; [|exact Hrest].
      apply (num_le_trans _ (min_step acc x) x); auto.
Qed.

Lemma prices_not_nan (g : list flight_row) :
  Forall (fun x => is_nan x = false) (prices_of g).
Proof.
  unfold prices_of. apply Forall_forall. intros x Hx.
  apply in_map_iff in Hx as (f & <- & _). apply num_of_not_nan.
Qed.

(** [Math.min] of a non-empty list of numbers, none of them NaN, is one
    of them and is not above any of them. *)
Lemma Math_min_spec (l : list num) :
  l <> [] -> Forall (fun x => is_nan x = false) l ->
  is_nan (Math_min l) = false /\ In (Math_min l) l /\
  Forall (fun x => num_le (Math_min l) x = true) l.
Proof.
  intros Hne Hall. unfold Math_min.
  destruct (@fold_min_spec l (S754_infinity false) eq_refl Hall)
    as (Hr & Hin & _ & Hlb).
  cbv zeta in *. split; [exact Hr|]. split; [|exact Hlb].
  destruct Hin as [E|Hin]; [|exact Hin].
  destruct l as [|x l]; [congruence|].
  inversion Hlb as [|? ? Hx _]; subst. rewrite <- E in Hx.
  destruct x as [| [] | |]; try discriminate. rewrite <- E. now left.
Qed.

(** It is determined, up to the sign of a zero, by those two properties. *)
Lemma Math_min_unique (l : list num) (x : num) :
  Forall (fun y => is_nan y = false) l ->
  (exists y, In y l /\ num_eq y x = true) ->
  (forall p, In p l -> num_le x p = true) ->
  num_eq x (Math_min l) = true.
Proof.
  intros Hall (y & Hy & Hyx) Hlb.
  assert (Hne : l <> []) by (intros ->; contradiction).
  destruct (@Math_min_spec l Hne Hall) as (Hn & Hin & Hmin).
  rewrite Forall_forall in Hmin, Hall.
  apply num_le_antisym; [apply Hlb, Hin|].
  pose proof (Hall y Hy) as Hyn.
  assert (Hxn : is_nan x = false).
  { destruct x; try reflexivity. destruct y; discriminate. }
  rewrite (num_eq_le y x Hyn Hxn) in Hyx. apply andb_true_iff in Hyx as [Hyx _].
  apply (num_le_trans (Math_min l) y x); auto.
Qed.

Lemma max_step_spec (highest number : num) :
  is_nan highest = false -> is_nan number = false ->
  (max_step highest number = highest \/ max_step highest number = number) /\
  num_le highest (max_step highest number) = true /\
  num_le number (max_step highest number) = true.
Proof.
  intros Hl Hn. unfold max_step.
  assert (Hgen : (let r := if num_lt highest number then number else highest in
                  (r = highest \/ r = number) /\ num_le highest r = true /\
                  num_le number r = true)).
  { cbv zeta. rewrite (num_lt_le highest number Hl Hn).
    destruct (num_le number highest) eqn:E; cbn [negb].
    - rewrite (num_le_refl highest Hl). auto.
    - rewrite (num_le_refl number Hn), (num_le_total number highest Hn Hl E). auto. }
  destruct highest as [[]| | |]; destruct number as [[]| | |];
    try discriminate; try exact Hgen.
  cbn. auto.
Qed.

Lemma fold_max_spec (l : list num) :
  forall acc, is_nan acc = false -> Forall (fun x => is_nan x = false) l ->
  let r := fold_left max_step l acc in
  is_nan r = false /\ In r (acc :: l) /\ num_le acc r = true /\
  Forall (fun x => num_le x r = true) l.
Proof.
  induction l as [|x l IH]; intros acc Ha Hall; cbn [fold_left].
  - cbv zeta. split; [exact Ha|]. split; [now left|].
    split; [now apply num_le_refl|constructor].
  - inversion Hall as [|? ? Hx Hl]; subst.
    destruct (max_step_spec acc x Ha Hx) as (Hor & H1 & H2).
    assert (Hs : is_nan (max_step acc x) = false)
      by (destruct Hor as [-> | ->]; assumption).
    destruct (IH (max_step acc x) Hs Hl) as (Hr & Hin & Hle & Hrest).
    cbv zeta. split; [exact Hr|]. split; [|split].
    + destruct Hin as [E|Hin]; [|right; right; exact Hin].
      rewrite <- E. destruct Hor as [-> | ->]; [left|right; left]; reflexivity.
    + apply (num_le_trans acc (max_step acc x) _); auto.
    + constructor; [|exact Hrest].
      apply (num_le_trans x (max_step acc x) _); auto.
Qed.

Lemma Math_max_spec (l : list num) :
  l <> [] -> Forall (fun x => is_nan x = false) l ->
  is_nan (Math_max l) = false /\ In (Math_max l) l /\
  Forall (fun x => num_le x (Math_max l) = true) l.
Proof.
  intros Hne Hall. unfold Math_max.
  destruct (@fold_max_spec l (S754_infinity true) eq_refl Hall)
    as (Hr & Hin & _ & Hlb).
  cbv zeta in *. split; [exact Hr|]. split; [|exact Hlb].
  destruct Hin as [E|Hin]; [|exact Hin].
  destruct l as [|x l]; [congruence|].
  inversion Hlb as [|? ? Hx _]; subst. rewrite <- E in Hx.
  destruct x as [| [] | |]; try discriminate. rewrite <- E. now left.
Qed.

Lemma Math_max_unique (l : list num) (x : num) :
  Forall (fun y => is_nan y = false) l ->
  (exists y, In y l /\ num_eq y x = true) ->
  (forall p, In p l -> num_le p x = true) ->
  num_eq x (Math_max l) = true.
Proof.
  intros Hall (y & Hy & Hyx) Hub.
  assert (Hne : l <> []) by (intros ->; contradiction).
  destruct (@Math_max_spec l Hne Hall) as (Hn & Hin & Hmax).
  rewrite Forall_forall in Hmax, Hall.
  apply num_le_antisym; [|apply Hub, Hin].
  pose proof (Hall y Hy) as Hyn.
  assert (Hxn : is_nan x = false).
  { destruct x; try reflexivity. destruct y; discriminate. }
  rewrite (num_eq_le y x Hyn Hxn) in Hyx. apply andb_true_iff in Hyx as [_ Hxy].
  apply (num_le_trans x y (Math_max l)); auto.
Qed.

(* ------------------------------------------------------------------ *)
(** ** Calendar arithmetic *)

Lemma check_from_sound (n : nat) :
  forall z, check_from n z = true ->
  forall k, z <= k < z + Z.of_nat n -> civil_check k = true.
Proof.
  induction n as [|n IH]; intros z H k Hk.
  - simpl in Hk. lia.
  - cbn [check_from] in H. apply andb_true_iff in H as [H0 H1].
    destruct (Z.eq_dec k z) as [->|Hne]; [exact H0|].
    apply (IH (z + 1) H1). lia.
Qed.

Lemma civil_check_era (doe : Z) : 0 <= doe < 146097 -> civil_check doe = true.
Proof.
  intros H.
  apply (@check_from_sound (Z.to_nat 146097) 0).
  - vm_compute. reflexivity.
  - rewrite Z2Nat.id; lia.
Qed.

Lemma civil_roundtrip (t : Z) :
  days_from_civil (fst (fst (civil_from_days t))) (snd (fst (civil_from_days t))) 1
  + snd (civil_from_days t) - 1 = t.
Proof.
  unfold civil_from_days, days_from_civil. cbv zeta. cbn [fst snd].
  set (era := (t + 719468) / 146097).
  set (doe := t + 719468 - era * 146097).
  assert (Hdoe : 0 <= doe < 146097).
  { subst doe era. pose proof (Z.div_mod (t + 719468) 146097 ltac:(lia)).
    pose proof (Z.mod_pos_bound (t + 719468) 146097 ltac:(lia)). lia. }
  pose proof (civil_check_era Hdoe) as Hc.
  unfold civil_check in Hc. cbv zeta in Hc.
  set (yoe := (doe - doe / 1460 + doe / 36524 - doe / 146096) / 365) in *.
  set (doy := doe - (365 * yoe + yoe / 4 - yoe / 100)) in *.
  set (mp := (5 * doy + 2) / 153) in *.
  set (m := if mp <? 10 then mp + 3 else mp - 9) in *.
  repeat (apply andb_true_iff in Hc as [Hc ?]).
  assert (Hy : (if m <=? 2 then (if m <=? 2 then yoe + era * 400 + 1 else yoe + era * 400) - 1
                else (if m <=? 2 then yoe + era * 400 + 1 else yoe + era * 400))
               = yoe + era * 400).
  { destruct (m <=? 2); lia. }
  rewrite Hy.
  assert (He : (yoe + era * 400) / 400 = era).
  { rewrite Z.div_add by lia. rewrite Z.div_small by lia. lia. }
  rewrite He.
  replace (yoe + era * 400 - era * 400) with yoe by lia.
  lia.
Qed.

Lemma civil_fields (t : Z) :
  1 <= snd (fst (civil_from_days t)) <= 12 /\ 1 <= snd (civil_from_days t) <= 31.
Proof.
  unfold civil_from_days. cbv zeta. cbn [fst snd].
  set (era := (t + 719468) / 146097).
  set (doe := t + 719468 - era * 146097).
  assert (Hdoe : 0 <= doe < 146097).
  { subst doe era. pose proof (Z.div_mod (t + 719468) 146097 ltac:(lia)).
    pose proof (Z.mod_pos_bound (t + 719468) 146097 ltac:(lia)). lia. }
  pose proof (civil_check_era Hdoe) as Hc.
  unfold civil_check in Hc. cbv zeta in Hc.
  repeat (apply andb_true_iff in Hc as [Hc ?]).
  lia.
Qed.

(* ------------------------------------------------------------------ *)
(** ** Time values *)

Lemma day_time (t : Z) : Day t * msPerDay + TimeWithinDay t = t.
Proof.
  unfold Day, TimeWithinDay.
  pose proof (Z.div_mod t msPerDay ltac:(unfold msPerDay; lia)). lia.
Qed.

Lemma day_shift (t k : Z) :
  Day (t + k * msPerDay) = Day t + k /\
  TimeWithinDay (t + k * msPerDay) = TimeWithinDay t.
Proof.
  unfold Day, TimeWithinDay. split.
  - apply Z.div_add. unfold msPerDay. lia.
  - apply Z.mod_add. unfold msPerDay. lia.
Qed.

(** In a zone that keeps one offset, [setDate] by an offset from
    [getDate] moves the instant by that many days, across month and year
    ends. *)
Lemma setDate_fixed (tz : timezone) (c t k : Z) :
  keeps_offset tz c ->
  setDate tz t (getDate tz t + k) = TimeClip (t + k * msPerDay).
Proof.
  intros Hc. unfold setDate, getDate, LocalTime, UTC. rewrite !Hc.
  pose proof (civil_roundtrip (Day (t + c))) as H.
  pose proof (day_time (t + c)) as Hd.
  destruct (civil_from_days (Day (t + c))) as [[y m] d]. cbn [fst snd] in *.
  set (D := Day (t + c)) in *. set (W := TimeWithinDay (t + c)) in *.
  rewrite Hc. unfold msPerDay in *. f_equal. lia.
Qed.

Lemma TimeClip_in_range (t : Z) : Z.abs t <= maxTime -> TimeClip t = Some t.
Proof.
  intros H. unfold TimeClip. destruct (Z.leb_spec (Z.abs t) maxTime); [reflexivity|lia].
Qed.

Lemma flexPair_fixed (tz : timezone) (c t : Z) (i : nat) :
  keeps_offset tz c ->
  Z.abs t + Z.of_nat i * msPerDay <= maxTime ->
  flexPair tz t i = Some [isoDate (t - Z.of_nat i * msPerDay);
                          isoDate (t + Z.of_nat i * msPerDay)].
Proof.
  intros Hc Hr. unfold flexPair.
  replace (getDate tz t - Z.of_nat i) with (getDate tz t + - Z.of_nat i) by lia.
  rewrite !(setDate_fixed _ _ Hc).
  unfold msPerDay in *.
  rewrite !TimeClip_in_range by lia.
  do 3 f_equal. lia.
Qed.

Lemma flexDates_fixed (tz : timezone) (c t : Z) (f : nat) (steps : list nat) :
  keeps_offset tz c ->
  Z.abs t + Z.of_nat f * msPerDay <= maxTime ->
  (forall i, In i steps -> (i <= f)%nat) ->
  flexDates tz t steps
  = Some (flat_map (fun i => [isoDate (t - Z.of_nat i * msPerDay);
                              isoDate (t + Z.of_nat i * msPerDay)]) steps).
Proof.
  intros Hc Hr. induction steps as [|i steps IH]; intros Hle; [reflexivity|].
  cbn [flexDates flat_map].
  rewrite (@flexPair_fixed tz c t i Hc).
  - rewrite IH by (intros j Hj; apply Hle; now right). reflexivity.
  - specialize (Hle i (or_introl eq_refl)). unfold msPerDay in *. nia.
Qed.

Lemma flat_map_pair_length (A B : Type) (f : A -> list B) (l : list A) :
  (forall a, List.length (f a) = 2%nat) ->
  List.length (flat_map f l) = (2 * List.length l)%nat.
Proof.
  intros Hf. induction l as [|a l IH]; [reflexivity|].
  cbn [flat_map]. rewrite length_app, Hf, IH. cbn [List.length]. lia.
Qed.

(* ------------------------------------------------------------------ *)
(** ** Key rotation *)

Lemma nextKeys_nth (keys : list string) :
  keys <> [] ->
  forall n idx i, (i < n)%nat ->
  nth_error (nextKeys keys idx n) i =
  Some (nth_error keys ((idx + i) mod List.length keys)%nat).
Proof.
  intros Hk. induction n as [|n IH]; intros idx i Hi; [lia|].
  cbn [nextKeys]. unfold getNextSerpKey.
  destruct keys as [|k0 ks]; [congruence|].
  destruct i as [|i].
  - cbn [nth_error]. rewrite Nat.add_0_r. reflexivity.
  - cbn [nth_error]. rewrite IH by lia.
    replace (S idx + i)%nat with (idx + S i)%nat by lia. reflexivity.
Qed.

Lemma nextKeys_empty (n idx : nat) : nextKeys [] idx n = repeat None n.
Proof.
  revert idx. induction n as [|n IH]; intros idx; [reflexivity|].
  cbn [nextKeys getNextSerpKey repeat]. now rewrite IH.
Qed.

(** The keys read from the environment are truthy, so a key handed out
    by the rotation always passes the [if (!apiKey)] test. *)
Lemma serpApiKeys_of_env_truthy (k1 k2 : option string) :
  Forall (fun k => truthy_str k = true) (serpApiKeys_of_env k1 k2).
Proof.
  unfold serpApiKeys_of_env. cbn [flat_map]. rewrite app_nil_r.
  apply Forall_app. split.
  - destruct k1 as [s|]; [|constructor].
    destruct (truthy_str s) eqn:E; repeat constructor. exact E.
  - destruct k2 as [s|]; [|constructor].
    destruct (truthy_str s) eqn:E; repeat constructor. exact E.
Qed.

(** C7. Over [k >= 1] credentials the [n]-th call of [getNextSerpKey]
    (counting from 1, the index starting at 0) returns the credential at
    index [(n - 1) mod k]; over an empty configuration every call returns
    [null] and leaves the index alone. *)
Theorem C7_round_robin (keys : list string) (n : nat) :
  (keys <> [] -> (1 <= n)%nat ->
   exists key,
     nth_error keys ((n - 1) mod List.length keys)%nat = Some key /\
     nth_error (nextKeys keys 0 n) (n - 1) = Some (Some key)) /\
  (forall idx, getNextSerpKey [] idx = (None, idx)) /\
  (forall idx, nextKeys [] idx n = repeat None n).
Proof.
  split; [|split].
  - intros Hk Hn.
    assert (Hlt : ((n - 1) mod List.length keys < List.length keys)%nat).
    { apply Nat.mod_upper_bound. destruct keys; [congruence|discriminate]. }
    destruct (nth_error keys ((n - 1) mod List.length keys)%nat) as [key|] eqn:E.
    + exists key. split; [reflexivity|].
      rewrite nextKeys_nth by (assumption || lia). cbn [Nat.add]. now rewrite E.
    + apply nth_error_None in E. lia.
  - reflexivity.
  - intros idx. apply nextKeys_empty.
Qed.

Lemma C7_round_robin_witness :
  exists key,
    nth_error ["key0"; "key1"] ((3 - 1) mod 2)%nat = Some key /\
    nth_error (nextKeys ["key0"; "key1"] 0 3) (3 - 1) = Some (Some key).
Proof.
  apply (proj1 (C7_round_robin ["key0"; "key1"] 3)); [discriminate | lia].
Defined.

(* ------------------------------------------------------------------ *)
(** ** The date window *)

Lemma digit_val_char (n : Z) : digit_val (digit_char n) = Some (n mod 10).
Proof.
  unfold digit_val, digit_char.
  pose proof (Z.mod_pos_bound n 10 ltac:(lia)) as Hb.
  rewrite nat_ascii_embedding by lia.
  rewrite Nat2Z.inj_add, Z2Nat.id by lia.
  change (Z.of_nat 48) with 48.
  destruct (48 <=? 48 + n mod 10) eqn:E1; [|lia].
  destruct (48 + n mod 10 <=? 57) eqn:E2; [|lia].
  cbn [andb]. f_equal. lia.
Qed.


(** A date rendered by [isoDate] reads back as midnight of the same day,
    for the years that are rendered with four digits. *)
Lemma parseIsoDate_isoDate (t : Z) :
  0 <= year_of t <= 9999 ->
  parseIsoDate (isoDate t) = Some (Day t * msPerDay).
Proof.
  unfold year_of. intros Hy. unfold isoDate.
  pose proof (civil_roundtrip (Day t)) as Hr.
  pose proof (civil_fields (Day t)) as [Hm Hd].
  destruct (civil_from_days (Day t)) as [[y m] d]. cbn [fst snd] in *.
  destruct (0 <=? y) eqn:E1; [|lia]. destruct (y <=? 9999) eqn:E2; [|lia].
  cbn [andb].
  unfold parseIsoDate. cbn [digits String.append list_ascii_of_string].
  rewrite !digit_val_char.
  change (Ascii.eqb "-" "-") with true. cbn [andb].
  assert (Hyy : 1000 * ((y / 10 / 10 / 10) mod 10) + 100 * ((y / 10 / 10) mod 10)
                + 10 * ((y / 10) mod 10) + y mod 10 = y).
  { clear -Hy. Z.to_euclidean_division_equations. lia. }
  assert (Hmm : 10 * ((m / 10) mod 10) + m mod 10 = m).
  { pose proof (Z.div_mod m 10 ltac:(lia)).
    assert ((m / 10) mod 10 = m / 10).
    { apply Z.mod_small. split; [apply Z.div_pos; lia|].
      apply Z.div_lt_upper_bound; lia. }
    lia. }
  assert (Hdd : 10 * ((d / 10) mod 10) + d mod 10 = d).
  { pose proof (Z.div_mod d 10 ltac:(lia)).
    assert ((d / 10) mod 10 = d / 10).
    { apply Z.mod_small. split; [apply Z.div_pos; lia|].
      apply Z.div_lt_upper_bound; lia. }
    lia. }
  rewrite Hyy, Hmm, Hdd.
  destruct (1 <=? m) eqn:E3; [|lia]. destruct (m <=? 12) eqn:E4; [|lia].
  destruct (1 <=? d) eqn:E5; [|lia]. destruct (d <=? 31) eqn:E6; [|lia].
  cbn [andb]. do 2 f_equal. lia.
Qed.

(** The window in a zone that keeps one offset *)
Lemma datesToSearch_fixed (tz : timezone) (legacy : string -> option Z)
  (c : Z) (baseDateStr : string) (flexDays : nat) (t : Z) :
  keeps_offset tz c ->
  (0 < flexDays)%nat ->
  parseDate legacy baseDateStr = Some t ->
  Z.abs t + Z.of_nat flexDays * msPerDay <= maxTime ->
  datesToSearch tz legacy baseDateStr flexDays =
  Some (baseDateStr ::
        flat_map (fun i => [isoDate (t - Z.of_nat i * msPerDay);
                            isoDate (t + Z.of_nat i * msPerDay)])
                 (seq 1 flexDays)).
Proof.
  intros Hc Hf Hp Hr. unfold datesToSearch.
  destruct flexDays as [|f]; [lia|]. rewrite Hp.
  rewrite (@flexDates_fixed tz c t (S f) (seq 1 (S f)) Hc Hr); [reflexivity|].
  intros i Hi. apply in_seq in Hi. lia.
Qed.

(* ------------------------------------------------------------------ *)
(** ** The fetch orchestrator *)

Lemma fetched_dates_app (c1 c2 : list log_line) :
  fetched_dates (c1 ++ c2) = fetched_dates c1 ++ fetched_dates c2.
Proof. apply flat_map_app. Qed.

Lemma logged_errors_app (c1 c2 : list log_line) :
  logged_errors (c1 ++ c2) = logged_errors c1 ++ logged_errors c2.
Proof. apply flat_map_app. Qed.

(** What one candidate fare does to the world: nothing, or one row. *)
Lemma saveFlight_cases (o d dStr : string) (now : Z) (tok : string)
  (w : world) (f : candidate) :
  saveFlight o d dStr now tok w f = w \/
  exists r, saveFlight o d dStr now tok w f = log (LogSaved r) (insert_row r w) /\
            origin r = o /\ destination r = d /\ departure_date r = dStr /\
            scraped_at r = now /\
            c_price f = PriceNum (price r) /\ truthy_num (price r) = true /\
            (includes (airline r) "JetBlue" = true \/
             includes (airline r) "JSX" = true) /\
            airline r = candidate_airline f.
Proof.
  unfold saveFlight.
  destruct (c_price f) as [| |p] eqn:Ep; cbn [truthy_price]; auto.
  destruct (truthy_num p) eqn:Hp; auto.
  match goal with |- context [if ?c then _ else _] => destruct c eqn:Ei end; auto.
  right. eexists. split; [reflexivity|]. cbn.
  repeat split; auto. now apply orb_true_iff.
Qed.

(** The rows of the table after one candidate fare *)
Lemma saveFlight_db (o d dStr : string) (now : Z) (tok : string)
  (w : world) (f : candidate) :
  db (saveFlight o d dStr now tok w f) = db w ++ fare_rows o d dStr now tok f.
Proof.
  unfold fare_rows, saveFlight.
  destruct (truthy_price (c_price f)) as [p|]; [|cbn; now rewrite app_nil_r].
  match goal with |- context [if ?c then _ else _] => destruct c end;
    [reflexivity | cbn; now rewrite app_nil_r].
Qed.

Lemma saveFlights_db (o d dStr : string) (now : Z) (tok : string)
  (fs : list candidate) :
  forall w,
  db (fold_left (saveFlight o d dStr now tok) fs w)
  = db w ++ flat_map (fare_rows o d dStr now tok) fs.
Proof.
  induction fs as [|f fs IH]; intros w; cbn [fold_left flat_map].
  - now rewrite app_nil_r.
  - rewrite IH, saveFlight_db, app_assoc. reflexivity.
Qed.

Lemma saveFlights_inv (o d dStr : string) (now : Z) (tok : string)
  (fs : list candidate) :
  forall w,
  let w' := fold_left (saveFlight o d dStr now tok) fs w in
  (exists new, db w' = db w ++ new /\ Forall (fetched_row o d) new) /\
  serpKeyIndex w' = serpKeyIndex w /\ calls w' = calls w /\
  fetched_dates (console w') = fetched_dates (console w) /\
  logged_errors (console w') = logged_errors (console w).
Proof.
  induction fs as [|f fs IH]; intros w; cbn [fold_left].
  - split; [exists []; rewrite app_nil_r; auto|]. auto.
  - destruct (saveFlight_cases o d dStr now tok w f)
      as [E|(r & E & Ho & Hd & _ & _ & _ & Hp & Ha & _)]; rewrite E.
    + apply IH.
    + specialize (IH (log (LogSaved r) (insert_row r w))).
      cbv zeta in IH. destruct IH as ((new & Hdb & Hall) & Hk & Hc & Hf & Hl).
      cbn [log insert_row db serpKeyIndex calls console] in *.
      split; [|repeat split; auto].
      * exists (r :: new). rewrite Hdb, <- app_assoc. split; [reflexivity|].
        constructor; [repeat split; auto|auto].
      * rewrite Hf, fetched_dates_app. cbn. apply app_nil_r.
      * rewrite Hl, logged_errors_app. cbn. apply app_nil_r.
Qed.

Section FetchLoop.
Variable env : environment.
Variables o d apiKey : string.

Lemma fetchDates_rows (dates : list string) :
  forall w,
  let w' := fetchDates env o d apiKey dates w in
  (exists new, db w' = db w ++ new /\ Forall (fetched_row o d) new) /\
  serpKeyIndex w' = serpKeyIndex w.
Proof.
  induction dates as [|dStr rest IH]; intros w; cbn [fetchDates].
  - split; [exists []; rewrite app_nil_r; auto|reflexivity].
  - cbv zeta. cbn [log db serpKeyIndex console calls].
    destruct (upstream env (calls w) (request_for o d apiKey dStr)) as [data|msg].
    + match goal with |- context [fetchDates _ _ _ _ _ (fold_left ?f ?l ?w0)] =>
        pose proof (saveFlights_inv o d dStr (clock env (calls w))
                      (or_str (google_flights_url data) "") l w0) as Hs;
        specialize (IH (fold_left f l w0))
      end.
      cbv zeta in Hs, IH. cbn [db serpKeyIndex] in Hs.
      destruct Hs as ((n1 & E1 & F1) & K1 & _).
      destruct IH as ((n2 & E2 & F2) & K2).
      split; [|congruence].
      exists (n1 ++ n2). rewrite E2, E1, app_assoc. split; [reflexivity|].
      apply Forall_app; auto.
    + cbn [log db serpKeyIndex].
      split; [exists []; rewrite app_nil_r; auto|reflexivity].
Qed.

(** The table after the loop: the rows it held, then the rows of the
    answers, in the order of the requests, up to the first failure. *)
Lemma fetchDates_db (dates : list string) :
  forall w,
  db (fetchDates env o d apiKey dates w)
  = db w ++ window_rows env o d apiKey (calls w) dates.
Proof.
  induction dates as [|dStr rest IH]; intros w; cbn [fetchDates window_rows].
  - now rewrite app_nil_r.
  - cbv zeta. cbn [log db serpKeyIndex console calls].
    destruct (upstream env (calls w) (request_for o d apiKey dStr)) as [data|msg].
    + match goal with |- context [fetchDates _ _ _ _ _ (fold_left ?f ?l ?w0)] =>
        pose proof (saveFlights_inv o d dStr (clock env (calls w))
                      (or_str (google_flights_url data) "") l w0) as Hs;
        rewrite (IH (fold_left f l w0))
      end.
      cbv zeta in Hs. cbn [calls] in Hs. destruct Hs as (_ & _ & C1 & _).
      rewrite C1, saveFlights_db. cbn [db].
      unfold answer_rows. now rewrite app_assoc.
    + cbn [log db]. now rewrite app_nil_r.
Qed.

(** The rows of a window stop with the first request that fails. *)
Lemma window_rows_failure (dates : list string) :
  forall n k dk message,
  nth_error dates k = Some dk ->
  upstream env (n + k) (request_for o d apiKey dk) = Fails message ->
  window_rows env o d apiKey n dates
  = window_rows env o d apiKey n (firstn k dates).
Proof.
  induction dates as [|dStr rest IH]; intros n k dk message Hk Hfail.
  - destruct k; discriminate.
  - destruct k as [|k]; cbn [nth_error firstn window_rows] in *.
    + injection Hk as ->. rewrite Nat.add_0_r in Hfail. now rewrite Hfail.
    + destruct (upstream env n (request_for o d apiKey dStr)); [|reflexivity].
      f_equal. apply (IH (S n) k dk message Hk).
      replace (S n + k)%nat with (n + S k)%nat by lia. exact Hfail.
Qed.

(** A fare of a tracked carrier with a truthy price, answered for a date
    before any failure, has its row among the rows of the window. *)
Lemma window_rows_store (dates : list string) :
  forall n j dj data f,
  nth_error dates j = Some dj ->
  (forall i di, (i < j)%nat -> nth_error dates i = Some di ->
     exists a, upstream env (n + i) (request_for o d apiKey di) = Responds a) ->
  upstream env (n + j) (request_for o d apiKey dj) = Responds data ->
  In f (allFlights data) ->
  incl (fare_rows o d dj (clock env (n + j))
                  (or_str (google_flights_url data) "") f)
       (window_rows env o d apiKey n dates).
Proof.
  induction dates as [|dStr rest IH]; intros n j dj data f Hj Hok Hd Hf.
  - destruct j; discriminate.
  - destruct j as [|j]; cbn [nth_error window_rows] in *.
    + injection Hj as ->. rewrite Nat.add_0_r in *. rewrite Hd.
      intros r Hr. apply in_or_app. left. unfold answer_rows.
      apply in_flat_map. exists f. split; assumption.
    + destruct (Hok 0%nat dStr ltac:(lia) eq_refl) as [a Ha].
      rewrite Nat.add_0_r in Ha. rewrite Ha.
      intros r Hr. apply in_or_app. right.
      replace (n + S j)%nat with (S n + j)%nat in * by lia.
      apply (IH (S n) j dj data f Hj); auto.
      intros i di Hi Hn.
      replace (S n + i)%nat with (n + S i)%nat by lia.
      apply Hok; [lia|exact Hn].
Qed.

(** The loop stops at the first request that throws: the dates up to and
    including that one were requested, the later ones are not. *)
Lemma fetchDates_first_failure (dates : list string) :
  forall w k dk message,
  nth_error dates k = Some dk ->
  (forall j dj, (j < k)%nat -> nth_error dates j = Some dj ->
     exists data, upstream env (calls w + j) (request_for o d apiKey dj)
                  = Responds data) ->
  upstream env (calls w + k) (request_for o d apiKey dk) = Fails message ->
  let w' := fetchDates env o d apiKey dates w in
  fetched_dates (console w') = fetched_dates (console w) ++ firstn (S k) dates /\
  logged_errors (console w') = logged_errors (console w) ++ [message] /\
  calls w' = (calls w + S k)%nat.
Proof.
  induction dates as [|dStr rest IH]; intros w k dk message Hk Hok Hfail.
  - destruct k; discriminate.
  - cbn [fetchDates]. cbv zeta. cbn [log db serpKeyIndex console calls].
    destruct k as [|k].
    + cbn [nth_error] in Hk. injection Hk as ->.
      rewrite Nat.add_0_r in Hfail. rewrite Hfail.
      cbn [log console calls firstn].
      rewrite fetched_dates_app, logged_errors_app, fetched_dates_app,
              logged_errors_app.
      cbn. rewrite !app_nil_r. repeat split; auto; lia.
    + destruct (Hok 0%nat dStr ltac:(lia) eq_refl) as [data Hd].
      rewrite Nat.add_0_r in Hd. rewrite Hd.
      match goal with |- context [fetchDates _ _ _ _ _ (fold_left ?f ?l ?w0)] =>
        pose proof (saveFlights_inv o d dStr (clock env (calls w))
                      (or_str (google_flights_url data) "") l w0) as Hs;
        specialize (IH (fold_left f l w0) k dk message)
      end.
      cbv zeta in Hs. cbn [calls console] in Hs.
      destruct Hs as (_ & _ & C1 & F1 & L1).
      cbn [nth_error] in Hk.
      destruct IH as (F2 & L2 & C2); auto.
      * intros j dj Hj Hn. rewrite C1.
        replace (S (calls w) + j)%nat with (calls w + S j)%nat by lia.
        apply Hok; [lia|exact Hn].
      * rewrite C1. replace (S (calls w) + k)%nat with (calls w + S k)%nat by lia.
        exact Hfail.
      * rewrite F2, L2, C2, F1, L1, C1.
        rewrite fetched_dates_app, logged_errors_app. cbn.
        rewrite app_nil_r, <- app_assoc. repeat split; auto.
Qed.

(** When every request is answered, every date of the window is
    requested and no error is logged. *)
Lemma fetchDates_all_respond (dates : list string) :
  forall w,
  (forall j dj, nth_error dates j = Some dj ->
     exists data, upstream env (calls w + j) (request_for o d apiKey dj)
                  = Responds data) ->
  let w' := fetchDates env o d apiKey dates w in
  fetched_dates (console w') = fetched_dates (console w) ++ dates /\
  logged_errors (console w') = logged_errors (console w) /\
  calls w' = (calls w + List.length dates)%nat.
Proof.
  induction dates as [|dStr rest IH]; intros w Hok.
  - cbn. rewrite app_nil_r. repeat split; auto.
  - cbn [fetchDates]. cbv zeta. cbn [log db serpKeyIndex console calls].
    destruct (Hok 0%nat dStr eq_refl) as [data Hd].
    rewrite Nat.add_0_r in Hd. rewrite Hd.
    match goal with |- context [fetchDates _ _ _ _ _ (fold_left ?f ?l ?w0)] =>
      pose proof (saveFlights_inv o d dStr (clock env (calls w))
                    (or_str (google_flights_url data) "") l w0) as Hs;
      specialize (IH (fold_left f l w0))
    end.
    cbv zeta in Hs. cbn [calls console] in Hs.
    destruct Hs as (_ & _ & C1 & F1 & L1).
    destruct IH as (F2 & L2 & C2).
    + intros j dj Hn. rewrite C1.
      replace (S (calls w) + j)%nat with (calls w + S j)%nat by lia.
      apply Hok. exact Hn.
    + rewrite F2, L2, C2, F1, L1, C1.
      rewrite fetched_dates_app, logged_errors_app. cbn.
      rewrite app_nil_r, <- app_assoc. cbn. repeat split; auto; lia.
Qed.

(** A window of one date is requested whatever the upstream answers. *)
Lemma fetchDates_single (dStr : string) (w : world) :
  fetched_dates (console (fetchDates env o d apiKey [dStr] w)) =
  fetched_dates (console w) ++ [dStr].
Proof.
  destruct (upstream env (calls w) (request_for o d apiKey dStr)) as [data|msg] eqn:E.
  - apply (@fetchDates_all_respond [dStr] w).
    intros [|j] dj Hn.
    + injection Hn as <-. rewrite Nat.add_0_r. eauto.
    + destruct j; discriminate.
  - apply (@fetchDates_first_failure [dStr] w 0%nat dStr msg); auto.
    + intros j dj Hj. lia.
    + now rewrite Nat.add_0_r.
Qed.
End FetchLoop.

(* ------------------------------------------------------------------ *)
(** ** Substrings *)

Lemma prefix_app (p s : string) : prefix p s = true <-> exists t, s = p +++ t.
Proof.
  revert s. induction p as [|c p IH]; intros s.
  - destruct s; cbn; split; eauto.
  - destruct s as [|c' s]; cbn [prefix String.append].
    + split; [discriminate | intros [t Ht]; discriminate].
    + destruct (ascii_dec c c') as [->|Hne].
      * rewrite IH. split; intros [t Ht]; exists t; congruence.
      * split; [discriminate | intros [t Ht]; congruence].
Qed.

(** [includes] is substring containment. *)
Lemma includes_spec (s sub : string) :
  includes s sub = true <-> exists pre post, s = pre +++ sub +++ post.
Proof.
  induction s as [|c s IH]; cbn [includes].
  - rewrite orb_false_r, prefix_app. split.
    + intros [t Ht]. exists "", t. exact Ht.
    + intros (pre & post & H). destruct pre; [eauto | discriminate].
  - rewrite orb_true_iff, prefix_app, IH. split.
    + intros [[t Ht] | (pre & post & H)].
      * exists "", t. exact Ht.
      * exists (String c pre), post. cbn. now rewrite H.
    + intros (pre & post & H). destruct pre as [|c' pre].
      * left. eauto.
      * right. cbn in H. injection H as _ H. eauto.
Qed.

(* ------------------------------------------------------------------ *)
(** ** The date window of a fetch *)

(** C6. The window the code builds in a process whose zone is
    America/New_York, for the base date 2024-03-10 and one day of
    flexibility: [2024-03-10, 2024-03-09, 2024-03-10]. The base date is
    UTC midnight, 19:00 of 9 March in New York; [setDate(10)] gives 19:00
    of 10 March local time, which lies after the change to daylight time
    and is 23:00 UTC of 10 March. The day after the base date is never
    requested and the base date is requested twice. *)
Theorem C6_dst_window :
  datesToSearch new_york_2024 (fun _ => None) "2024-03-10" 1
  = Some ["2024-03-10"; "2024-03-09"; "2024-03-10"] /\
  fetched_dates
    (console (world_of (fetchRealFlightPrices env_new_york ["key0"]
                          "jfk" "mia" "2024-03-10" 1 empty_world)))
  = ["2024-03-10"; "2024-03-09"; "2024-03-10"] /\
  datesToSearch (fixed_zone 0) (fun _ => None) "2024-03-10" 1
  = Some ["2024-03-10"; "2024-03-09"; "2024-03-11"].
Proof. repeat split; vm_compute; reflexivity. Qed.

(* ------------------------------------------------------------------ *)
(** ** What a fetch writes *)

Lemma fetch_rows (env : environment) (keys : list string)
  (o d baseDateStr : string) (flexDays : nat) (w : world) :
  exists new,
    db (world_of (fetchRealFlightPrices env keys o d baseDateStr flexDays w))
    = db w ++ new /\
    Forall (fetched_row (toUpperCase o) (toUpperCase d)) new.
Proof.
  unfold fetchRealFlightPrices.
  destruct (getNextSerpKey keys (serpKeyIndex w)) as [[apiKey|] idx];
    [destruct (truthy_str apiKey);
     [destruct (datesToSearch (zone env) (legacyParse env) baseDateStr flexDays)
        as [dates|]|]|];
    cbn [world_of log db];
    try (exists []; rewrite app_nil_r; split; [reflexivity|constructor]).
  match goal with |- context [fetchDates ?e ?a ?b ?k ?ds ?w0] =>
    destruct (fetchDates_rows e a b k ds w0) as ((new & E & F) & _)
  end.
  exists new. split; [exact E|exact F].
Qed.

(** The table after a fetch that holds a key and has a window *)
Lemma fetch_db (env : environment) (keys : list string)
  (o d baseDateStr : string) (flexDays : nat) (w : world)
  (apiKey : string) (idx : nat) (dates : list string) :
  getNextSerpKey keys (serpKeyIndex w) = (Some apiKey, idx) ->
  truthy_str apiKey = true ->
  datesToSearch (zone env) (legacyParse env) baseDateStr flexDays = Some dates ->
  db (world_of (fetchRealFlightPrices env keys o d baseDateStr flexDays w))
  = db w ++ window_rows env (toUpperCase o) (toUpperCase d) apiKey (calls w) dates.
Proof.
  intros Hk Ht Hd. unfold fetchRealFlightPrices. rewrite Hk, Ht, Hd.
  cbn [world_of]. rewrite fetchDates_db. reflexivity.
Qed.

Lemma saveFlight_truthy (o d dStr : string) (now : Z) (tok : string)
  (w : world) (f : candidate) (p : real) :
  tracked f = true ->
  c_price f = PriceNum p -> truthy_num p = true ->
  exists r, db (saveFlight o d dStr now tok w f) = db w ++ [r] /\
            fare_rows o d dStr now tok f = [r] /\
            price r = p /\ airline r = candidate_airline f /\
            origin r = o /\ destination r = d /\ departure_date r = dStr /\
            scraped_at r = now.
Proof.
  intros Ha E Hp. unfold fare_rows, saveFlight. rewrite E. cbn [truthy_price].
  rewrite Hp. unfold tracked in Ha.
  rewrite Ha. eexists. cbn. split; [reflexivity|]. repeat split; reflexivity.
Qed.

Lemma saveFlight_falsy (o d dStr : string) (now : Z) (tok : string)
  (w : world) (f : candidate) :
  c_price f = PriceAbsent \/ c_price f = PriceNull \/
  (exists p, c_price f = PriceNum p /\ truthy_num p = false) ->
  saveFlight o d dStr now tok w f = w.
Proof.
  intros [E|[E|(p & E & Hp)]]; unfold saveFlight; rewrite E; try reflexivity.
  cbn [truthy_price]. rewrite Hp. reflexivity.
Qed.

(** C8. A candidate fare whose airline contains neither ["JetBlue"] nor
    ["JSX"] leaves the world as it is, whatever its price and other
    fields; and every row a fetch adds to the table has an airline that
    contains one of the two. *)
Theorem C8_only_tracked_carriers (env : environment) (keys : list string)
  (o d baseDateStr : string) (flexDays : nat) (w : world) :
  (forall dStr now tok w0 f,
     includes (candidate_airline f) "JetBlue" = false ->
     includes (candidate_airline f) "JSX" = false ->
     saveFlight o d dStr now tok w0 f = w0) /\
  (exists new,
     db (world_of (fetchRealFlightPrices env keys o d baseDateStr flexDays w))
     = db w ++ new /\
     Forall (fun r => includes (airline r) "JetBlue" = true \/
                      includes (airline r) "JSX" = true) new).
Proof.
  split.
  - intros dStr now tok w0 f H1 H2. unfold saveFlight.
    rewrite H1, H2. cbn [orb]. now destruct (truthy_price (c_price f)).
  - destruct (fetch_rows env keys o d baseDateStr flexDays w) as (new & E & F).
    exists new. split; [exact E|].
    eapply Forall_impl; [|exact F]. intros r (_ & _ & _ & H). exact H.
Qed.

Lemma C8_only_tracked_carriers_witness :
  saveFlight "JFK" "MIA" "2024-04-12" 0 "" empty_world
             (sample_fare "Delta" (PriceNum (usd 199))) = empty_world.
Proof.
  apply (proj1 (C8_only_tracked_carriers env_second_fails ["key0"]
                  "JFK" "MIA" "2024-04-12" 0 empty_world));
    vm_compute; reflexivity.
Defined.

(** C10. What a fetch stores of the fares it is answered. The table after
    the fetch is the table before it followed by the rows of the answers,
    fare by fare. A fare of a tracked carrier answered for a date of the
    window (no earlier request having failed) contributes no row, and
    leaves the world as it is, when its [price] is absent, [null] or zero;
    when its price is any other number, a negative one included, it
    contributes one row, which is in the table after the fetch with that
    price, the fare's airline, the route in upper case and the date of the
    request. *)
Theorem C10_truthy_price_stored (env : environment) (keys : list string)
  (o d baseDateStr : string) (flexDays : nat) (w : world)
  (apiKey : string) (idx : nat) (dates : list string)
  (j : nat) (dj : string) (data : response_data) (f : candidate) :
  let O := toUpperCase o in
  let D := toUpperCase d in
  let now := clock env (calls w + j) in
  let tok := or_str (google_flights_url data) "" in
  let w' := world_of (fetchRealFlightPrices env keys o d baseDateStr flexDays w) in
  getNextSerpKey keys (serpKeyIndex w) = (Some apiKey, idx) ->
  truthy_str apiKey = true ->
  datesToSearch (zone env) (legacyParse env) baseDateStr flexDays = Some dates ->
  nth_error dates j = Some dj ->
  (forall i di, (i < j)%nat -> nth_error dates i = Some di ->
     exists a, upstream env (calls w + i) (request_for O D apiKey di)
               = Responds a) ->
  upstream env (calls w + j) (request_for O D apiKey dj) = Responds data ->
  In f (allFlights data) ->
  tracked f = true ->
  db w' = db w ++ window_rows env O D apiKey (calls w) dates /\
  (c_price f = PriceAbsent \/ c_price f = PriceNull \/
   (exists p, c_price f = PriceNum p /\ truthy_num p = false) ->
   fare_rows O D dj now tok f = [] /\
   forall w0, saveFlight O D dj now tok w0 f = w0) /\
  (forall p, c_price f = PriceNum p -> truthy_num p = true ->
   exists r, fare_rows O D dj now tok f = [r] /\ In r (db w') /\
             price r = p /\ airline r = candidate_airline f /\
             origin r = O /\ destination r = D /\ departure_date r = dj /\
             scraped_at r = now).
Proof.
  intros O D now tok w' Hk Ht Hd Hj Hok Hdata Hf Htr.
  assert (Hdb : db w' = db w ++ window_rows env O D apiKey (calls w) dates)
    by (apply (fetch_db env keys o d baseDateStr flexDays w Hk Ht Hd)).
  split; [exact Hdb|]. split.
  - intros Hp. split.
    + unfold fare_rows. now rewrite saveFlight_falsy.
    + intros w0. now apply saveFlight_falsy.
  - intros p Ep Hp.
    destruct (saveFlight_truthy O D dj now tok w f Htr Ep Hp)
      as (r & _ & H0 & H1 & H2 & H3 & H4 & H5 & H6).
    exists r. split; [exact H0|]. split; [|auto 10].
    rewrite Hdb. apply in_or_app. right.
    apply (@window_rows_store env O D apiKey dates (calls w) j dj data f Hj Hok Hdata Hf).
    fold now tok. rewrite H0. now left.
Qed.

Lemma C10_truthy_price_stored_witness :
  map (fun r => num_of (price r))
      (db (world_of (fetchRealFlightPrices env_odd_fares ["key0"] "jfk" "mia"
                       "2024-04-12" 0 empty_world)))
  = [num_of (usd (-5))] /\
  fare_rows "JFK" "MIA" "2024-04-12" 1712900000000 ""
            (sample_fare "JetBlue" (PriceNum (usd 0))) = [] /\
  exists r, In r (db (world_of (fetchRealFlightPrices env_odd_fares ["key0"]
                                  "jfk" "mia" "2024-04-12" 0 empty_world))) /\
            price r = usd (-5) /\ airline r = "JetBlue" /\
            origin r = "JFK" /\ destination r = "MIA" /\
            departure_date r = "2024-04-12".
Proof.
  split; [vm_compute; reflexivity|].
  split.
  - apply (proj1 (proj2
      (@C10_truthy_price_stored env_odd_fares ["key0"] "jfk" "mia" "2024-04-12"
         0%nat empty_world "key0" 1%nat ["2024-04-12"] 0%nat "2024-04-12"
         odd_fares (sample_fare "JetBlue" (PriceNum (usd 0)))
         eq_refl eq_refl eq_refl eq_refl
         (fun i di (H : (i < 0)%nat) _ => match Nat.nlt_0_r i H with end)
         eq_refl (or_intror (or_introl eq_refl)) eq_refl))).
    right. right. exists (usd 0). split; reflexivity.
  - destruct (proj2 (proj2
      (@C10_truthy_price_stored env_odd_fares ["key0"] "jfk" "mia" "2024-04-12"
         0%nat empty_world "key0" 1%nat ["2024-04-12"] 0%nat "2024-04-12"
         odd_fares (sample_fare "JetBlue" (PriceNum (usd (-5))))
         eq_refl eq_refl eq_refl eq_refl
         (fun i di (H : (i < 0)%nat) _ => match Nat.nlt_0_r i H with end)
         eq_refl (or_intror (or_intror (or_introl eq_refl))) eq_refl))
      (usd (-5)) eq_refl eq_refl)
      as (r & _ & H1 & H2 & H3 & H4 & H5 & H6 & _).
    exists r. auto 10.
Defined.

(* ------------------------------------------------------------------ *)
(** ** No validation on the write path *)

(** The claim C5 fails at a negative price: the fare is written. *)
Lemma C5_negative_price_persisted :
  c_price (sample_fare "JetBlue" (PriceNum (usd (-5)))) = PriceNum (usd (-5)) /\
  num_le (usd (-5)) zero = true /\
  db (saveFlight "JFK" "MIA" "2024-04-12" 0 "" empty_world
                 (sample_fare "JetBlue" (PriceNum (usd (-5)))))
  <> db empty_world.
Proof.
  split; [reflexivity|]. split; [reflexivity|]. vm_compute. discriminate.
Qed.

(** C5, amended. The write path skips a fare whose price is missing,
    [null] or [0], or whose airline is empty: the world stays as it is, so
    nothing is stored and no error is raised or logged. A fare of a tracked
    carrier with a negative price is written, and so is one for an empty
    origin or destination. *)
Theorem C5_skip_without_error (o d dStr : string) (now : Z) (tok : string)
  (w : world) (f : candidate) :
  (c_price f = PriceAbsent \/ c_price f = PriceNull \/
   (exists p, c_price f = PriceNum p /\ truthy_num p = false) \/
   candidate_airline f = "" ->
   saveFlight o d dStr now tok w f = w) /\
  (includes (candidate_airline f) "JetBlue" || includes (candidate_airline f) "JSX"
   = true ->
   forall p, c_price f = PriceNum p -> truthy_num p = true ->
   exists r, db (saveFlight o d dStr now tok w f) = db w ++ [r] /\
             price r = p /\ origin r = o /\ destination r = d).
Proof.
  split.
  - intros [E|[E|[E|E]]]; [apply saveFlight_falsy; auto ..|].
    unfold saveFlight. rewrite E. cbn. now destruct (truthy_price (c_price f)).
  - intros Ha p E Hp.
    destruct (saveFlight_truthy o d dStr now tok w f Ha E Hp)
      as (r & H1 & _ & H2 & _ & H3 & H4 & _).
    exists r. auto.
Qed.

Lemma C5_skip_without_error_witness :
  saveFlight "JFK" "MIA" "2024-04-12" 0 "" empty_world
             (sample_fare "" (PriceNum (usd 199))) = empty_world /\
  exists r, db (saveFlight "" "" "2024-04-12" 0 "" empty_world
                           (sample_fare "JetBlue" (PriceNum (usd (-5)))))
            = db empty_world ++ [r] /\
            price r = usd (-5) /\ origin r = "" /\ destination r = "".
Proof.
  split.
  - apply (proj1 (C5_skip_without_error "JFK" "MIA" "2024-04-12" 0 ""
                    empty_world (sample_fare "" (PriceNum (usd 199))))).
    right. right. right. reflexivity.
  - apply (proj2 (C5_skip_without_error "" "" "2024-04-12" 0 ""
                    empty_world (sample_fare "JetBlue" (PriceNum (usd (-5)))))
                 eq_refl (usd (-5)) eq_refl).
    reflexivity.
Defined.

(* ------------------------------------------------------------------ *)
(** ** A failing request ends the window *)

(** The claim C3 fails when the second of three dates fails: the third
    date is never requested. *)
Lemma C3_later_dates_skipped :
  datesToSearch (zone env_second_fails) (legacyParse env_second_fails)
                "2024-04-12" 1
  = Some ["2024-04-12"; "2024-04-11"; "2024-04-13"] /\
  upstream env_second_fails 1 (request_for "JFK" "MIA" "key0" "2024-04-11")
  = Fails "Request failed with status code 429" /\
  ~ In "2024-04-13"
       (fetched_dates
          (console (world_of (fetchRealFlightPrices env_second_fails ["key0"]
                                "jfk" "mia" "2024-04-12" 1 empty_world)))).
Proof.
  split; [vm_compute; reflexivity|]. split; [reflexivity|].
  vm_compute. intros [H|[H|[]]]; discriminate.
Qed.

(** C3, amended. When the request for the date at position [k] of the
    window is the first to fail, the error is caught and logged, exactly
    the dates up to and including that one have been requested (the later
    ones are not), and the table holds what it held before the fetch
    followed by the rows of the answers for the [k] dates before the
    failing one: every fare of a tracked carrier with a truthy price that
    was answered for one of them has its row there. The fetch returns
    normally and the search endpoint answers with its success message. *)
Theorem C3_failure_ends_window (env : environment) (keys : list string)
  (body : search_body) (w : world)
  (apiKey : string) (idx : nat) (dates : list string)
  (k : nat) (dk message : string) :
  let o := dflt (b_origin body) "JFK" in
  let d := dflt (b_destination body) "MIA" in
  let baseDateStr := dflt (b_date body) "2024-04-12" in
  getNextSerpKey keys (serpKeyIndex w) = (Some apiKey, idx) ->
  truthy_str apiKey = true ->
  datesToSearch (zone env) (legacyParse env) baseDateStr (b_flexDays body)
  = Some dates ->
  nth_error dates k = Some dk ->
  (forall j dj, (j < k)%nat -> nth_error dates j = Some dj ->
     exists data,
       upstream env (calls w + j)
                (request_for (toUpperCase o) (toUpperCase d) apiKey dj)
       = Responds data) ->
  upstream env (calls w + k)
           (request_for (toUpperCase o) (toUpperCase d) apiKey dk)
  = Fails message ->
  exists w',
    fetchRealFlightPrices env keys o d baseDateStr (b_flexDays body) w
    = Returned w' /\
    fetched_dates (console w') = fetched_dates (console w) ++ firstn (S k) dates /\
    logged_errors (console w') = logged_errors (console w) ++ [message] /\
    db w' = db w ++ window_rows env (toUpperCase o) (toUpperCase d) apiKey
                                (calls w) (firstn k dates) /\
    (forall j dj data f p,
       (j < k)%nat -> nth_error dates j = Some dj ->
       upstream env (calls w + j)
                (request_for (toUpperCase o) (toUpperCase d) apiKey dj)
       = Responds data ->
       In f (allFlights data) -> tracked f = true ->
       c_price f = PriceNum p -> truthy_num p = true ->
       exists r, In r (db w') /\ price r = p /\
                 airline r = candidate_airline f /\
                 origin r = toUpperCase o /\ destination r = toUpperCase d /\
                 departure_date r = dj /\
                 scraped_at r = clock env (calls w + j)) /\
    (b_returnDate body = None ->
     searchEndpoint env keys body w
     = (Json200 "Live search completed and prices stored.", w')).
Proof.
  intros o d baseDateStr Hkey Htr Hdates Hk Hok Hfail.
  pose proof (fetch_db env keys o d baseDateStr (b_flexDays body) w Hkey Htr Hdates)
    as Hdb.
  unfold fetchRealFlightPrices in *. rewrite Hkey, Htr, Hdates in *.
  cbn [world_of] in Hdb.
  eexists. split; [reflexivity|].
  match goal with |- context [fetchDates ?e ?a ?b ?c ?ds ?w0] =>
    destruct (@fetchDates_first_failure e a b c ds w0 k dk message Hk Hok Hfail)
      as (F & L & _)
  end.
  cbn [console db] in F, L.
  split; [exact F|]. split; [exact L|]. split; [|split].
  - rewrite Hdb. f_equal.
    apply (@window_rows_failure env (toUpperCase o) (toUpperCase d) apiKey dates
             (calls w) k dk message Hk Hfail).
  - intros j dj data f p Hj Hn Hd Hf Ht Ep Hp.
    destruct (saveFlight_truthy (toUpperCase o) (toUpperCase d) dj
                (clock env (calls w + j)) (or_str (google_flights_url data) "")
                w f Ht Ep Hp)
      as (r & _ & H0 & H1 & H2 & H3 & H4 & H5 & H6).
    exists r. split; [|auto 10].
    rewrite Hdb. apply in_or_app. right.
    apply (@window_rows_store env (toUpperCase o) (toUpperCase d) apiKey dates
             (calls w) j dj data f Hn); auto.
    + intros i di Hi Hni. apply Hok; [lia|exact Hni].
    + rewrite H0. now left.
  - intros Hr. unfold searchEndpoint.
    destruct keys as [|k0 ks]; [discriminate|].
    fold o d baseDateStr. unfold fetchRealFlightPrices.
    rewrite Hkey, Htr, Hdates, Hr. reflexivity.
Qed.

Lemma C3_failure_ends_window_witness :
  exists w',
    fetchRealFlightPrices env_fares_then_failure ["key0"] "jfk" "mia"
                          "2024-04-12" 1 empty_world = Returned w' /\
    fetched_dates (console w') = ["2024-04-12"; "2024-04-11"] /\
    logged_errors (console w') = ["Request failed with status code 429"] /\
    map airline (db w') = ["JetBlue"] /\
    (exists r, In r (db w') /\ price r = usd 199 /\
               departure_date r = "2024-04-12") /\
    searchEndpoint env_fares_then_failure ["key0"] sample_body empty_world
    = (Json200 "Live search completed and prices stored.", w').
Proof.
  destruct (@C3_failure_ends_window env_fares_then_failure ["key0"] sample_body
              empty_world "key0" 1%nat
              ["2024-04-12"; "2024-04-11"; "2024-04-13"]
              1%nat "2024-04-11" "Request failed with status code 429")
    as (w' & H1 & H2 & H3 & H4 & H5 & H6).
  - reflexivity.
  - reflexivity.
  - vm_compute. reflexivity.
  - reflexivity.
  - intros j dj Hj Hn. exists two_fares.
    destruct j as [|j]; [reflexivity|lia].
  - reflexivity.
  - exists w'. split; [exact H1|]. split; [exact H2|]. split; [exact H3|].
    split; [rewrite H4; vm_compute; reflexivity|]. split.
    + destruct (H5 0%nat "2024-04-12" two_fares
                  (sample_fare "JetBlue" (PriceNum (usd 199))) (usd 199))
        as (r & R1 & R2 & _ & _ & _ & R3 & _);
        [lia | reflexivity | reflexivity | now left | reflexivity
        | reflexivity | reflexivity |].
      exists r. auto.
    + apply H6. reflexivity.
Defined.

(* ------------------------------------------------------------------ *)
(** ** Sorting *)

Section Sorting.
Variable A : Type.
Variable le : A -> A -> bool.

Lemma insert_by_perm (x : A) (l : list A) :
  Permutation (insert_by le x l) (x :: l).
Proof.
  induction l as [|y l IH]; cbn [insert_by]; [reflexivity|].
  destruct (le x y); [reflexivity|].
  rewrite IH. apply perm_swap.
Qed.

Lemma sort_by_perm (l : list A) : Permutation (sort_by le l) l.
Proof.
  induction l as [|x l IH]; [reflexivity|].
  unfold sort_by in *. cbn [fold_right].
  rewrite insert_by_perm. now constructor.
Qed.

Lemma sort_by_In (l : list A) (x : A) : In x (sort_by le l) <-> In x l.
Proof.
  split; apply Permutation_in; [|symmetry]; apply sort_by_perm.
Qed.

Hypothesis le_total : forall a b, le a b = false -> le b a = true.
Hypothesis le_trans : forall a b c, le a b = true -> le b c = true -> le a c = true.

Lemma insert_by_sorted (x : A) (l : list A) :
  StronglySorted (fun a b => le a b = true) l ->
  StronglySorted (fun a b => le a b = true) (insert_by le x l).
Proof.
  induction 1 as [|y l Hs IH Hall]; cbn [insert_by].
  - repeat constructor.
  - destruct (le x y) eqn:E.
    + constructor; [constructor; assumption|].
      constructor; [exact E|].
      eapply Forall_impl; [|exact Hall]. intros z Hz. eauto.
    + constructor; [exact IH|].
      eapply Permutation_Forall; [symmetry; apply insert_by_perm|].
      constructor; auto.
Qed.

Lemma sort_by_sorted (l : list A) :
  StronglySorted (fun a b => le a b = true) (sort_by le l).
Proof.
  induction l as [|x l IH]; [constructor|].
  unfold sort_by in *. cbn [fold_right]. now apply insert_by_sorted.
Qed.
End Sorting.

(* ------------------------------------------------------------------ *)
(** ** The history query *)

Lemma upper_ascii_idem (c : ascii) : upper_ascii (upper_ascii c) = upper_ascii c.
Proof.
  destruct c as [[] [] [] [] [] [] [] []]; vm_compute; reflexivity.
Qed.

Lemma toUpperCase_idem (s : string) : toUpperCase (toUpperCase s) = toUpperCase s.
Proof.
  induction s as [|c s IH]; [reflexivity|].
  cbn [toUpperCase]. now rewrite upper_ascii_idem, IH.
Qed.

Lemma route_matches_iff (o d : string) (r : flight_row) :
  route_matches o d r = true <->
  toUpperCase (origin r) = toUpperCase o /\
  toUpperCase (destination r) = toUpperCase d.
Proof.
  unfold route_matches. now rewrite andb_true_iff, !String.eqb_eq.
Qed.

Lemma StronglySorted_weaken (A : Type) (R S : A -> A -> Prop) (l : list A) :
  (forall a b, R a b -> S a b) -> StronglySorted R l -> StronglySorted S l.
Proof.
  intros HRS. induction 1 as [|x l Hs IH Hall]; constructor; auto.
  eapply Forall_impl; [|exact Hall]. auto.
Qed.

Lemma queryHistory_sorted (qo qd : option string) (table : list flight_row) :
  StronglySorted (fun a b => scraped_at a <= scraped_at b)
                 (queryHistory qo qd table).
Proof.
  unfold queryHistory.
  eapply StronglySorted_weaken;
    [|apply (@sort_by_sorted _ (fun a b => scraped_at a <=? scraped_at b))].
  - intros a b H. apply Z.leb_le. exact H.
  - intros a b H. apply Z.leb_gt in H. apply Z.leb_le. lia.
  - intros a b c H1 H2. apply Z.leb_le in H1, H2. apply Z.leb_le. lia.
Qed.

Lemma In_firstn (A : Type) (n : nat) (l : list A) (x : A) :
  In x (firstn n l) -> In x l.
Proof.
  intros H. rewrite <- (firstn_skipn n l). apply in_or_app. now left.
Qed.

(** The window of the insight query: at most 100 rows of the table, all on
    the route when both airports are given. *)
Lemma queryRecent_window (qo qd : option string) (table : list flight_row) :
  (List.length (queryRecent qo qd table) <= 100)%nat /\
  (forall r, In r (queryRecent qo qd table) -> In r table) /\
  (forall o d r, qo = Some o -> qd = Some d ->
     truthy_str o = true -> truthy_str d = true ->
     In r (queryRecent qo qd table) -> route_matches o d r = true).
Proof.
  unfold queryRecent. split; [apply firstn_le_length|]. split.
  - intros r Hr. apply In_firstn, sort_by_In in Hr.
    unfold select_rows in Hr.
    destruct qo as [o|], qd as [d|]; auto.
    destruct (truthy_str o && truthy_str d); auto.
    now apply filter_In in Hr.
  - intros o d r -> -> Ho Hd Hr. apply In_firstn, sort_by_In in Hr.
    unfold select_rows in Hr. rewrite Ho, Hd in Hr. cbn [andb] in Hr.
    now apply filter_In in Hr.
Qed.

(** A row of the route is in the answer to a query for that route, in
    whatever letter case the query spells it. *)
Lemma queryHistory_contains (qo qd : string) (table : list flight_row)
  (r : flight_row) :
  In r table ->
  toUpperCase (origin r) = toUpperCase qo ->
  toUpperCase (destination r) = toUpperCase qd ->
  In r (queryHistory (Some qo) (Some qd) table).
Proof.
  intros Hin Ho Hd. unfold queryHistory. apply sort_by_In.
  unfold select_rows. destruct (truthy_str qo && truthy_str qd); [|exact Hin].
  apply filter_In. split; [exact Hin|]. now apply route_matches_iff.
Qed.

Lemma saveFlights_keep (o d dStr : string) (now : Z) (tok : string)
  (fs : list candidate) (w : world) (r : flight_row) :
  In r (db w) -> In r (db (fold_left (saveFlight o d dStr now tok) fs w)).
Proof.
  intros Hin.
  destruct (saveFlights_inv o d dStr now tok fs w) as ((new & E & _) & _).
  rewrite E. apply in_or_app. now left.
Qed.

(** Every valid fare of an answer ends up in the table. *)
Lemma saveFlights_store (o d dStr : string) (now : Z) (tok : string)
  (fs : list candidate) :
  forall (w : world) (f : candidate) (p : real),
  In f fs ->
  includes (candidate_airline f) "JetBlue" || includes (candidate_airline f) "JSX"
  = true ->
  c_price f = PriceNum p -> truthy_num p = true ->
  exists r, In r (db (fold_left (saveFlight o d dStr now tok) fs w)) /\
            price r = p /\ airline r = candidate_airline f /\
            origin r = o /\ destination r = d /\ departure_date r = dStr /\
            scraped_at r = now.
Proof.
  induction fs as [|g fs IH]; intros w f p Hin Ha E Hp; [contradiction|].
  cbn [fold_left]. destruct Hin as [->|Hin].
  - destruct (saveFlight_truthy o d dStr now tok w f Ha E Hp)
      as (r & Hdb & _ & Hr).
    exists r. split; [|exact Hr].
    apply saveFlights_keep. rewrite Hdb. apply in_or_app. right. now left.
  - eapply IH; eassumption.
Qed.

(** C9. A valid fare (tracked carrier, truthy price) answered by the
    upstream source is written with origin and destination in upper case,
    and the history query for that route, spelt in any letter case,
    returns it. Every answer of the history query is in ascending
    [scraped_at] order; with both airports given it holds exactly the rows
    whose two airports equal the given ones up to letter case; without a
    filter it holds the whole table. *)
Theorem C9_record_then_query (env : environment) (keys : list string)
  (o d baseDateStr : string) (w : world) :
  (forall apiKey idx data f p,
     getNextSerpKey keys (serpKeyIndex w) = (Some apiKey, idx) ->
     truthy_str apiKey = true ->
     upstream env (calls w)
              (request_for (toUpperCase o) (toUpperCase d) apiKey baseDateStr)
     = Responds data ->
     In f (or_list (best_flights data) ++ or_list (other_flights data)) ->
     includes (candidate_airline f) "JetBlue" || includes (candidate_airline f) "JSX"
     = true ->
     c_price f = PriceNum p -> truthy_num p = true ->
     let table := db (world_of (fetchRealFlightPrices env keys o d baseDateStr 0 w)) in
     exists r,
       In r table /\
       airline r = candidate_airline f /\ price r = p /\
       departure_date r = baseDateStr /\
       origin r = toUpperCase o /\ destination r = toUpperCase d /\
       forall qo qd,
         toUpperCase qo = toUpperCase o -> toUpperCase qd = toUpperCase d ->
         In r (queryHistory (Some qo) (Some qd) table)) /\
  (forall qo qd table,
     StronglySorted (fun a b => scraped_at a <= scraped_at b)
                    (queryHistory qo qd table)) /\
  (forall qo qd table r,
     truthy_str qo = true -> truthy_str qd = true ->
     (In r (queryHistory (Some qo) (Some qd) table) <->
      In r table /\
      toUpperCase (origin r) = toUpperCase qo /\
      toUpperCase (destination r) = toUpperCase qd)) /\
  (forall table, Permutation (queryHistory None None table) table).
Proof.
  split; [|split; [|split]].
  - intros apiKey idx data f p Hkey Htr Hup Hin Ha Hp Hp0 table.
    subst table. unfold fetchRealFlightPrices. rewrite Hkey, Htr.
    cbn [datesToSearch world_of fetchDates]. cbv zeta.
    cbn [log db serpKeyIndex console calls]. rewrite Hup.
    match goal with |- context [fold_left ?g ?l ?w0] =>
      destruct (@saveFlights_store (toUpperCase o) (toUpperCase d) baseDateStr
                  (clock env (calls w)) (or_str (google_flights_url data) "")
                  l w0 f p Hin Ha Hp Hp0)
        as (r & Hr & H1 & H2 & H3 & H4 & H5 & _)
    end.
    exists r. repeat split; auto.
    intros qo qd Ho Hd. apply queryHistory_contains; auto.
    + rewrite H3, toUpperCase_idem. auto.
    + rewrite H4, toUpperCase_idem. auto.
  - apply queryHistory_sorted.
  - intros qo qd table r Ho Hd. unfold queryHistory, select_rows.
    rewrite Ho, Hd. cbn [andb].
    rewrite sort_by_In, filter_In, route_matches_iff. reflexivity.
  - intros table. apply sort_by_perm.
Qed.

Lemma C9_record_then_query_witness :
  exists r,
    In r (db (world_of (fetchRealFlightPrices env_two_fares ["key0"]
                          "jfk" "Mia" "2024-04-12" 0 empty_world))) /\
    airline r = "JetBlue" /\ price r = usd 199 /\
    departure_date r = "2024-04-12" /\
    origin r = "JFK" /\ destination r = "MIA" /\
    In r (queryHistory (Some "Jfk") (Some "mIA")
            (db (world_of (fetchRealFlightPrices env_two_fares ["key0"]
                             "jfk" "Mia" "2024-04-12" 0 empty_world)))).
Proof.
  destruct (proj1 (C9_record_then_query env_two_fares ["key0"]
                     "jfk" "Mia" "2024-04-12" empty_world)
                  "key0" 1%nat two_fares
                  (sample_fare "JetBlue" (PriceNum (usd 199))) (usd 199))
    as (r & H1 & H2 & H3 & H4 & H5 & H6 & H7).
  - reflexivity.
  - reflexivity.
  - reflexivity.
  - left. reflexivity.
  - reflexivity.
  - reflexivity.
  - reflexivity.
  - exists r. repeat split; auto.
Defined.


(* ------------------------------------------------------------------ *)
(** ** Objects as maps *)

Section Objects.
Variable V : Type.
Implicit Types (m : list (string * V)) (k : string) (v : V).

Lemma obj_get_set_eq m k v : obj_get (obj_set m k v) k = Some v.
Proof.
  induction m as [|[k' v'] m IH]; cbn [obj_set obj_get].
  - now rewrite String.eqb_refl.
  - destruct (String.eqb k' k) eqn:E; cbn [obj_get].
    + now rewrite String.eqb_refl.
    + now rewrite E.
Qed.

Lemma obj_get_set_neq m k k0 v : k <> k0 -> obj_get (obj_set m k v) k0 = obj_get m k0.
Proof.
  intros Hne. induction m as [|[k' v'] m IH]; cbn [obj_set obj_get].
  - apply String.eqb_neq in Hne. now rewrite Hne.
  - destruct (String.eqb_spec k' k) as [->|Hk]; cbn [obj_get].
    + apply String.eqb_neq in Hne. now rewrite Hne.
    + now rewrite IH.
Qed.

Lemma obj_get_None m k : obj_get m k = None <-> ~ In k (map fst m).
Proof.
  induction m as [|[k' v'] m IH]; cbn [obj_get map fst In].
  - tauto.
  - destruct (String.eqb_spec k' k) as [->|Hk].
    + split; [discriminate|tauto].
    + rewrite IH. tauto.
Qed.

Lemma obj_get_In m k v : obj_get m k = Some v -> In (k, v) m.
Proof.
  induction m as [|[k' v'] m IH]; cbn [obj_get]; [discriminate|].
  destruct (String.eqb_spec k' k) as [->|Hk].
  - intros [= ->]. now left.
  - intros H. right. auto.
Qed.

Lemma obj_In_get m k v : NoDup (map fst m) -> In (k, v) m -> obj_get m k = Some v.
Proof.
  induction m as [|[k' v'] m IH]; cbn [map fst]; intros Hnd Hin; [contradiction|].
  inversion Hnd as [|x l Hnotin Hnd']; subst. cbn [obj_get].
  destruct Hin as [[= -> ->]|Hin].
  - now rewrite String.eqb_refl.
  - destruct (String.eqb_spec k' k) as [->|Hk]; [|auto].
    exfalso. apply Hnotin. apply (in_map fst) in Hin. exact Hin.
Qed.

Lemma keys_set_old m k v : In k (map fst m) -> map fst (obj_set m k v) = map fst m.
Proof.
  induction m as [|[k' v'] m IH]; cbn [obj_set map fst In]; [contradiction|].
  destruct (String.eqb_spec k' k) as [->|Hk]; cbn [map fst]; [reflexivity|].
  intros [H|H]; [contradiction|]. now rewrite IH.
Qed.

Lemma keys_set_new m k v : ~ In k (map fst m) -> map fst (obj_set m k v) = map fst m ++ [k].
Proof.
  induction m as [|[k' v'] m IH]; cbn [obj_set map fst In]; [reflexivity|].
  intros Hn. destruct (String.eqb_spec k' k) as [->|Hk]; [tauto|].
  cbn [map fst app]. rewrite IH by tauto. reflexivity.
Qed.

Lemma keys_set_In m k v k0 : In k0 (map fst (obj_set m k v)) <-> In k0 (map fst m) \/ k0 = k.
Proof.
  destruct (in_dec string_dec k (map fst m)) as [Hin|Hn].
  - rewrite keys_set_old by assumption. split; [tauto|].
    intros [H| ->]; assumption.
  - rewrite keys_set_new by assumption. rewrite in_app_iff. cbn [In].
    split; [intros [H|[H|[]]]; auto | intros [H|H]; auto].
Qed.

Lemma keys_set_NoDup m k v : NoDup (map fst m) -> NoDup (map fst (obj_set m k v)).
Proof.
  intros Hnd. destruct (in_dec string_dec k (map fst m)) as [Hin|Hn].
  - now rewrite keys_set_old.
  - rewrite keys_set_new by assumption.
    apply NoDup_app.
    + assumption.
    + constructor; [intros []|constructor].
    + intros x Hx [<-|[]]. contradiction.
Qed.
End Objects.

(* ------------------------------------------------------------------ *)
(** ** Grouping by airline *)

Lemma byAirline_step_flights (m : list (string * list flight_row))
  (r : flight_row) (a : string) :
  flights_of (match obj_get m (airline r) with
              | None => obj_set m (airline r) [r]
              | Some l => obj_set m (airline r) (l ++ [r])
              end) a
  = flights_of m a ++ (if String.eqb (airline r) a then [r] else []).
Proof.
  unfold flights_of.
  destruct (String.eqb_spec (airline r) a) as [<-|Hne].
  - destruct (obj_get m (airline r)) as [l|] eqn:E;
      rewrite obj_get_set_eq; reflexivity.
  - destruct (obj_get m (airline r)) as [l|] eqn:E;
      rewrite obj_get_set_neq by assumption; now rewrite app_nil_r.
Qed.

Lemma byAirline_step_keys (m : list (string * list flight_row))
  (r : flight_row) :
  let m' := match obj_get m (airline r) with
            | None => obj_set m (airline r) [r]
            | Some l => obj_set m (airline r) (l ++ [r])
            end in
  (NoDup (map fst m) -> NoDup (map fst m')) /\
  (forall a, In a (map fst m') <-> In a (map fst m) \/ a = airline r).
Proof.
  cbv zeta. destruct (obj_get m (airline r)); split;
    (apply keys_set_NoDup || (intros a; apply keys_set_In)).
Qed.

Lemma byAirline_fold (rows : list flight_row) :
  forall m,
  let m' := fold_left (fun m r =>
                         match obj_get m (airline r) with
                         | None => obj_set m (airline r) [r]
                         | Some l => obj_set m (airline r) (l ++ [r])
                         end) rows m in
  (forall a, flights_of m' a = flights_of m a ++ group_of rows a) /\
  (NoDup (map fst m) -> NoDup (map fst m')) /\
  (forall a, In a (map fst m') <-> In a (map fst m) \/ In a (map airline rows)).
Proof.
  induction rows as [|r rows IH]; intros m; cbn [fold_left].
  - cbn. split; [intros a; now rewrite app_nil_r|]. split; [auto|tauto].
  - cbv zeta in *.
    destruct (IH (match obj_get m (airline r) with
                  | None => obj_set m (airline r) [r]
                  | Some l => obj_set m (airline r) (l ++ [r])
                  end)) as (Hf & Hn & Hk).
    destruct (byAirline_step_keys m r) as (Hn1 & Hk1).
    split; [|split].
    + intros a. rewrite Hf, byAirline_step_flights, <- app_assoc.
      f_equal. unfold group_of. cbn [filter].
      destruct (String.eqb (airline r) a); reflexivity.
    + auto.
    + intros a. rewrite Hk, Hk1. cbn [map In]. intuition auto.
Qed.

Lemma byAirline_flights (rows : list flight_row) (a : string) :
  flights_of (byAirline rows) a = group_of rows a.
Proof.
  destruct (byAirline_fold rows []) as (H & _ & _). apply H.
Qed.

Lemma byAirline_keys_NoDup (rows : list flight_row) :
  NoDup (map fst (byAirline rows)).
Proof.
  destruct (byAirline_fold rows []) as (_ & H & _). apply H. constructor.
Qed.

Lemma byAirline_keys_In (rows : list flight_row) (a : string) :
  In a (map fst (byAirline rows)) <-> In a (map airline rows).
Proof.
  destruct (byAirline_fold rows []) as (_ & _ & H). rewrite H. cbn. tauto.
Qed.

Lemma group_of_nonempty (rows : list flight_row) (a : string) :
  In a (map airline rows) -> group_of rows a <> [].
Proof.
  intros Hin. apply in_map_iff in Hin as (r & <- & Hr).
  assert (In r (group_of rows (airline r))).
  { apply filter_In. split; [exact Hr|apply String.eqb_refl]. }
  intros E. rewrite E in H. contradiction.
Qed.


(* ------------------------------------------------------------------ *)
(** ** Comparisons of prices *)

Lemma num_eq_true (a b : num) :
  num_eq a b = true ->
  is_nan a = false /\ is_nan b = false /\
  num_le a b = true /\ num_le b a = true.
Proof.
  intros H.
  assert (Ha : is_nan a = false) by (destruct a; try reflexivity; discriminate).
  assert (Hb : is_nan b = false)
    by (destruct b; try reflexivity; destruct a; discriminate).
  rewrite (num_eq_le a b Ha Hb) in H. apply andb_true_iff in H. tauto.
Qed.

Lemma num_eq_sym (a b : num) : num_eq a b = true -> num_eq b a = true.
Proof.
  intros H. destruct (num_eq_true _ _ H) as (Ha & Hb & H1 & H2).
  now apply num_le_antisym.
Qed.

Lemma num_eq_not_lt (a b : num) :
  num_eq a b = true -> num_lt a b = false /\ num_lt b a = false.
Proof.
  intros H. destruct (num_eq_true _ _ H) as (Ha & Hb & H1 & H2).
  rewrite (num_lt_le a b Ha Hb), (num_lt_le b a Hb Ha), H1, H2. auto.
Qed.

Lemma num_lt_true (a b : num) : num_lt a b = true -> num_le a b = true.
Proof.
  intros H. destruct (num_lt_not_nan _ _ H) as [Ha Hb].
  rewrite (num_lt_le a b Ha Hb) in H. apply negb_true_iff in H.
  now apply num_le_total.
Qed.

Lemma num_lt_false (a b : num) :
  is_nan a = false -> is_nan b = false ->
  num_lt a b = false -> num_le b a = true.
Proof.
  intros Ha Hb H. rewrite (num_lt_le a b Ha Hb) in H.
  now apply negb_false_iff in H.
Qed.

(* ------------------------------------------------------------------ *)
(** ** The best-price loop *)

(** [flights.find(f => f.price === minPrice)] finds a flight. *)
Lemma find_minPrice (flights : list flight_row) :
  flights <> [] ->
  exists cheapest,
    find (fun f => num_eq (price f) (Math_min (prices_of flights))) flights
    = Some cheapest.
Proof.
  intros Hne.
  assert (Hp : prices_of flights <> [])
    by (destruct flights; [congruence|discriminate]).
  destruct (@Math_min_spec (prices_of flights) Hp (prices_not_nan flights))
    as (Hn & Hin & _).
  set (minP := Math_min (prices_of flights)) in *.
  apply in_map_iff in Hin as (f & Hf & Hin).
  destruct (find _ flights) as [c|] eqn:E; [eauto|].
  exfalso. apply (find_none _ _ E) in Hin. cbv beta in Hin.
  rewrite Hf, (num_eq_refl minP Hn) in Hin. discriminate.
Qed.

Lemma bestPriceStep_spec (m : list (string * list flight_row))
  (n : nat) (acc : list insight) (a : string) :
  flights_of m a <> [] ->
  exists i,
    bestPriceStep m (n, acc) a = (S n, acc ++ [i]) /\
    id i = n /\ best_price_insight (flights_of m a) a i.
Proof.
  intros Hne. unfold bestPriceStep.
  destruct (find_minPrice Hne) as [cheapest Hc]. rewrite Hc.
  eexists. split; [reflexivity|].
  unfold best_price_insight. cbv zeta.
  set (minP := Math_min (prices_of (flights_of m a))).
  set (avgP := avgPrice (prices_of (flights_of m a))).
  destruct (num_lt minP (num_mul avgP lit_0_9));
    [|destruct (num_lt (num_mul avgP lit_1_1) minP)];
    cbn [id i_airline i_price savings type title];
    repeat split; try discriminate; intros; congruence.
Qed.

Lemma bestPrice_fold (m : list (string * list flight_row)) (airlines : list string) :
  forall n acc,
  (forall a, In a airlines -> flights_of m a <> []) ->
  exists l,
    fold_left (bestPriceStep m) airlines (n, acc)
    = ((n + List.length airlines)%nat, acc ++ l) /\
    Forall2 (fun a i => best_price_insight (flights_of m a) a i) airlines l /\
    map id l = seq n (List.length airlines).
Proof.
  induction airlines as [|a airlines IH]; intros n acc Hne; cbn [fold_left].
  - exists []. rewrite app_nil_r, Nat.add_0_r. repeat split; constructor.
  - destruct (@bestPriceStep_spec m n acc a (Hne a (or_introl eq_refl)))
      as (i & E & Hid & Hi).
    rewrite E.
    destruct (IH (S n) (acc ++ [i])) as (l & El & Hl & Hids).
    { intros b Hb. apply Hne. now right. }
    exists (i :: l). rewrite El, <- app_assoc. cbn [List.length app map seq].
    repeat split.
    + f_equal. lia.
    + constructor; assumption.
    + now rewrite Hid, Hids.
Qed.


(* ------------------------------------------------------------------ *)
(** ** Distinct dates *)

Lemma existsb_eqb_In (x : string) (acc : list string) :
  existsb (String.eqb x) acc = true <-> In x acc.
Proof.
  rewrite existsb_exists. split.
  - intros (y & Hy & E). apply String.eqb_eq in E. now subst.
  - intros H. exists x. split; [exact H|apply String.eqb_refl].
Qed.

Lemma set_of_fold (l : list string) :
  forall acc,
  let s := fold_left (fun acc x => if existsb (String.eqb x) acc then acc
                                   else acc ++ [x]) l acc in
  (NoDup acc -> NoDup s) /\ (forall x, In x s <-> In x acc \/ In x l).
Proof.
  induction l as [|y l IH]; intros acc; cbn [fold_left].
  - cbn. split; [auto|tauto].
  - cbv zeta in *.
    destruct (existsb (String.eqb y) acc) eqn:E.
    + apply existsb_eqb_In in E.
      destruct (IH acc) as [Hn Hi]. split; [exact Hn|].
      intros x. rewrite Hi. cbn [In]. split; [tauto|].
      intros [H|[<-|H]]; auto.
    + assert (Hy : ~ In y acc).
      { intros H. apply existsb_eqb_In in H. congruence. }
      destruct (IH (acc ++ [y])) as [Hn Hi]. split.
      * intros Hnd. apply Hn. apply NoDup_app; [exact Hnd| |].
        -- constructor; [intros []|constructor].
        -- intros x Hx [<-|[]]. contradiction.
      * intros x. rewrite Hi, in_app_iff. cbn [In]. tauto.
Qed.

Lemma set_of_NoDup (l : list string) : NoDup (set_of l).
Proof. apply (set_of_fold l []). constructor. Qed.

Lemma set_of_In (l : list string) (x : string) : In x (set_of l) <-> In x l.
Proof.
  unfold set_of. destruct (set_of_fold l []) as [_ H]. cbv zeta in H.
  rewrite H. cbn. tauto.
Qed.

(** The [uniqueDates] of the source are the distinct non-empty dates. *)
Lemma uniqueDates_length (g : list flight_row) :
  List.length (filter truthy_str (set_of (map departure_date g)))
  = List.length (distinct_nonempty_dates g).
Proof.
  apply Permutation_length, NoDup_Permutation.
  - apply NoDup_filter, set_of_NoDup.
  - apply NoDup_nodup.
  - intros x. unfold distinct_nonempty_dates.
    rewrite nodup_In, !filter_In, set_of_In. reflexivity.
Qed.


(* ------------------------------------------------------------------ *)
(** ** The cheapest flight of each date *)

Lemma obj_get_key (V : Type) (m : list (string * V)) (k : string) (v : V) :
  obj_get m k = Some v -> In k (map fst m).
Proof.
  intros E. destruct (in_dec string_dec k (map fst m)) as [H|H]; [exact H|].
  apply obj_get_None in H. congruence.
Qed.

Lemma cheapest_step (done : list flight_row) (m : list (string * flight_row))
  (f : flight_row) :
  cheapest_inv done m ->
  cheapest_inv (done ++ [f])
    (match obj_get m (departure_date f) with
     | None => if inherited (departure_date f) then m
               else obj_set m (departure_date f) f
     | Some g => if num_lt (price f) (price g)
                 then obj_set m (departure_date f) f else m
     end).
Proof.
  intros (Hnd & Hk & Hv).
  destruct (obj_get m (departure_date f)) as [g|] eqn:E.
  - destruct (Hv _ _ E) as (Hg & Hdg & Hmin).
    assert (Hin : In (departure_date f) (map fst m)) by (eapply obj_get_key; eauto).
    assert (Hinh : inherited (departure_date f) = false) by (apply Hk; exact Hin).
    destruct (num_lt (price f) (price g)) eqn:Elt.
    + apply num_lt_true in Elt. split; [|split].
      * now apply keys_set_NoDup.
      * intros d. rewrite keys_set_In, Hk, map_app, in_app_iff. cbn [map In].
        split.
        -- intros [[H1 H2]| ->]; split; auto; right; now left.
        -- intros [[H|[<-|[]]] H2]; auto.
      * intros d h Hget.
        destruct (string_dec (departure_date f) d) as [<-|Hne].
        -- rewrite obj_get_set_eq in Hget. injection Hget as <-.
           split; [apply in_or_app; right; now left|]. split; [reflexivity|].
           intros f' Hf' Hd'. apply in_app_or in Hf' as [Hf'|[<-|[]]].
           ++ apply (num_le_trans (price f) (price g) (price f'));
                auto using num_of_not_nan.
           ++ apply num_le_refl, num_of_not_nan.
        -- rewrite obj_get_set_neq in Hget by assumption.
           destruct (Hv _ _ Hget) as (Hh & Hdh & Hminh).
           split; [apply in_or_app; now left|]. split; [exact Hdh|].
           intros f' Hf' Hd'. apply in_app_or in Hf' as [Hf'|[<-|[]]]; [auto|].
           congruence.
    + apply num_lt_false in Elt; try apply num_of_not_nan.
      split; [exact Hnd|split].
      * intros d. rewrite Hk, map_app, in_app_iff. cbn [map In].
        split; [tauto|]. intros [[H|[<-|[]]] H2]; auto.
        split; [|exact H2]. apply Hk. exact Hin.
      * intros d h Hget. destruct (Hv _ _ Hget) as (Hh & Hdh & Hminh).
        split; [apply in_or_app; now left|]. split; [exact Hdh|].
        intros f' Hf' Hd'. apply in_app_or in Hf' as [Hf'|[<-|[]]]; [auto|].
        assert (h = g) by congruence. subst h. exact Elt.
  - assert (Hnin : ~ In (departure_date f) (map fst m)) by now apply obj_get_None.
    destruct (inherited (departure_date f)) eqn:Einh.
    + split; [exact Hnd|split].
      * intros d. rewrite Hk, map_app, in_app_iff. cbn [map In].
        split; [tauto|]. intros [[H|[<-|[]]] H2]; auto. congruence.
      * intros d h Hget. destruct (Hv _ _ Hget) as (Hh & Hdh & Hminh).
        split; [apply in_or_app; now left|]. split; [exact Hdh|].
        intros f' Hf' Hd'. apply in_app_or in Hf' as [Hf'|[<-|[]]]; [auto|].
        exfalso. apply Hnin. rewrite Hd'. eapply obj_get_key; eauto.
    + split; [|split].
      * now apply keys_set_NoDup.
      * intros d. rewrite keys_set_In, Hk, map_app, in_app_iff. cbn [map In].
        split.
        -- intros [[H1 H2]| ->]; split; auto; right; now left.
        -- intros [[H|[<-|[]]] H2]; auto.
      * intros d h Hget.
        destruct (string_dec (departure_date f) d) as [<-|Hne].
        -- rewrite obj_get_set_eq in Hget. injection Hget as <-.
           split; [apply in_or_app; right; now left|]. split; [reflexivity|].
           intros f' Hf' Hd'. apply in_app_or in Hf' as [Hf'|[<-|[]]].
           ++ exfalso. apply Hnin, Hk. split; [|exact Einh].
              rewrite <- Hd'. now apply in_map.
           ++ apply num_le_refl, num_of_not_nan.
        -- rewrite obj_get_set_neq in Hget by assumption.
           destruct (Hv _ _ Hget) as (Hh & Hdh & Hminh).
           split; [apply in_or_app; now left|]. split; [exact Hdh|].
           intros f' Hf' Hd'. apply in_app_or in Hf' as [Hf'|[<-|[]]]; [auto|].
           congruence.
Qed.

Lemma cheapest_fold (fs : list flight_row) :
  forall done m,
  cheapest_inv done m ->
  cheapest_inv (done ++ fs)
    (fold_left (fun m f =>
                  match obj_get m (departure_date f) with
                  | None => if inherited (departure_date f) then m
                            else obj_set m (departure_date f) f
                  | Some g => if num_lt (price f) (price g)
                              then obj_set m (departure_date f) f else m
                  end) fs m).
Proof.
  induction fs as [|f fs IH]; intros done m Hinv; cbn [fold_left].
  - now rewrite app_nil_r.
  - replace (done ++ f :: fs) with ((done ++ [f]) ++ fs)
      by (rewrite <- app_assoc; reflexivity).
    apply IH. now apply cheapest_step.
Qed.

Lemma cheapestByDate_inv (g : list flight_row) : cheapest_inv g (cheapestByDate g).
Proof.
  apply (@cheapest_fold g [] []).
  split; [constructor|]. split; [cbn; tauto|]. intros d h H. discriminate.
Qed.

(** The keys of [cheapestByDate] are the dates of the group, the names of
    inherited members apart. *)
Lemma cheapestByDate_keys (g : list flight_row) (dStr : string) :
  In dStr (map fst (cheapestByDate g)) <-> In dStr (date_keys g).
Proof.
  destruct (cheapestByDate_inv g) as (_ & Hk & _).
  unfold date_keys. rewrite nodup_In, filter_In, negb_true_iff. apply Hk.
Qed.

(** Each entry of [cheapestByDate] carries the cheapest price of its date. *)
Lemma cheapestByDate_price (g : list flight_row) (dStr : string) (f : flight_row) :
  In (dStr, f) (cheapestByDate g) ->
  num_eq (price f) (per_date_cheapest g dStr) = true.
Proof.
  intros Hin. destruct (cheapestByDate_inv g) as (Hnd & _ & Hv).
  apply obj_In_get in Hin; [|exact Hnd].
  destruct (Hv _ _ Hin) as (Hf & Hd & Hmin).
  unfold per_date_cheapest. apply Math_min_unique.
  - apply prices_not_nan.
  - exists (num_of (price f)). split; [|apply num_eq_refl, num_of_not_nan].
    unfold prices_of, on_date.
    apply (in_map (fun f0 => num_of (price f0))), filter_In.
    split; [exact Hf|]. now apply String.eqb_eq.
  - intros p Hp. apply in_map_iff in Hp as (f' & <- & Hf').
    apply filter_In in Hf' as [Hf' Hd']. apply String.eqb_eq in Hd'. auto.
Qed.

Lemma cheapestByDate_entry (g : list flight_row) (dStr : string) :
  In dStr (date_keys g) -> exists f, In (dStr, f) (cheapestByDate g).
Proof.
  intros H. apply cheapestByDate_keys in H.
  apply in_map_iff in H as ([d f] & E & Hin). cbn in E. subst. eauto.
Qed.

Lemma per_date_not_nan (g : list flight_row) :
  Forall (fun y => is_nan y = false) (map (per_date_cheapest g) (date_keys g)).
Proof.
  apply Forall_forall. intros p Hp. apply in_map_iff in Hp as (d & <- & Hd).
  destruct (cheapestByDate_entry _ _ Hd) as [f Hf].
  apply cheapestByDate_price, num_eq_true in Hf. tauto.
Qed.

(* ------------------------------------------------------------------ *)
(** ** The ends of a sorted list *)

Lemma StronglySorted_last (A : Type) (R : A -> A -> Prop) (l : list A) (x : A) :
  StronglySorted R (l ++ [x]) -> Forall (fun y => R y x) l.
Proof.
  induction l as [|y l IH]; cbn [app]; intros H; [constructor|].
  inversion H as [|? ? Hs Hall]; subst. constructor.
  - rewrite Forall_forall in Hall. apply Hall, in_or_app. right. now left.
  - auto.
Qed.

Lemma ends_of_list (A : Type) (l : list A) :
  l <> [] ->
  exists c x t1 t2, l = c :: t1 /\ l = t2 ++ [x] /\
                    hd_error l = Some c /\ hd_error (rev l) = Some x.
Proof.
  intros Hne.
  destruct l as [|c t1]; [congruence|].
  destruct (rev (c :: t1)) as [|x t] eqn:E.
  { apply (f_equal (@List.length _)) in E. rewrite length_rev in E. discriminate. }
  assert (El : c :: t1 = rev t ++ [x]).
  { rewrite <- (rev_involutive (c :: t1)), E. reflexivity. }
  exists c, x, t1, (rev t). repeat split; auto.
Qed.

Lemma NoDup_fst_inj (A : Type) (l : list (string * A)) (c x : string * A) :
  NoDup (map fst l) -> In c l -> In x l -> fst c = fst x -> c = x.
Proof.
  intros Hnd Hc Hx E. destruct c as [k v], x as [k' v']. cbn in E. subst k'.
  apply (obj_In_get _ _ _ Hnd) in Hc. apply (obj_In_get _ _ _ Hnd) in Hx.
  congruence.
Qed.

(* ------------------------------------------------------------------ *)
(** ** The flexible-date loop *)

(** The cheapest and the most expensive entry of [cheapestByDate] carry
    the least and the greatest of the per-date cheapest prices. *)
Lemma flex_ends (g : list flight_row) (c x : string * flight_row) :
  In c (cheapestByDate g) -> In x (cheapestByDate g) ->
  (forall e, In e (cheapestByDate g) ->
             num_le (price (snd c)) (price (snd e)) = true) ->
  (forall e, In e (cheapestByDate g) ->
             num_le (price (snd e)) (price (snd x)) = true) ->
  num_eq (price (snd c)) (cheapest_date_price g) = true /\
  num_eq (price (snd x)) (dearest_date_price g) = true.
Proof.
  intros Hc Hx Hmin Hmax. split.
  - apply Math_min_unique; [apply per_date_not_nan| |].
    + exists (per_date_cheapest g (fst c)). split.
      * apply in_map. apply cheapestByDate_keys. now apply in_map.
      * apply num_eq_sym, cheapestByDate_price. now destruct c.
    + intros p Hp. apply in_map_iff in Hp as (d & <- & Hd).
      destruct (cheapestByDate_entry _ _ Hd) as [f Hf].
      pose proof (cheapestByDate_price _ _ _ Hf) as He.
      apply num_eq_true in He as (H1 & H2 & H3 & _).
      apply (num_le_trans _ (price f) _); auto using num_of_not_nan.
      apply (Hmin _ Hf).
  - apply Math_max_unique; [apply per_date_not_nan| |].
    + exists (per_date_cheapest g (fst x)). split.
      * apply in_map. apply cheapestByDate_keys. now apply in_map.
      * apply num_eq_sym, cheapestByDate_price. now destruct x.
    + intros p Hp. apply in_map_iff in Hp as (d & <- & Hd).
      destruct (cheapestByDate_entry _ _ Hd) as [f Hf].
      pose proof (cheapestByDate_price _ _ _ Hf) as He.
      apply num_eq_true in He as (H1 & H2 & _ & H4).
      apply (num_le_trans _ (price f) _); auto using num_of_not_nan.
      apply (Hmax _ Hf).
Qed.

(** Without a key in [cheapestByDate] the spread is [-Infinity]. *)
Lemma date_spread_no_key (g : list flight_row) :
  date_keys g = [] -> num_lt lit_20 (date_spread g) = false.
Proof.
  intros E. unfold date_spread, cheapest_date_price, dearest_date_price.
  rewrite E. reflexivity.
Qed.

Lemma flexStep_spec (m : list (string * list flight_row))
  (n : nat) (acc : list insight) (a : string) :
  (flex_condition (flights_of m a) ->
   exists i, flexStep m (n, acc) a = (S n, acc ++ [i]) /\
             id i = n /\ flex_insight (flights_of m a) a i) /\
  (~ flex_condition (flights_of m a) -> flexStep m (n, acc) a = (n, acc)).
Proof.
  unfold flexStep. set (g := flights_of m a).
  rewrite uniqueDates_length.
  destruct (Nat.leb_spec (List.length (distinct_nonempty_dates g)) 1) as [Hle|Hgt].
  { split; [intros [H _]; lia|reflexivity]. }
  set (dates := sort_by by_price (cheapestByDate g)).
  assert (Hin : forall e, In e dates <-> In e (cheapestByDate g))
    by (intros e; apply sort_by_In).
  assert (Hsorted : StronglySorted (fun x y => by_price x y = true) dates).
  { apply sort_by_sorted.
    - intros u v. rewrite !by_price_le.
      apply num_le_total; apply num_of_not_nan.
    - intros u v w. rewrite !by_price_le.
      apply num_le_trans; apply num_of_not_nan. }
  destruct (cheapestByDate_inv g) as (Hnd & Hk & _).
  destruct dates as [|e0 rest] eqn:Edates.
  { (* no key at all *)
    cbn [hd_error]. split; [|reflexivity].
    intros [_ H20]. exfalso.
    rewrite date_spread_no_key in H20; [discriminate|].
    destruct (date_keys g) as [|k ks] eqn:Ek; [reflexivity|].
    exfalso. assert (Hkin : In k (date_keys g)) by (rewrite Ek; now left).
    apply cheapestByDate_entry in Hkin as [f Hf].
    apply Hin in Hf. exact Hf. }
  rewrite <- Edates in *.
  assert (Hne : dates <> []) by (rewrite Edates; discriminate).
  clear Edates e0 rest.
  destruct (ends_of_list Hne) as (c & x & t1 & t2 & E1 & E2 & Hc & Hx).
  rewrite Hc, Hx.
  assert (Hmin : forall e, In e (cheapestByDate g) ->
                           num_le (price (snd c)) (price (snd e)) = true).
  { intros e He. apply Hin in He. rewrite E1 in He, Hsorted.
    inversion Hsorted as [|? ? _ Hall]; subst.
    destruct He as [<-|He]; [apply num_le_refl, num_of_not_nan|].
    rewrite Forall_forall in Hall. rewrite <- by_price_le. apply (Hall _ He). }
  assert (Hmax : forall e, In e (cheapestByDate g) ->
                           num_le (price (snd e)) (price (snd x)) = true).
  { intros e He. apply Hin in He. rewrite E2 in He, Hsorted.
    apply StronglySorted_last in Hsorted.
    apply in_app_or in He as [He|[<-|[]]]; [|apply num_le_refl, num_of_not_nan].
    rewrite Forall_forall in Hsorted. rewrite <- by_price_le.
    apply (Hsorted _ He). }
  assert (Hcin : In c (cheapestByDate g)) by (apply Hin; rewrite E1; now left).
  assert (Hxin : In x (cheapestByDate g)).
  { apply Hin. rewrite E2. apply in_or_app. right. now left. }
  destruct (@flex_ends g c x Hcin Hxin Hmin Hmax) as [Hlo Hhi].
  assert (Hsame : same_num (num_sub (price (snd x)) (price (snd c)))
                           (date_spread g)).
  { unfold date_spread.
    destruct (num_eq_true _ _ Hlo) as (L1 & L2 & _).
    destruct (num_eq_true _ _ Hhi) as (U1 & U2 & _).
    apply same_num_sub; apply num_eq_same; assumption. }
  destruct (String.eqb_spec (fst c) (fst x)) as [Ecx|Ecx]; cbn [negb].
  - (* one entry is both the cheapest and the most expensive *)
    assert (c = x) by (apply (@NoDup_fst_inj _ _ c x Hnd Hcin Hxin Ecx)). subst x.
    split; [|reflexivity].
    intros [_ H20]. exfalso.
    rewrite <- (same_num_lt lit_20 Hsame), num_sub_self in H20. discriminate.
  - destruct (num_lt lit_20 (num_sub (price (snd x)) (price (snd c)))) eqn:E20.
    + split; [|intros Hn; exfalso; apply Hn].
      * intros _. eexists. split; [reflexivity|]. split; [reflexivity|].
        unfold flex_insight. cbn [type i_airline i_price savings].
        repeat split; auto. f_equal. now apply above_20_same.
      * split; [lia|]. rewrite <- (same_num_lt lit_20 Hsame). exact E20.
    + split; [|reflexivity].
      intros [_ H20]. exfalso.
      rewrite <- (same_num_lt lit_20 Hsame), E20 in H20. discriminate.
Qed.

Lemma flex_condition_dec (g : list flight_row) :
  flex_condition g \/ ~ flex_condition g.
Proof.
  unfold flex_condition.
  destruct (le_dec 2 (List.length (distinct_nonempty_dates g))) as [H|H];
    [|right; tauto].
  destruct (num_lt lit_20 (date_spread g)); [left; tauto|].
  right. intros [_ H2]. discriminate.
Qed.

Lemma flex_fold (m : list (string * list flight_row)) (airlines : list string) :
  forall n acc,
  exists ls,
    fold_left (flexStep m) airlines (n, acc)
    = ((n + List.length (List.concat ls))%nat, acc ++ List.concat ls) /\
    Forall2 (fun a l => flex_outcome (flights_of m a) a l) airlines ls /\
    map id (List.concat ls) = seq n (List.length (List.concat ls)).
Proof.
  induction airlines as [|a airlines IH]; intros n acc; cbn [fold_left].
  - exists []. cbn. rewrite app_nil_r, Nat.add_0_r. repeat split; constructor.
  - destruct (flexStep_spec m n acc a) as [Hyes Hno].
    destruct (flex_condition_dec (flights_of m a)) as [Hc|Hc].
    + destruct (Hyes Hc) as (i & E & Hid & Hi). rewrite E.
      destruct (IH (S n) (acc ++ [i])) as (ls & El & Hl & Hids).
      exists ([i] :: ls). rewrite El, <- app_assoc.
      cbn [List.concat app List.length map seq]. repeat split.
      * f_equal. lia.
      * constructor; [|exact Hl]. left. eauto.
      * now rewrite Hid, Hids.
    + rewrite (Hno Hc).
      destruct (IH n acc) as (ls & El & Hl & Hids).
      exists ([] :: ls). rewrite El. cbn [List.concat app]. repeat split; auto.
      constructor; [|exact Hl]. right. auto.
Qed.

(** The response is the best-price insights of the airlines, in the order
    of the airlines, followed by their flex insights, numbered from 1. *)
Lemma deriveInsights_shape (rows : list flight_row) :
  exists bests ls,
    deriveInsights rows = bests ++ List.concat ls /\
    Forall2 (fun a i => best_price_insight (group_of rows a) a i)
            (map fst (byAirline rows)) bests /\
    Forall2 (fun a l => flex_outcome (group_of rows a) a l)
            (map fst (byAirline rows)) ls /\
    map id (deriveInsights rows) = seq 1 (List.length (deriveInsights rows)).
Proof.
  destruct rows as [|r0 rows'] eqn:Erows.
  { exists [], []. cbn. repeat split; constructor. }
  rewrite <- Erows. assert (Hne : rows <> []) by (subst; discriminate).
  clear Erows.
  unfold deriveInsights. destruct rows as [|r rs] eqn:E; [congruence|].
  rewrite <- E. clear E. cbv zeta.
  set (m := byAirline rows). set (airlines := map fst m).
  destruct (@bestPrice_fold m airlines 1 []) as (bests & Eb & Hb & Hidb).
  { intros a Ha. unfold m. rewrite byAirline_flights.
    apply group_of_nonempty. now apply byAirline_keys_In. }
  rewrite Eb.
  destruct (flex_fold m airlines (1 + List.length airlines) ([] ++ bests))
    as (ls & Ef & Hf & Hidf).
  rewrite Ef. cbn [snd app].
  exists bests, ls. split; [reflexivity|]. split; [|split].
  - eapply Forall2_impl; [|exact Hb]. intros a i H.
    unfold m in H. now rewrite byAirline_flights in H.
  - eapply Forall2_impl; [|exact Hf]. intros a l H.
    unfold m in H. now rewrite byAirline_flights in H.
  - rewrite map_app, Hidb, Hidf, length_app.
    assert (Hlen : List.length bests = List.length airlines).
    { symmetry. eapply Forall2_length. exact Hb. }
    rewrite Hlen, seq_app. reflexivity.
Qed.


(* ------------------------------------------------------------------ *)
(** ** The insights of one airline *)

Lemma filter_airline_all (a x : string) (l : list insight) :
  Forall (fun i => i_airline i = x) l ->
  filter (fun i => String.eqb (i_airline i) a) l = if String.eqb x a then l else [].
Proof.
  induction 1 as [|i l Hi _ IH]; cbn [filter].
  - now destruct (String.eqb x a).
  - rewrite Hi, IH. now destruct (String.eqb x a).
Qed.

Section ByAirline.
Variable R : string -> list insight -> Prop.
Hypothesis R_airline : forall x l, R x l -> Forall (fun i => i_airline i = x) l.

Lemma filter_airline_absent (xs : list string) (ls : list (list insight)) (a : string) :
  Forall2 R xs ls -> ~ In a xs ->
  filter (fun i => String.eqb (i_airline i) a) (List.concat ls) = [].
Proof.
  induction 1 as [|x l xs ls Hx _ IH]; intros Hn; [reflexivity|].
  cbn [List.concat]. rewrite filter_app, (filter_airline_all a (R_airline Hx)).
  destruct (String.eqb_spec x a) as [->|_]; [exfalso; apply Hn; now left|].
  apply IH. intros H. apply Hn. now right.
Qed.

Lemma filter_airline_present (xs : list string) (ls : list (list insight)) (a : string) :
  Forall2 R xs ls -> NoDup xs -> In a xs ->
  R a (filter (fun i => String.eqb (i_airline i) a) (List.concat ls)).
Proof.
  induction 1 as [|x l xs ls Hx Hrest IH]; intros Hnd Hin; [contradiction|].
  inversion Hnd as [|? ? Hnotin Hnd']; subst.
  cbn [List.concat]. rewrite filter_app, (filter_airline_all a (R_airline Hx)).
  destruct (String.eqb_spec x a) as [->|Hne].
  - rewrite (filter_airline_absent a Hrest Hnotin), app_nil_r. exact Hx.
  - destruct Hin as [Hin|Hin]; [contradiction|]. now apply IH.
Qed.
End ByAirline.

Lemma best_price_of_app (a : string) (l1 l2 : list insight) :
  best_price_of a (l1 ++ l2) = best_price_of a l1 ++ best_price_of a l2.
Proof. apply filter_app. Qed.

Lemma flex_of_app (a : string) (l1 l2 : list insight) :
  flex_of a (l1 ++ l2) = flex_of a l1 ++ flex_of a l2.
Proof. apply filter_app. Qed.

Lemma kind_filter (a : string) (l : list insight) (b : bool) :
  Forall (fun i => is_flex i = b) l ->
  best_price_of a l = (if b then [] else filter (fun i => String.eqb (i_airline i) a) l) /\
  flex_of a l = (if b then filter (fun i => String.eqb (i_airline i) a) l else []).
Proof.
  unfold best_price_of, flex_of.
  induction 1 as [|i l Hi _ [IH1 IH2]]; cbn [filter].
  - now destruct b.
  - rewrite Hi, IH1, IH2. destruct b; cbn [negb andb];
      now destruct (String.eqb (i_airline i) a).
Qed.

Lemma concat_singletons (A : Type) (l : list A) :
  List.concat (map (fun x => [x]) l) = l.
Proof. induction l as [|x l IH]; cbn; [reflexivity|now rewrite IH]. Qed.

Lemma best_price_insight_kind (g : list flight_row) (a : string) (i : insight) :
  best_price_insight g a i -> i_airline i = a /\ is_flex i = false.
Proof.
  intros (Ha & _ & _ & Ht & _). split; [exact Ha|].
  unfold is_flex. destruct (type i); congruence.
Qed.

Lemma flex_outcome_kind (g : list flight_row) (a : string) (l : list insight) :
  flex_outcome g a l -> Forall (fun i => i_airline i = a /\ is_flex i = true) l.
Proof.
  intros [(_ & i & -> & Ht & Ha & _)|(_ & ->)]; [|constructor].
  constructor; [|constructor]. split; [exact Ha|].
  unfold is_flex. now rewrite Ht.
Qed.

(** The insights of airline [a] in the response: one best-price insight
    and what the flex loop gave for [a]. *)
Lemma insights_of_airline (rows : list flight_row) (a : string) :
  In a (map airline rows) ->
  exists i l,
    best_price_of a (deriveInsights rows) = [i] /\
    best_price_insight (group_of rows a) a i /\
    flex_of a (deriveInsights rows) = l /\
    flex_outcome (group_of rows a) a l.
Proof.
  intros Hin. apply byAirline_keys_In in Hin.
  destruct (deriveInsights_shape rows) as (bests & ls & E & Hb & Hf & _).
  pose proof (byAirline_keys_NoDup rows) as Hnd.
  set (airlines := map fst (byAirline rows)) in *.
  assert (Hbk : Forall (fun i => is_flex i = false) bests).
  { clear -Hb. induction Hb as [|x i xs l Hx _ IH]; constructor; auto.
    apply (best_price_insight_kind Hx). }
  assert (Hfk : Forall (fun i => is_flex i = true) (List.concat ls)).
  { clear -Hf. induction Hf as [|x l xs ls Hx _ IH]; cbn [List.concat];
      [constructor|].
    apply Forall_app. split; [|exact IH].
    eapply Forall_impl; [|apply (flex_outcome_kind Hx)]. now intros i [_ H]. }
  destruct (kind_filter a Hbk) as [B1 B2].
  destruct (kind_filter a Hfk) as [F1 F2].
  rewrite E, best_price_of_app, flex_of_app, B1, B2, F1, F2.
  cbn [app]. rewrite app_nil_r.
  (* the best-price insight *)
  set (Rb := fun x l => exists i, l = [i] /\ best_price_insight (group_of rows x) x i).
  assert (Hb' : Forall2 Rb airlines (map (fun i => [i]) bests)).
  { clear -Hb. induction Hb as [|x i xs l Hx _ IH]; cbn [map]; constructor; auto.
    exists i. auto. }
  assert (HRb : forall x l, Rb x l -> Forall (fun i => i_airline i = x) l).
  { intros x l (i & -> & Hi). constructor; [|constructor].
    apply (best_price_insight_kind Hi). }
  pose proof (@filter_airline_present Rb HRb _ _ a Hb' Hnd Hin) as (i & Ei & Hi).
  rewrite concat_singletons in Ei.
  (* the flex insight *)
  set (Rf := fun x l => flex_outcome (group_of rows x) x l).
  assert (HRf : forall x l, Rf x l -> Forall (fun i => i_airline i = x) l).
  { intros x l H. eapply Forall_impl; [|apply (flex_outcome_kind H)].
    now intros j [Hj _]. }
  pose proof (@filter_airline_present Rf HRf _ _ a Hf Hnd Hin) as Hl.
  exists i, (filter (fun i => String.eqb (i_airline i) a) (List.concat ls)).
  split; [exact Ei|]. split; [exact Hi|]. split; [reflexivity|exact Hl].
Qed.





(* ------------------------------------------------------------------ *)
(** ** The best-price insight of an airline *)

(** The claim C1 fails where the rounding of the product decides. Fares
    of $6.30 and $7.70 have the mean 7 and the least price 6.3, a double
    whose value is below nine tenths of 7; the product [7 * 0.9] rounds
    to that same double, the test [minPrice < avgPrice * 0.9] is false
    and the insight is "Best Price Found". Fares of $11.70 and $14.30
    have the mean 13, and 11.7 is nine tenths of 13; the product
    [13 * 0.9] rounds to the double above the double of 11.7, the test is
    true and the insight is "Strong Buy Recommendation". *)
Lemma C1_threshold_in_doubles :
  (avgPrice (prices_of fares_6_3_and_7_7) = num_of_Z 7 /\
   Math_min (prices_of fares_6_3_and_7_7) = literal 63 1 /\
   (num_value (Math_min (prices_of fares_6_3_and_7_7)) < (9 # 10) * 7)%Q /\
   exists i, deriveInsights fares_6_3_and_7_7 = [i] /\
             type i = buy /\ title i = "Best Price Found") /\
  (avgPrice (prices_of fares_11_7_and_14_3) = num_of_Z 13 /\
   Math_min (prices_of fares_11_7_and_14_3) = literal 117 1 /\
   ((117 # 10) == (9 # 10) * 13)%Q /\
   exists i, deriveInsights fares_11_7_and_14_3 = [i] /\
             type i = buy /\ title i = "Strong Buy Recommendation").
Proof.
  split; (split; [vm_compute; reflexivity|]);
    (split; [vm_compute; reflexivity|]);
    (split; [vm_compute; reflexivity|]);
    eexists; split; [vm_compute; reflexivity| | vm_compute; reflexivity|];
    split; reflexivity.
Qed.

(** C1, amended. For an airline of the window, with [minP] the least
    price of its group and [avgP] the mean of the group rounded to the
    nearest integer, both as the arithmetic of doubles gives them, the
    response holds exactly one best-price insight for the airline. With
    the products [avgP * 0.9] and [avgP * 1.1] rounded to doubles, it is a
    buy titled "Strong Buy Recommendation" when [minP < avgP * 0.9];
    otherwise a wait titled "Hold / Wait" when [minP > avgP * 1.1];
    otherwise a buy titled "Best Price Found". A least price equal to one
    of the two rounded products does not take the branch of that
    product. *)
Theorem C1_best_price_classification (rows : list flight_row) (a : string) :
  In a (map airline rows) ->
  let prices := prices_of (group_of rows a) in
  let minP := Math_min prices in
  let avgP := avgPrice prices in
  (In minP prices /\ forall p, In p prices -> num_le minP p = true) /\
  avgP = Math_round (num_div (fold_left num_add prices zero)
                             (num_of_Z (Z.of_nat (List.length prices)))) /\
  exists i,
    best_price_of a (deriveInsights rows) = [i] /\
    i_airline i = a /\ i_price i = minP /\
    (num_lt minP (num_mul avgP lit_0_9) = true ->
     type i = buy /\ title i = "Strong Buy Recommendation") /\
    (num_lt minP (num_mul avgP lit_0_9) = false ->
     num_lt (num_mul avgP lit_1_1) minP = true ->
     type i = wait /\ title i = "Hold / Wait") /\
    (num_lt minP (num_mul avgP lit_0_9) = false ->
     num_lt (num_mul avgP lit_1_1) minP = false ->
     type i = buy /\ title i = "Best Price Found") /\
    (num_eq minP (num_mul avgP lit_0_9) = true ->
     title i <> "Strong Buy Recommendation") /\
    (num_eq minP (num_mul avgP lit_1_1) = true ->
     title i <> "Hold / Wait").
Proof.
  intros Hin prices minP avgP.
  assert (Hne : prices <> []).
  { subst prices. pose proof (group_of_nonempty rows a Hin) as H.
    destruct (group_of rows a); [congruence|discriminate]. }
  destruct (@Math_min_spec prices Hne (prices_not_nan (group_of rows a)))
    as (_ & Hmin & Hlb).
  rewrite Forall_forall in Hlb.
  split; [split; [exact Hmin|exact Hlb]|].
  split; [reflexivity|].
  destruct (insights_of_airline rows a Hin)
    as (i & l & E & (Ha & Hp & _ & _ & H1 & H2 & H3) & _).
  fold prices in Hp, H1, H2, H3. fold minP in Hp, H1, H2, H3.
  fold avgP in H1, H2, H3.
  exists i. split; [exact E|]. split; [exact Ha|]. split; [exact Hp|].
  split; [exact H1|]. split; [exact H2|]. split; [exact H3|].
  clearbody minP avgP. split.
  - intros He. apply num_eq_not_lt in He as [He _].
    destruct (num_lt (num_mul avgP lit_1_1) minP) eqn:E2.
    + destruct (H2 He eq_refl) as [_ ->]. discriminate.
    + destruct (H3 He eq_refl) as [_ ->]. discriminate.
  - intros He. apply num_eq_not_lt in He as [_ He].
    destruct (num_lt minP (num_mul avgP lit_0_9)) eqn:E1.
    + destruct (H1 eq_refl) as [_ ->]. discriminate.
    + destruct (H3 eq_refl He) as [_ ->]. discriminate.
Qed.

Lemma C1_best_price_classification_witness :
  (exists i, best_price_of "JetBlue" (deriveInsights one_low_fare) = [i] /\
             type i = buy /\ title i = "Strong Buy Recommendation") /\
  (exists i, best_price_of "JSX" (deriveInsights one_small_fare) = [i] /\
             type i = wait /\ title i = "Hold / Wait") /\
  (exists i, best_price_of "JSX" (deriveInsights one_fare) = [i] /\
             type i = buy /\ title i = "Best Price Found").
Proof.
  split; [|split].
  - destruct (@C1_best_price_classification one_low_fare "JetBlue")
      as (_ & _ & i & E & _ & _ & H & _).
    + cbn. auto.
    + exists i. split; [exact E|]. apply H. vm_compute. reflexivity.
  - destruct (@C1_best_price_classification one_small_fare "JSX")
      as (_ & _ & i & E & _ & _ & _ & H & _).
    + cbn. auto.
    + exists i. split; [exact E|]. apply H; vm_compute; reflexivity.
  - destruct (@C1_best_price_classification one_fare "JSX")
      as (_ & _ & i & E & _ & _ & _ & _ & H & _).
    + cbn. auto.
    + exists i. split; [exact E|]. apply H; vm_compute; reflexivity.
Defined.

(* ------------------------------------------------------------------ *)
(** ** The flex insight of an airline *)




(* ------------------------------------------------------------------ *)
(** ** The order of the response *)

(** The claim C4 fails on two dates of one airline: the flex insight
    comes after the buy insight, not before it. *)
Lemma C4_flex_not_first :
  ~ (forall i j x y,
       nth_error (deriveInsights two_dates) i = Some x ->
       nth_error (deriveInsights two_dates) j = Some y ->
       type x = flex -> type y <> flex -> (i < j)%nat).
Proof.
  intros H.
  assert (E : exists b f, deriveInsights two_dates = [b; f] /\
                          type b = buy /\ type f = flex).
  { vm_compute. eauto. }
  destruct E as (b & f & E & Hb & Hf). rewrite E in H.
  specialize (H 1%nat 0%nat f b eq_refl eq_refl Hf).
  assert (type b <> flex) by (rewrite Hb; discriminate).
  specialize (H H0). lia.
Qed.

(** C4, amended. The response is the buy and wait insights followed by
    the flex insights, and the ids are 1, 2, ... along the response, so
    the flex insights come last and carry the highest ids. *)
Theorem C4_best_price_then_flex (rows : list flight_row) :
  exists bests flexes,
    deriveInsights rows = bests ++ flexes /\
    Forall (fun i => type i = buy \/ type i = wait) bests /\
    Forall (fun i => type i = flex) flexes /\
    map id (deriveInsights rows) = seq 1 (List.length (deriveInsights rows)).
Proof.
  destruct (deriveInsights_shape rows) as (bests & ls & E & Hb & Hf & Hid).
  exists bests, (List.concat ls). split; [exact E|]. split; [|split; [|exact Hid]].
  - clear -Hb. induction Hb as [|x i xs l Hx _ IH]; constructor; auto.
    destruct Hx as (_ & _ & _ & Ht & _). destruct (type i); auto. congruence.
  - clear -Hf. induction Hf as [|x l xs ls Hx _ IH]; cbn [List.concat];
      [constructor|].
    apply Forall_app. split; [|exact IH].
    destruct Hx as [(_ & i & -> & Ht & _)|(_ & ->)]; repeat constructor; auto.
Qed.


(* ================================================================== *)
(** * Further properties of the server *)

(* ------------------------------------------------------------------ *)
(** ** Fairness of the rotation *)

Lemma nextKeys_length (keys : list string) (n : nat) :
  forall idx, List.length (nextKeys keys idx n) = n.
Proof.
  induction n as [|n IH]; intros idx; [reflexivity|].
  cbn [nextKeys]. destruct (getNextSerpKey keys idx) as [key idx'].
  cbn [List.length]. now rewrite IH.
Qed.

Lemma nth_error_rotate (A : Type) (l : list A) (r i : nat) :
  (r < List.length l)%nat -> (i < List.length l)%nat ->
  nth_error (skipn r l ++ firstn r l) i
  = nth_error l ((r + i) mod List.length l)%nat.
Proof.
  intros Hr Hi.
  destruct (Nat.lt_ge_cases i (List.length l - r)) as [Hlt|Hge].
  - rewrite nth_error_app1 by (rewrite length_skipn; lia).
    rewrite nth_error_skipn. now rewrite Nat.mod_small by lia.
  - rewrite nth_error_app2 by (rewrite length_skipn; lia).
    rewrite length_skipn, nth_error_firstn.
    destruct (Nat.ltb_spec (i - (List.length l - r)) r) as [_|H]; [|lia].
    f_equal.
    replace (r + i)%nat with ((i - (List.length l - r)) + 1 * List.length l)%nat by lia.
    rewrite Nat.Div0.mod_add. rewrite Nat.mod_small by lia. reflexivity.
Qed.

(** X1. Over [k >= 1] keys, [k] successive calls of [getNextSerpKey],
    from whatever value of [serpKeyIndex], hand out the list of keys
    rotated by [serpKeyIndex mod k]: every configured key exactly once. *)
Theorem X1_rotation_is_fair (keys : list string) (idx : nat) :
  keys <> [] ->
  let r := (idx mod List.length keys)%nat in
  nextKeys keys idx (List.length keys) = map Some (skipn r keys ++ firstn r keys) /\
  Permutation (nextKeys keys idx (List.length keys)) (map Some keys).
Proof.
  intros Hne r.
  assert (Hlen : (0 < List.length keys)%nat) by (destruct keys; [congruence|cbn; lia]).
  assert (Hr : (r < List.length keys)%nat) by (apply Nat.mod_upper_bound; lia).
  assert (E : nextKeys keys idx (List.length keys)
              = map Some (skipn r keys ++ firstn r keys)).
  { apply nth_error_ext. intros i.
    destruct (Nat.lt_ge_cases i (List.length keys)) as [Hi|Hi].
    - rewrite nextKeys_nth by assumption.
      rewrite nth_error_map, nth_error_rotate by assumption.
      subst r. rewrite Nat.Div0.add_mod_idemp_l.
      destruct (nth_error keys ((idx + i) mod List.length keys)%nat) as [k|] eqn:Ek;
        [reflexivity|].
      apply nth_error_None in Ek.
      pose proof (Nat.mod_upper_bound (idx + i) (List.length keys)). lia.
    - rewrite (proj2 (nth_error_None _ _)) by (rewrite nextKeys_length; lia).
      symmetry. apply nth_error_None.
      rewrite length_map, length_app, length_skipn, length_firstn. lia. }
  split; [exact E|]. rewrite E. apply Permutation_map.
  rewrite Permutation_app_comm, firstn_skipn. reflexivity.
Qed.

Lemma X1_rotation_is_fair_witness :
  nextKeys ["key0"; "key1"] 5 2 = [Some "key1"; Some "key0"].
Proof.
  exact (proj1 (@X1_rotation_is_fair ["key0"; "key1"] 5
                  ltac:(discriminate))).
Defined.

(* ------------------------------------------------------------------ *)
(** ** What a fetch asks of the upstream source *)

(** The requests of a window go out in window order, one per date, and
    stop at some point of the window. *)
Lemma fetchDates_prefix (env : environment) (o d apiKey : string)
  (dates : list string) :
  forall w,
  let w' := fetchDates env o d apiKey dates w in
  exists k, (k <= List.length dates)%nat /\
            calls w' = (calls w + k)%nat /\
            fetched_dates (console w') = fetched_dates (console w) ++ firstn k dates /\
            serpKeyIndex w' = serpKeyIndex w.
Proof.
  induction dates as [|dStr rest IH]; intros w; cbn [fetchDates].
  - exists 0%nat. cbn. rewrite app_nil_r. repeat split; auto; lia.
  - cbv zeta. cbn [log db serpKeyIndex console calls].
    destruct (upstream env (calls w) (request_for o d apiKey dStr)) as [data|msg].
    + match goal with |- context [fetchDates _ _ _ _ _ (fold_left ?f ?l ?w0)] =>
        pose proof (saveFlights_inv o d dStr (clock env (calls w))
                      (or_str (google_flights_url data) "") l w0) as Hs;
        specialize (IH (fold_left f l w0))
      end.
      cbv zeta in Hs, IH. cbn [calls console serpKeyIndex] in Hs.
      destruct Hs as (_ & K1 & C1 & F1 & _).
      destruct IH as (k & Hk & C2 & F2 & K2).
      exists (S k). cbn [List.length firstn].
      rewrite C2, F2, K2, C1, F1, K1, fetched_dates_app. cbn.
      rewrite ?app_nil_r, <- ?app_assoc. repeat split; auto; lia.
    + exists 1%nat. cbn [log console calls serpKeyIndex List.length firstn].
      rewrite !fetched_dates_app. cbn. rewrite !app_nil_r.
      repeat split; auto; lia.
Qed.

Lemma fetch_requests_prefix (env : environment) (keys : list string)
  (o d baseDateStr : string) (flexDays : nat) (w : world)
  (dates : list string) :
  keys <> [] ->
  datesToSearch (zone env) (legacyParse env) baseDateStr flexDays = Some dates ->
  let w' := world_of (fetchRealFlightPrices env keys o d baseDateStr flexDays w) in
  exists k, (k <= List.length dates)%nat /\
            calls w' = (calls w + k)%nat /\
            fetched_dates (console w') = fetched_dates (console w) ++ firstn k dates.
Proof.
  intros Hne Hd. unfold fetchRealFlightPrices, getNextSerpKey.
  destruct keys as [|k0 ks]; [congruence|].
  set (key := nth_error (k0 :: ks) _).
  destruct key as [apiKey|]; [destruct (truthy_str apiKey)|]; rewrite ?Hd;
    cbn [world_of log serpKeyIndex calls console].
  - match goal with |- context [fetchDates ?e ?a ?b ?c ?ds ?w0] =>
      destruct (fetchDates_prefix e a b c ds w0) as (k & Hk & C & F & K)
    end.
    cbn [calls console serpKeyIndex] in C, F, K. exists k. auto.
  - exists 0%nat.
    rewrite fetched_dates_app. cbn. rewrite !app_nil_r. repeat split; lia.
  - exists 0%nat.
    rewrite fetched_dates_app. cbn. rewrite !app_nil_r. repeat split; lia.
Qed.

(** X2. One call of [fetchRealFlightPrices] draws one key, whatever the
    size of the window and however the requests end, and makes at most one
    request per date of the window, in window order: the dates requested
    are a prefix of the window. *)
Theorem X2_one_key_prefix_of_window (env : environment) (keys : list string)
  (o d baseDateStr : string) (flexDays : nat) (w : world)
  (dates : list string) :
  keys <> [] ->
  datesToSearch (zone env) (legacyParse env) baseDateStr flexDays = Some dates ->
  let w' := world_of (fetchRealFlightPrices env keys o d baseDateStr flexDays w) in
  serpKeyIndex w' = S (serpKeyIndex w) /\
  exists k, (k <= List.length dates)%nat /\
            calls w' = (calls w + k)%nat /\
            fetched_dates (console w') = fetched_dates (console w) ++ firstn k dates.
Proof.
  intros Hne Hd. unfold fetchRealFlightPrices, getNextSerpKey.
  destruct keys as [|k0 ks]; [congruence|].
  set (key := nth_error (k0 :: ks) _).
  destruct key as [apiKey|]; [destruct (truthy_str apiKey)|]; rewrite ?Hd;
    cbn [world_of log serpKeyIndex calls console].
  - match goal with |- context [fetchDates ?e ?a ?b ?c ?ds ?w0] =>
      destruct (fetchDates_prefix e a b c ds w0) as (k & Hk & C & F & K)
    end.
    cbn [calls console serpKeyIndex] in C, F, K.
    split; [exact K|]. exists k. auto.
  - split; [reflexivity|]. exists 0%nat.
    rewrite fetched_dates_app. cbn. rewrite !app_nil_r. repeat split; lia.
  - split; [reflexivity|]. exists 0%nat.
    rewrite fetched_dates_app. cbn. rewrite !app_nil_r. repeat split; lia.
Qed.

Lemma X2_one_key_prefix_of_window_witness :
  serpKeyIndex (world_of (fetchRealFlightPrices env_second_fails ["key0"; "key1"]
                            "jfk" "mia" "2024-04-12" 1 empty_world)) = 1%nat.
Proof.
  apply (@X2_one_key_prefix_of_window env_second_fails ["key0"; "key1"]
           "jfk" "mia" "2024-04-12" 1 empty_world
           ["2024-04-12"; "2024-04-11"; "2024-04-13"]).
  - discriminate.
  - vm_compute. reflexivity.
Defined.

(** X3. When the upstream source answers every request of the window,
    every date of the window is requested once, in order, and nothing is
    logged as an error. *)
Theorem X3_all_answered (env : environment) (keys : list string)
  (o d baseDateStr : string) (flexDays : nat) (w : world)
  (apiKey : string) (idx : nat) (dates : list string) :
  getNextSerpKey keys (serpKeyIndex w) = (Some apiKey, idx) ->
  truthy_str apiKey = true ->
  datesToSearch (zone env) (legacyParse env) baseDateStr flexDays = Some dates ->
  (forall j dj, nth_error dates j = Some dj ->
     exists data,
       upstream env (calls w + j)
                (request_for (toUpperCase o) (toUpperCase d) apiKey dj)
       = Responds data) ->
  exists w',
    fetchRealFlightPrices env keys o d baseDateStr flexDays w = Returned w' /\
    fetched_dates (console w') = fetched_dates (console w) ++ dates /\
    logged_errors (console w') = logged_errors (console w) /\
    calls w' = (calls w + List.length dates)%nat.
Proof.
  intros Hkey Htr Hd Hok. unfold fetchRealFlightPrices.
  rewrite Hkey, Htr, Hd. eexists. split; [reflexivity|].
  match goal with |- context [fetchDates ?e ?a ?b ?c ?ds ?w0] =>
    apply (@fetchDates_all_respond e a b c ds w0)
  end.
  exact Hok.
Qed.

Lemma X3_all_answered_witness :
  exists w',
    fetchRealFlightPrices env_two_fares ["key0"] "jfk" "mia" "2024-04-12" 1
                          empty_world = Returned w' /\
    fetched_dates (console w') =
    fetched_dates (console empty_world)
    ++ ["2024-04-12"; "2024-04-11"; "2024-04-13"] /\
    logged_errors (console w') = logged_errors (console empty_world) /\
    calls w' = (calls empty_world + 3)%nat.
Proof.
  apply (@X3_all_answered env_two_fares ["key0"] "jfk" "mia" "2024-04-12" 1
           empty_world "key0" 1%nat ["2024-04-12"; "2024-04-11"; "2024-04-13"]).
  - reflexivity.
  - reflexivity.
  - vm_compute. reflexivity.
  - intros j dj _. exists two_fares. reflexivity.
Defined.

(* ------------------------------------------------------------------ *)
(** ** What a fetch writes, in full *)

Lemma saveFlight_row (o d dStr : string) (now : Z) (tok : string)
  (w : world) (f : candidate) :
  saveFlight o d dStr now tok w f = w \/
  exists r, saveFlight o d dStr now tok w f = log (LogSaved r) (insert_row r w) /\
            origin r = o /\ destination r = d /\ departure_date r = dStr /\
            0 <= stops r /\ truthy_num (price r) = true /\
            (includes (airline r) "JetBlue" = true \/
             includes (airline r) "JSX" = true).
Proof.
  unfold saveFlight.
  destruct (truthy_price (c_price f)) as [p|] eqn:Ep; auto.
  match goal with |- context [if ?c then _ else _] => destruct c eqn:Ei end; auto.
  right. eexists. split; [reflexivity|]. cbn.
  repeat split; auto.
  - destruct (c_flights f) as [[|l ls]|]; cbn [List.length]; lia.
  - destruct (c_price f) as [| |x]; cbn in Ep; try discriminate.
    destruct (truthy_num x) eqn:Ex; [|discriminate].
    injection Ep as <-. exact Ex.
  - now apply orb_true_iff.
Qed.

Lemma saveFlights_rows (o d dStr : string) (now : Z) (tok : string)
  (P : flight_row -> Prop) (fs : list candidate) :
  (forall r, origin r = o -> destination r = d -> departure_date r = dStr ->
             0 <= stops r -> truthy_num (price r) = true ->
             (includes (airline r) "JetBlue" = true \/
              includes (airline r) "JSX" = true) -> P r) ->
  forall w,
  exists new, db (fold_left (saveFlight o d dStr now tok) fs w) = db w ++ new /\
              Forall P new.
Proof.
  intros HP. induction fs as [|f fs IH]; intros w; cbn [fold_left].
  - exists []. rewrite app_nil_r. auto.
  - destruct (saveFlight_row o d dStr now tok w f)
      as [E|(r & E & Ho & Hd & Hdate & Hs & Hp & Ha)]; rewrite E.
    + apply IH.
    + destruct (IH (log (LogSaved r) (insert_row r w))) as (new & Hdb & Hall).
      cbn [log insert_row db] in Hdb.
      exists (r :: new). rewrite Hdb, <- app_assoc. split; [reflexivity|].
      constructor; auto.
Qed.

Lemma fetchDates_window_rows (env : environment) (o d apiKey : string)
  (P : flight_row -> Prop) (dates : list string) :
  (forall dStr r, In dStr dates ->
     origin r = o -> destination r = d -> departure_date r = dStr ->
     0 <= stops r -> truthy_num (price r) = true ->
     (includes (airline r) "JetBlue" = true \/
      includes (airline r) "JSX" = true) -> P r) ->
  forall w,
  exists new, db (fetchDates env o d apiKey dates w) = db w ++ new /\ Forall P new.
Proof.
  induction dates as [|dStr rest IH]; intros HP w; cbn [fetchDates].
  - exists []. rewrite app_nil_r. auto.
  - cbv zeta. cbn [log db serpKeyIndex console calls].
    destruct (upstream env (calls w) (request_for o d apiKey dStr)) as [data|msg].
    + match goal with |- context [fetchDates _ _ _ _ _ (fold_left ?f ?l ?w0)] =>
        destruct (@saveFlights_rows o d dStr (clock env (calls w))
                    (or_str (google_flights_url data) "") P l
                    (fun r Ho Hd Hdt => HP dStr r (or_introl eq_refl) Ho Hd Hdt) w0)
          as (n1 & E1 & F1);
        destruct (IH (fun ds r Hin => HP ds r (or_intror Hin)) (fold_left f l w0))
          as (n2 & E2 & F2)
      end.
      cbn [db] in E1.
      exists (n1 ++ n2). rewrite E2, E1, app_assoc. split; [reflexivity|].
      apply Forall_app; auto.
    + cbn [log db]. exists []. rewrite app_nil_r. auto.
Qed.

(** X4. A fetch only appends to the table: the rows that were there stay,
    in place, and every row it adds is for the upper-cased route of the
    call, carries a departure date of the window, a non-negative stop
    count, a price other than 0 and a tracked carrier. *)
Theorem X4_fetch_appends_window_rows (env : environment) (keys : list string)
  (o d baseDateStr : string) (flexDays : nat) (w : world)
  (dates : list string) :
  datesToSearch (zone env) (legacyParse env) baseDateStr flexDays = Some dates ->
  exists new,
    db (world_of (fetchRealFlightPrices env keys o d baseDateStr flexDays w))
    = db w ++ new /\
    Forall (window_row o d dates) new.
Proof.
  intros Hd. unfold fetchRealFlightPrices.
  destruct (getNextSerpKey keys (serpKeyIndex w)) as [[apiKey|] idx];
    [destruct (truthy_str apiKey)|]; rewrite ?Hd; cbn [world_of log db];
    try (exists []; rewrite app_nil_r; split; [reflexivity|constructor]).
  match goal with |- context [fetchDates ?e ?a ?b ?k ?ds ?w0] =>
    destruct (@fetchDates_window_rows e a b k (window_row o d dates) ds) with (w := w0)
      as (new & E & F)
  end.
  - intros dStr r Hin Ho Hdd Hdt Hs Hp Ha. unfold window_row, row_ok.
    rewrite Ho, Hdd, Hdt, !toUpperCase_idem. auto 10.
  - exists new. auto.
Qed.

Lemma X4_fetch_appends_window_rows_witness :
  exists new,
    db (world_of (fetchRealFlightPrices env_two_fares ["key0"] "jfk" "mia"
                    "2024-04-12" 1 empty_world))
    = db empty_world ++ new /\
    Forall (window_row "jfk" "mia" ["2024-04-12"; "2024-04-11"; "2024-04-13"]) new.
Proof.
  apply (@X4_fetch_appends_window_rows env_two_fares ["key0"] "jfk" "mia"
           "2024-04-12" 1 empty_world).
  vm_compute. reflexivity.
Defined.

(* ------------------------------------------------------------------ *)
(** ** The dates of a window are distinct *)








(* ------------------------------------------------------------------ *)
(** ** The search endpoint *)

Lemma saveFlights_console (o d dStr : string) (now : Z) (tok : string)
  (fs : list candidate) :
  forall w, exists c,
    console (fold_left (saveFlight o d dStr now tok) fs w) = console w ++ c.
Proof.
  induction fs as [|f fs IH]; intros w; cbn [fold_left].
  - exists []. now rewrite app_nil_r.
  - destruct (saveFlight_row o d dStr now tok w f) as [E|(r & E & _)]; rewrite E.
    + apply IH.
    + destruct (IH (log (LogSaved r) (insert_row r w))) as (c & Hc).
      cbn [log insert_row console] in Hc.
      exists (LogSaved r :: c). rewrite Hc, <- app_assoc. reflexivity.
Qed.

Lemma getNextSerpKey_truthy (keys : list string) (idx : nat) :
  keys <> [] -> Forall (fun k => truthy_str k = true) keys ->
  exists apiKey, getNextSerpKey keys idx = (Some apiKey, S idx) /\
                 truthy_str apiKey = true.
Proof.
  intros Hne Hall. unfold getNextSerpKey.
  destruct keys as [|k0 ks]; [congruence|].
  destruct (nth_error (k0 :: ks) (idx mod List.length (k0 :: ks))%nat) as [k|] eqn:E.
  - exists k. split; [reflexivity|].
    rewrite Forall_forall in Hall. apply Hall. eapply nth_error_In. exact E.
  - apply nth_error_None in E.
    pose proof (Nat.mod_upper_bound idx (List.length (k0 :: ks))). cbn in *. lia.
Qed.

(** A fetch of a single date, with a key at hand: it returns, the date is
    announced and requested, and the table only grows. *)
Lemma fetch_single_date (env : environment) (keys : list string)
  (o d dStr : string) (w : world) :
  keys <> [] -> Forall (fun k => truthy_str k = true) keys ->
  exists w' c new,
    fetchRealFlightPrices env keys o d dStr 0 w = Returned w' /\
    serpKeyIndex w' = S (serpKeyIndex w) /\
    console w' = console w ++ LogFetching (toUpperCase o) (toUpperCase d) dStr :: c /\
    fetched_dates (console w') = fetched_dates (console w) ++ [dStr] /\
    db w' = db w ++ new.
Proof.
  intros Hne Hall.
  destruct (getNextSerpKey_truthy (serpKeyIndex w) Hne Hall) as (apiKey & Hk & Ht).
  unfold fetchRealFlightPrices. rewrite Hk, Ht. cbn [datesToSearch].
  match goal with |- context [Returned ?x] => set (w1 := x) end.
  assert (Hidx : serpKeyIndex w1 = S (serpKeyIndex w)).
  { subst w1.
    match goal with |- context [fetchDates ?e ?a ?b ?k ?ds ?w0] =>
      destruct (fetchDates_rows e a b k ds w0) as (_ & K)
    end. exact K. }
  assert (Hf : fetched_dates (console w1) = fetched_dates (console w) ++ [dStr]).
  { subst w1. rewrite fetchDates_single. reflexivity. }
  assert (Hdb : exists new, db w1 = db w ++ new).
  { subst w1.
    match goal with |- context [fetchDates ?e ?a ?b ?k ?ds ?w0] =>
      destruct (fetchDates_rows e a b k ds w0) as ((new & E & _) & _)
    end. exists new. exact E. }
  assert (Hc : exists c, console w1
                         = console w ++ LogFetching (toUpperCase o) (toUpperCase d) dStr :: c).
  { subst w1. cbn [fetchDates]. cbv zeta. cbn [log db serpKeyIndex console calls].
    destruct (upstream env (calls w) _) as [data|msg].
    - match goal with |- context [fold_left ?f ?l ?w0] =>
        destruct (saveFlights_console (toUpperCase o) (toUpperCase d) dStr
                    (clock env (calls w)) (or_str (google_flights_url data) "")
                    l w0) as (c & E)
      end.
      rewrite E. cbn [console]. exists c. rewrite <- app_assoc. reflexivity.
    - cbn [log console]. exists [LogError msg]. rewrite <- app_assoc. reflexivity. }
  destruct Hc as (c & Hc). destruct Hdb as (new & Hdb).
  exists w1, c, new. auto.
Qed.

(** X6. A round-trip search for exact dates ([flexDays = 0]) with keys
    configured always answers with the success message, whatever the
    upstream source does. It draws two keys in a row, requests the
    outbound date for the upper-cased route and then the return date for
    the route with the two airports swapped, and only appends to the
    table. *)
Theorem X6_round_trip_search (env : environment) (keys : list string)
  (body : search_body) (w : world) (o d dStr rd : string) :
  keys <> [] -> Forall (fun k => truthy_str k = true) keys ->
  b_origin body = Some o -> b_destination body = Some d ->
  b_date body = Some dStr ->
  b_returnDate body = Some rd -> truthy_str rd = true ->
  b_flexDays body = 0%nat ->
  exists w',
    searchEndpoint env keys body w
    = (Json200 "Live search completed and prices stored.", w') /\
    serpKeyIndex w' = S (S (serpKeyIndex w)) /\
    fetched_dates (console w') = fetched_dates (console w) ++ [dStr; rd] /\
    In (LogFetching (toUpperCase o) (toUpperCase d) dStr) (console w') /\
    In (LogFetching (toUpperCase d) (toUpperCase o) rd) (console w') /\
    exists new, db w' = db w ++ new.
Proof.
  intros Hne Hall Ho Hd Hdt Hrd Htr Hfl.
  unfold searchEndpoint. rewrite Ho, Hd, Hdt, Hrd, Htr, Hfl. cbn [dflt].
  destruct keys as [|k0 ks] eqn:Ek; [congruence|]. rewrite <- Ek in *.
  destruct (fetch_single_date env o d dStr w Hne Hall)
    as (w1 & c1 & n1 & E1 & K1 & C1 & F1 & D1).
  rewrite E1.
  destruct (fetch_single_date env d o rd w1 Hne Hall)
    as (w2 & c2 & n2 & E2 & K2 & C2 & F2 & D2).
  rewrite E2. exists w2. split; [reflexivity|].
  split; [congruence|]. split; [rewrite F2, F1, <- app_assoc; reflexivity|].
  split; [|split].
  - rewrite C2, C1. apply in_or_app. left. apply in_or_app. right. now left.
  - rewrite C2. apply in_or_app. right. now left.
  - exists (n1 ++ n2). rewrite D2, D1, app_assoc. reflexivity.
Qed.

Lemma X6_round_trip_search_witness :
  exists w',
    searchEndpoint env_second_fails ["key0"; "key1"] round_trip_body empty_world
    = (Json200 "Live search completed and prices stored.", w') /\
    serpKeyIndex w' = 2%nat /\
    fetched_dates (console w') = ["2026-03-01"; "2026-03-08"] /\
    In (LogFetching "HPN" "PBI" "2026-03-01") (console w') /\
    In (LogFetching "PBI" "HPN" "2026-03-08") (console w').
Proof.
  destruct (@X6_round_trip_search env_second_fails ["key0"; "key1"]
              round_trip_body empty_world "hpn" "pbi" "2026-03-01" "2026-03-08")
    as (w' & H1 & H2 & H3 & H4 & H5 & _).
  - discriminate.
  - repeat constructor.
  - reflexivity.
  - reflexivity.
  - reflexivity.
  - reflexivity.
  - reflexivity.
  - reflexivity.
  - exists w'. auto.
Defined.

(* ------------------------------------------------------------------ *)
(** ** Without a key *)

Lemma handle_no_key (env : environment) (w : world) (e : server_event) :
  calls (handle env [] w e) = calls w /\
  serpKeyIndex (handle env [] w e) = serpKeyIndex w /\
  (is_seed e = false -> db (handle env [] w e) = db w).
Proof.
  destruct e as [today nows|body|]; cbn; auto.
  split; [reflexivity|]. split; [reflexivity|]. discriminate.
Qed.

(** X7. With no key configured, no sequence of searches, schedule ticks
    and seedings ever sends a request to the upstream source or moves the
    rotation index, and searches and ticks leave the table as it is. *)
Theorem X7_no_key_no_request (env : environment) (events : list server_event)
  (w : world) :
  calls (run env [] events w) = calls w /\
  serpKeyIndex (run env [] events w) = serpKeyIndex w /\
  (forallb (fun e => negb (is_seed e)) events = true ->
   db (run env [] events w) = db w).
Proof.
  revert w. induction events as [|e events IH]; intros w; [cbn; auto|].
  unfold run in *. cbn [fold_left forallb].
  destruct (handle_no_key env w e) as (C & K & D).
  destruct (IH (handle env [] w e)) as (C' & K' & D').
  split; [congruence|]. split; [congruence|].
  intros H. apply andb_true_iff in H as [He Hes].
  apply negb_true_iff in He. rewrite (D' Hes). auto.
Qed.

Lemma X7_no_key_no_request_witness :
  db (run env_two_fares [] [PostSearch sample_body; CronTick; PostSearch round_trip_body]
          empty_world) = db empty_world.
Proof.
  apply (proj2 (proj2 (X7_no_key_no_request env_two_fares
                         [PostSearch sample_body; CronTick; PostSearch round_trip_body]
                         empty_world))).
  reflexivity.
Defined.

(* ------------------------------------------------------------------ *)
(** ** What every stored row satisfies *)

Lemma fetched_row_ok (o d : string) (r : flight_row) :
  fetched_row (toUpperCase o) (toUpperCase d) r -> row_ok r.
Proof.
  intros (Ho & Hd & Hp & Ha). unfold row_ok.
  rewrite Ho, Hd, !toUpperCase_idem. auto.
Qed.

Lemma fetch_rows_ok (env : environment) (keys : list string)
  (o d baseDateStr : string) (flexDays : nat) (w : world) :
  exists new,
    db (world_of (fetchRealFlightPrices env keys o d baseDateStr flexDays w))
    = db w ++ new /\ Forall row_ok new.
Proof.
  destruct (fetch_rows env keys o d baseDateStr flexDays w) as (new & E & F).
  exists new. split; [exact E|].
  eapply Forall_impl; [|exact F]. intros r. apply fetched_row_ok.
Qed.

Lemma seed_rows_ok (i dateStr : Z) :
  0 <= i <= 7 -> Forall row_ok (seed_rows_of i dateStr).
Proof.
  intros Hi.
  assert (E : i = 0 \/ i = 1 \/ i = 2 \/ i = 3 \/ i = 4 \/ i = 5 \/ i = 6 \/ i = 7)
    by lia.
  apply Forall_forall. intros r Hr.
  repeat (destruct E as [-> | E]); try subst i;
    destruct Hr as [<-|[<-|[]]]; vm_compute; repeat split; auto.
Qed.

Lemma seedLoop_rows (tz : timezone) (today : Z) (nows : Z -> Z)
  (steps : list Z) :
  Forall (fun i => 0 <= i <= 7) steps ->
  forall rows, exists new,
    seedLoop tz today nows steps rows = rows ++ new /\ Forall row_ok new.
Proof.
  induction 1 as [|i steps Hi _ IH]; intros rows; cbn [seedLoop].
  - exists []. rewrite app_nil_r. auto.
  - destruct (pastDate tz today (nows i) i) as [dateStr|].
    + destruct (IH (rows ++ seed_rows_of i dateStr)) as (new & E & F).
      exists (seed_rows_of i dateStr ++ new). rewrite E, app_assoc.
      split; [reflexivity|]. apply Forall_app. split; [|exact F].
      now apply seed_rows_ok.
    + exists []. rewrite app_nil_r. auto.
Qed.

Lemma handle_rows (env : environment) (keys : list string) (w : world)
  (e : server_event) :
  exists new, db (handle env keys w e) = db w ++ new /\ Forall row_ok new.
Proof.
  destruct e as [today nows|body|]; cbn [handle].
  - unfold seed. cbn [db]. apply seedLoop_rows. repeat constructor; lia.
  - unfold searchEndpoint. destruct keys as [|k0 ks] eqn:Ek.
    { exists []. cbn. rewrite app_nil_r. auto. }
    rewrite <- Ek.
    match goal with |- context [fetchRealFlightPrices ?e ?k ?a ?b ?c ?f ?w0] =>
      destruct (fetch_rows_ok e k a b c f w0) as (n1 & E1 & F1);
      destruct (fetchRealFlightPrices e k a b c f w0) as [w1|w1] eqn:Ef
    end; cbn [world_of] in E1; [|exists n1; cbn [snd]; auto].
    destruct (b_returnDate body) as [rd|]; [|exists n1; cbn [snd]; auto].
    destruct (truthy_str rd); [|exists n1; cbn [snd]; auto].
    match goal with |- context [fetchRealFlightPrices ?e ?k ?a ?b ?c ?f w1] =>
      destruct (fetch_rows_ok e k a b c f w1) as (n2 & E2 & F2);
      destruct (fetchRealFlightPrices e k a b c f w1) as [w2|w2]
    end; cbn [world_of] in E2; cbn [snd];
      (exists (n1 ++ n2); rewrite E2, E1, app_assoc; split;
       [reflexivity|apply Forall_app; auto]).
  - apply fetch_rows_ok.
Qed.

Lemma Forall2_In_r (A B : Type) (R : A -> B -> Prop) (xs : list A) (ys : list B) (y : B) :
  Forall2 R xs ys -> In y ys -> exists x, In x xs /\ R x y.
Proof.
  induction 1 as [|x y' xs ys Hx _ IH]; intros Hin; [contradiction|].
  destruct Hin as [->|Hin].
  - exists x. split; [now left|exact Hx].
  - destruct (IH Hin) as (x' & Hx' & HR). exists x'. split; [now right|exact HR].
Qed.

(** Every insight is about an airline of the window. *)
Lemma deriveInsights_airlines (rows : list flight_row) (i : insight) :
  In i (deriveInsights rows) -> In (i_airline i) (map airline rows).
Proof.
  intros Hin.
  destruct (deriveInsights_shape rows) as (bests & ls & E & Hb & Hf & _).
  rewrite E in Hin. apply in_app_or in Hin as [Hin|Hin].
  - destruct (@Forall2_In_r _ _ _ _ _ i Hb Hin) as (a & Ha & HR).
    apply byAirline_keys_In in Ha.
    destruct (best_price_insight_kind HR) as [-> _]. exact Ha.
  - apply in_concat in Hin as (l & Hl & Hil).
    destruct (@Forall2_In_r _ _ _ _ _ l Hf Hl) as (a & Ha & HR).
    apply byAirline_keys_In in Ha.
    pose proof (flex_outcome_kind HR) as Hk. rewrite Forall_forall in Hk.
    destruct (Hk i Hil) as [-> _]. exact Ha.
Qed.

(** X8. Whatever the server is asked to do (seed, search, schedule tick),
    the table only grows, and if every row it held had a tracked carrier,
    a price other than 0 and upper-case airports, so has every row it
    holds afterwards; the insight endpoint then only ever reports on
    tracked carriers. *)
Theorem X8_rows_stay_ok (env : environment) (keys : list string)
  (events : list server_event) (w : world) :
  Forall row_ok (db w) ->
  let w' := run env keys events w in
  (exists new, db w' = db w ++ new) /\
  Forall row_ok (db w') /\
  forall qo qd i,
    In i (insightsEndpoint qo qd (db w')) ->
    includes (i_airline i) "JetBlue" = true \/ includes (i_airline i) "JSX" = true.
Proof.
  intros Hok. cbv zeta.
  assert (H : (exists new, db (run env keys events w) = db w ++ new) /\
              Forall row_ok (db (run env keys events w))).
  { revert w Hok. induction events as [|e events IH]; intros w Hok.
    - cbn. split; [exists []; now rewrite app_nil_r|exact Hok].
    - unfold run in *. cbn [fold_left].
      destruct (handle_rows env keys w e) as (n1 & E1 & F1).
      destruct (IH (handle env keys w e)) as ((n2 & E2) & F2).
      { rewrite E1. apply Forall_app. auto. }
      split; [|exact F2].
      exists (n1 ++ n2). rewrite E2, E1, app_assoc. reflexivity. }
  destruct H as [Hgrow Hall]. split; [exact Hgrow|]. split; [exact Hall|].
  intros qo qd i Hi. unfold insightsEndpoint in Hi.
  apply deriveInsights_airlines, in_map_iff in Hi as (r & <- & Hr).
  apply queryRecent_window in Hr.
  rewrite Forall_forall in Hall. apply (Hall r Hr).
Qed.

Lemma X8_rows_stay_ok_witness :
  Forall row_ok (db (run env_two_fares ["key0"] sample_events empty_world)).
Proof.
  apply (@X8_rows_stay_ok env_two_fares ["key0"] sample_events empty_world).
  constructor.
Defined.

(* ------------------------------------------------------------------ *)
(** ** The two queries *)

Lemma StronglySorted_app (A : Type) (R : A -> A -> Prop) (l1 l2 : list A) :
  StronglySorted R (l1 ++ l2) ->
  StronglySorted R l1 /\ forall x y, In x l1 -> In y l2 -> R x y.
Proof.
  induction l1 as [|a l1 IH]; cbn [app]; intros H.
  - split; [constructor|intros x y []].
  - inversion H as [|? ? Hs Hall]; subst.
    destruct (IH Hs) as [Hs1 Hcross]. rewrite Forall_forall in Hall. split.
    + constructor; [exact Hs1|]. apply Forall_forall. intros x Hx.
      apply Hall, in_or_app. now left.
    + intros x y [<-|Hx] Hy; [|auto]. apply Hall, in_or_app. now right.
Qed.

(** X9. The window of the insight query is in descending [scraped_at]
    order, holds at most 100 rows, all of them selected rows, and they are
    the most recent ones: the selected rows split into the window and a
    rest none of whose rows is more recent than a row of the window. When
    at most 100 rows are selected the window holds them all. *)
Theorem X9_recent_window (qo qd : option string) (table : list flight_row) :
  StronglySorted (fun a b => scraped_at b <= scraped_at a)
                 (queryRecent qo qd table) /\
  (List.length (queryRecent qo qd table)
   = Nat.min 100 (List.length (select_rows qo qd table))) /\
  exists rest,
    Permutation (queryRecent qo qd table ++ rest) (select_rows qo qd table) /\
    forall r r', In r (queryRecent qo qd table) -> In r' rest ->
                 scraped_at r' <= scraped_at r.
Proof.
  unfold queryRecent.
  set (sel := select_rows qo qd table).
  set (le := fun a b : flight_row => scraped_at b <=? scraped_at a).
  assert (Hs : StronglySorted (fun a b => scraped_at b <= scraped_at a) (sort_by le sel)).
  { eapply StronglySorted_weaken; [|apply (@sort_by_sorted _ le)]; unfold le.
    - intros a b H. now apply Z.leb_le.
    - intros a b H. apply Z.leb_gt in H. apply Z.leb_le. lia.
    - intros a b c H1 H2. apply Z.leb_le in H1, H2. apply Z.leb_le. lia. }
  rewrite <- (firstn_skipn 100 (sort_by le sel)) in Hs.
  apply StronglySorted_app in Hs as [Hs1 Hcross].
  split; [exact Hs1|]. split.
  - rewrite length_firstn, (Permutation_length (sort_by_perm le sel)). reflexivity.
  - exists (skipn 100 (sort_by le sel)). split.
    + rewrite firstn_skipn. apply sort_by_perm.
    + intros r r' Hr Hr'. apply (Hcross r r' Hr Hr').
Qed.

(** X10. Both read endpoints filter by route only when both airports are
    given and non-empty: with one of them missing or empty the history
    is the whole table, sorted, and the insights are those of the whole
    table. In every case the history holds each selected row once. *)
Theorem X10_incomplete_filter (qo qd : option string) (table : list flight_row) :
  (qo = None \/ qo = Some "" \/ qd = None \/ qd = Some "" ->
   queryHistory qo qd table = queryHistory None None table /\
   Permutation (queryHistory qo qd table) table /\
   insightsEndpoint qo qd table = insightsEndpoint None None table) /\
  Permutation (queryHistory qo qd table) (select_rows qo qd table).
Proof.
  split; [|apply sort_by_perm].
  intros H.
  assert (E : select_rows qo qd table = table).
  { unfold select_rows.
    destruct qo as [o|]; [|reflexivity].
    destruct qd as [d|]; [|reflexivity].
    destruct H as [H | [H | [H | H]]]; try discriminate;
      injection H as ->; cbn [truthy_str andb]; [reflexivity|].
    now rewrite andb_false_r. }
  unfold queryHistory, insightsEndpoint, queryRecent. rewrite E.
  split; [reflexivity|]. split; [apply sort_by_perm|reflexivity].
Qed.

Lemma X10_incomplete_filter_witness :
  queryHistory (Some "JFK") None two_dates = queryHistory None None two_dates /\
  Permutation (queryHistory (Some "JFK") None two_dates) two_dates /\
  insightsEndpoint (Some "JFK") None two_dates = insightsEndpoint None None two_dates.
Proof.
  apply (proj1 (X10_incomplete_filter (Some "JFK") None two_dates)).
  right. right. left. reflexivity.
Defined.

(* ------------------------------------------------------------------ *)
(** ** The order and the number of the insights *)

Lemma byAirline_keys_fold (rows : list flight_row) :
  forall m,
  map fst (fold_left (fun m r =>
                        match obj_get m (airline r) with
                        | None => obj_set m (airline r) [r]
                        | Some l => obj_set m (airline r) (l ++ [r])
                        end) rows m)
  = fold_left (fun acc x => if existsb (String.eqb x) acc then acc else acc ++ [x])
              (map airline rows) (map fst m).
Proof.
  induction rows as [|r rows IH]; intros m; cbn [fold_left map]; [reflexivity|].
  rewrite IH. f_equal.
  destruct (existsb (String.eqb (airline r)) (map fst m)) eqn:E.
  - apply existsb_eqb_In in E.
    destruct (obj_get m (airline r)) as [l|] eqn:G.
    + now apply keys_set_old.
    + apply obj_get_None in G. contradiction.
  - assert (Hn : ~ In (airline r) (map fst m)).
    { intros H. apply existsb_eqb_In in H. congruence. }
    destruct (obj_get m (airline r)) as [l|] eqn:G.
    + apply obj_get_In, (in_map fst) in G. contradiction.
    + now apply keys_set_new.
Qed.

Lemma byAirline_keys (rows : list flight_row) :
  map fst (byAirline rows) = set_of (map airline rows).
Proof. apply (byAirline_keys_fold rows []). Qed.

Lemma Forall2_map_key (A B : Type) (R : A -> B -> Prop) (f : B -> A)
  (xs : list A) (ys : list B) :
  (forall x y, R x y -> f y = x) -> Forall2 R xs ys -> map f ys = xs.
Proof.
  intros HR. induction 1 as [|x y xs ys Hx _ IH]; [reflexivity|].
  cbn [map]. now rewrite (HR _ _ Hx), IH.
Qed.

Lemma filter_all (A : Type) (f : A -> bool) (b : bool) (l : list A) :
  Forall (fun x => f x = b) l -> filter f l = if b then l else [].
Proof.
  induction 1 as [|x l Hx _ IH]; cbn [filter]; [now destruct b|].
  rewrite Hx, IH. now destruct b.
Qed.

Lemma filter_kind_app (bests flexes : list insight) :
  Forall (fun i => is_flex i = false) bests ->
  Forall (fun i => is_flex i = true) flexes ->
  filter (fun i => negb (is_flex i)) (bests ++ flexes) = bests /\
  filter is_flex (bests ++ flexes) = flexes.
Proof.
  intros Hb Hf. rewrite !filter_app. split.
  - rewrite (@filter_all _ (fun i => negb (is_flex i)) true bests),
            (@filter_all _ (fun i => negb (is_flex i)) false flexes).
    + apply app_nil_r.
    + eapply Forall_impl; [|exact Hf]. intros i H. cbn. now rewrite H.
    + eapply Forall_impl; [|exact Hb]. intros i H. cbn. now rewrite H.
  - rewrite (@filter_all _ is_flex false bests Hb),
            (@filter_all _ is_flex true flexes Hf). reflexivity.
Qed.

(** The two parts of the response, with the group sizes they answer to *)
Lemma response_parts (rows : list flight_row) :
  exists bests ls,
    deriveInsights rows = bests ++ List.concat ls /\
    Forall2 (fun a i => best_price_insight (group_of rows a) a i)
            (set_of (map airline rows)) bests /\
    Forall2 (fun a l => flex_outcome (group_of rows a) a l)
            (set_of (map airline rows)) ls /\
    Forall (fun i => is_flex i = false) bests /\
    Forall (fun i => is_flex i = true) (List.concat ls).
Proof.
  destruct (deriveInsights_shape rows) as (bests & ls & E & Hb & Hf & _).
  rewrite byAirline_keys in Hb, Hf.
  exists bests, ls. split; [exact E|]. split; [exact Hb|]. split; [exact Hf|].
  split.
  - clear -Hb. induction Hb as [|x i xs l Hx _ IH]; constructor; auto.
    apply (best_price_insight_kind Hx).
  - clear -Hf. induction Hf as [|x l xs ls Hx _ IH]; cbn [List.concat];
      [constructor|].
    apply Forall_app. split; [|exact IH].
    eapply Forall_impl; [|apply (flex_outcome_kind Hx)]. now intros i [_ H].
Qed.

(** X11. The buy and wait insights of the response are one per airline
    of the window, in the order in which the airlines first appear in the
    window (the most recent observation first). *)
Theorem X11_airline_order (rows : list flight_row) :
  map i_airline (filter (fun i => negb (is_flex i)) (deriveInsights rows))
  = set_of (map airline rows).
Proof.
  destruct (response_parts rows) as (bests & ls & E & Hb & Hf & Kb & Kf).
  destruct (filter_kind_app Kb Kf) as [F1 F2]. rewrite E, F1.
  eapply Forall2_map_key; [|exact Hb].
  intros a i H. apply (best_price_insight_kind H).
Qed.

Lemma filter_split_bound (rows : list flight_row) (a : string) (xs : list string) :
  ~ In a xs ->
  (List.length (group_of rows a)
   + List.length (filter (fun r => existsb (String.eqb (airline r)) xs) rows)
   <= List.length (filter (fun r => existsb (String.eqb (airline r)) (a :: xs)) rows))%nat.
Proof.
  intros Hn. unfold group_of.
  induction rows as [|r rows IH]; cbn [filter existsb]; [cbn; lia|].
  destruct (String.eqb_spec (airline r) a) as [E|E]; cbn [orb].
  - assert (Hx : existsb (String.eqb (airline r)) xs = false).
    { destruct (existsb (String.eqb (airline r)) xs) eqn:Ex; [|reflexivity].
      apply existsb_eqb_In in Ex. rewrite E in Ex. contradiction. }
    rewrite Hx. cbn [List.length]. cbn [existsb] in IH. lia.
  - destruct (existsb (String.eqb (airline r)) xs); cbn [List.length];
      cbn [existsb] in IH; lia.
Qed.

Lemma flex_needs_two_rows (g : list flight_row) :
  flex_condition g -> (2 <= List.length g)%nat.
Proof.
  intros [H _]. unfold distinct_nonempty_dates in H.
  pose proof (NoDup_incl_length (NoDup_nodup string_dec
                (filter truthy_str (map departure_date g)))
                (fun x Hx => proj1 (nodup_In string_dec _ x) Hx)) as H1.
  pose proof (filter_length_le truthy_str (map departure_date g)) as H2.
  rewrite length_map in H2. lia.
Qed.

Lemma parts_bound (rows : list flight_row) (xs : list string) :
  forall bests ls,
  NoDup xs ->
  (forall a, In a xs -> group_of rows a <> []) ->
  Forall2 (fun a i => best_price_insight (group_of rows a) a i) xs bests ->
  Forall2 (fun a l => flex_outcome (group_of rows a) a l) xs ls ->
  List.length bests = List.length xs /\
  (List.length bests + List.length (List.concat ls)
   <= List.length (filter (fun r => existsb (String.eqb (airline r)) xs) rows))%nat.
Proof.
  induction xs as [|a xs IH]; intros bests ls Hnd Hne Hb Hf.
  - inversion Hb; inversion Hf; subst. cbn. split; lia.
  - inversion Hb as [|? i ? bests' _ Hb']; subst.
    inversion Hf as [|? fl ? ls' Hl Hf']; subst.
    inversion Hnd as [|? ? Hnotin Hnd']; subst.
    destruct (IH bests' ls' Hnd' (fun b Hb0 => Hne b (or_intror Hb0)) Hb' Hf')
      as [Hlen Hle].
    pose proof (@filter_split_bound rows a xs Hnotin) as Hsplit.
    assert (Hg : (1 + List.length fl <= List.length (group_of rows a))%nat).
    { destruct Hl as [(Hc & j & -> & _)|(_ & ->)].
      - apply flex_needs_two_rows in Hc. cbn. lia.
      - specialize (Hne a (or_introl eq_refl)).
        destruct (group_of rows a); [congruence|cbn; lia]. }
    cbn [List.length List.concat]. rewrite length_app. split; lia.
Qed.

Lemma deriveInsights_length (rows : list flight_row) :
  (List.length (set_of (map airline rows)) <= List.length (deriveInsights rows))%nat /\
  (List.length (deriveInsights rows) <= List.length rows)%nat.
Proof.
  destruct (response_parts rows) as (bests & ls & E & Hb & Hf & _).
  destruct (@parts_bound rows (set_of (map airline rows)) bests ls) as [Hlen Hle]; auto.
  - apply set_of_NoDup.
  - intros a Ha. apply group_of_nonempty. now apply set_of_In.
  - rewrite E, length_app.
    pose proof (filter_length_le
                  (fun r => existsb (String.eqb (airline r)) (set_of (map airline rows)))
                  rows).
    lia.
Qed.

Lemma insightsEndpoint_length (qo qd : option string) (table : list flight_row) :
  (List.length (insightsEndpoint qo qd table) <= 100)%nat.
Proof.
  unfold insightsEndpoint.
  destruct (deriveInsights_length (queryRecent qo qd table)) as [_ Hle].
  pose proof (proj1 (queryRecent_window qo qd table)). lia.
Qed.

(** X12. The response holds one insight per airline of the window and at
    most one more for each, and never more insights than the window has
    rows; the insight endpoint therefore answers with at most 100
    insights. *)
Theorem X12_insight_count (rows : list flight_row) :
  (List.length (set_of (map airline rows)) <= List.length (deriveInsights rows))%nat /\
  (List.length (deriveInsights rows) <= 2 * List.length (set_of (map airline rows)))%nat /\
  (List.length (deriveInsights rows) <= List.length rows)%nat /\
  forall qo qd table, (List.length (insightsEndpoint qo qd table) <= 100)%nat.
Proof.
  pose proof deriveInsights_length as H.
  destruct (H rows) as [H1 H2]. split; [exact H1|]. split; [|split; [exact H2|]].
  - destruct (response_parts rows) as (bests & ls & E & Hb & Hf & _).
    rewrite E, length_app.
    assert (Hl1 : List.length bests = List.length (set_of (map airline rows)))
      by (symmetry; eapply Forall2_length; exact Hb).
    assert (Hl2 : (List.length (List.concat ls) <= List.length (set_of (map airline rows)))%nat).
    { clear -Hf. induction Hf as [|a l xs ls Ha _ IH]; [cbn; lia|].
      cbn [List.concat List.length]. rewrite length_app.
      destruct Ha as [(_ & j & -> & _)|(_ & ->)]; cbn; lia. }
    lia.
  - apply insightsEndpoint_length.
Qed.

(* ------------------------------------------------------------------ *)
(** ** The price and the savings of a flex insight *)

Lemma num_eq_trans (a b c : num) :
  num_eq a b = true -> num_eq b c = true -> num_eq a c = true.
Proof.
  intros H1 H2. destruct (num_eq_true _ _ H1) as (Ha & Hb & L1 & L2).
  destruct (num_eq_true _ _ H2) as (_ & Hc & L3 & L4).
  apply num_le_antisym.
  - apply (num_le_trans a b c); auto.
  - apply (num_le_trans c b a); auto.
Qed.

Lemma per_date_cheapest_spec (g : list flight_row) (dStr : string) :
  In dStr (map departure_date g) ->
  is_nan (per_date_cheapest g dStr) = false /\
  In (per_date_cheapest g dStr) (prices_of g) /\
  forall r, In r g -> departure_date r = dStr ->
            num_le (per_date_cheapest g dStr) (price r) = true.
Proof.
  intros Hd. unfold per_date_cheapest.
  set (fg := on_date g dStr).
  assert (Hne : prices_of fg <> []).
  { apply in_map_iff in Hd as (r & Hr & Hin).
    assert (In r fg) by (apply filter_In; split; [exact Hin|now apply String.eqb_eq]).
    destruct fg; [contradiction|discriminate]. }
  destruct (@Math_min_spec _ Hne (prices_not_nan fg)) as (Hn & Hin & Hlb).
  rewrite Forall_forall in Hlb. split; [exact Hn|]. split.
  - apply in_map_iff in Hin as (r & Hr & Hrin).
    apply filter_In in Hrin as [Hrin _]. rewrite <- Hr.
    unfold prices_of. now apply (in_map (fun f => num_of (price f))).
  - intros r Hr Hdr. apply Hlb. unfold prices_of.
    apply (in_map (fun f => num_of (price f))), filter_In.
    split; [exact Hr|now apply String.eqb_eq].
Qed.

(** The least of the per-date cheapest prices is a price of the group. *)
Lemma cheapest_date_price_spec (g : list flight_row) :
  date_keys g <> [] ->
  In (cheapest_date_price g) (prices_of g) /\
  num_le (Math_min (prices_of g)) (cheapest_date_price g) = true.
Proof.
  intros Hk. unfold cheapest_date_price.
  assert (Hne : map (per_date_cheapest g) (date_keys g) <> [])
    by (destruct (date_keys g); [congruence|discriminate]).
  destruct (@Math_min_spec _ Hne (per_date_not_nan g)) as (_ & Hin & _).
  apply in_map_iff in Hin as (d & Hd & Hdk).
  assert (Hdd : In d (map departure_date g)).
  { unfold date_keys in Hdk. apply nodup_In, filter_In in Hdk. tauto. }
  destruct (per_date_cheapest_spec g d Hdd) as (_ & Hp & _).
  rewrite <- Hd. split; [exact Hp|].
  assert (Hg : prices_of g <> []) by (intros E; rewrite E in Hp; contradiction).
  destruct (@Math_min_spec _ Hg (prices_not_nan g)) as (_ & _ & Hlb).
  rewrite Forall_forall in Hlb. now apply Hlb.
Qed.

(** It is the least price of the group when no date of the group names
    an inherited member. *)
Lemma per_date_min_overall (g : list flight_row) :
  date_keys g <> [] ->
  (forall r, In r g -> inherited (departure_date r) = false) ->
  num_eq (cheapest_date_price g) (Math_min (prices_of g)) = true.
Proof.
  intros Hk Hinh.
  destruct (@cheapest_date_price_spec g Hk) as [Hin Hle].
  pose proof (prices_not_nan g) as Hall. rewrite Forall_forall in Hall.
  apply Math_min_unique.
  - apply prices_not_nan.
  - exists (cheapest_date_price g). split; [exact Hin|].
    apply num_eq_refl. now apply Hall.
  - intros p Hp. apply in_map_iff in Hp as (r & <- & Hr).
    assert (Hd : In (departure_date r) (date_keys g)).
    { unfold date_keys. apply nodup_In, filter_In.
      split; [now apply in_map|]. rewrite (Hinh r Hr). reflexivity. }
    unfold cheapest_date_price.
    assert (Hne : map (per_date_cheapest g) (date_keys g) <> [])
      by (destruct (date_keys g); [congruence|discriminate]).
    destruct (@Math_min_spec _ Hne (per_date_not_nan g)) as (Hn & _ & Hlb).
    rewrite Forall_forall in Hlb.
    pose proof (Hlb _ (in_map (per_date_cheapest g) _ _ Hd)) as H1.
    destruct (per_date_cheapest_spec g (departure_date r)
                (in_map departure_date _ _ Hr)) as (Hn2 & _ & H2).
    apply (num_le_trans _ (per_date_cheapest g (departure_date r)) _);
      auto using num_of_not_nan.
Qed.

(** With an observation at $10 on a date spelt [constructor], and others
    at $100 and $200 on two days, the flex insight reports 100: the
    observation at $10 never enters [cheapestByDate]. *)
Lemma inherited_date_flex_price :
  exists b f,
    deriveInsights inherited_date_window = [b; f] /\
    type f = flex /\ i_price b = num_of_Z 10 /\ i_price f = num_of_Z 100 /\
    savings f = Some (num_of_Z 100).
Proof.
  eexists. eexists. split; [vm_compute; reflexivity|].
  repeat split; vm_compute; reflexivity.
Qed.

(** X13. A flex insight reports a price that is not below the least
    price of its airline, which is the price its best-price insight
    reports, and its savings exceed 20. When no observation of the
    airline has a departure date that names a member of
    [Object.prototype], the flex insight reports the least price of the
    airline. *)
Theorem X13_flex_price_and_savings (rows : list flight_row) (i : insight) :
  In i (deriveInsights rows) -> type i = flex ->
  exists b s,
    best_price_of (i_airline i) (deriveInsights rows) = [b] /\
    i_price b = Math_min (prices_of (group_of rows (i_airline i))) /\
    num_le (i_price b) (i_price i) = true /\
    ((forall r, In r (group_of rows (i_airline i)) ->
                inherited (departure_date r) = false) ->
     num_eq (i_price i) (i_price b) = true) /\
    savings i = Some s /\ num_lt lit_20 s = true.
Proof.
  intros Hin Ht.
  pose proof (deriveInsights_airlines rows i Hin) as Ha.
  destruct (insights_of_airline rows (i_airline i) Ha)
    as (b & l & Eb & (_ & Hpb & _) & El & Hl).
  assert (Hil : In i l).
  { rewrite <- El. apply filter_In. split; [exact Hin|].
    unfold is_flex. rewrite Ht, String.eqb_refl. reflexivity. }
  destruct Hl as [((_ & H20) & j & -> & _ & _ & Hpj & Hs)|(_ & ->)];
    [|contradiction].
  destruct Hil as [<-|[]].
  set (g := group_of rows (i_airline j)) in *.
  assert (Hk : date_keys g <> []).
  { intros E. rewrite (date_spread_no_key _ E) in H20. discriminate. }
  destruct (@cheapest_date_price_spec g Hk) as [_ Hle].
  destruct (num_eq_true _ _ Hpj) as (N1 & N2 & _ & L2).
  destruct (num_le_not_nan _ _ Hle) as [N3 _].
  exists b, (date_spread g). split; [exact Eb|]. split; [exact Hpb|].
  split; [|split; [|split; [exact Hs|exact H20]]].
  - rewrite Hpb. apply (num_le_trans _ (cheapest_date_price g) _); auto.
  - intros Hinh. rewrite Hpb.
    apply (num_eq_trans _ (cheapest_date_price g) _); [exact Hpj|].
    now apply per_date_min_overall.
Qed.

Lemma X13_flex_price_and_savings_witness :
  exists b s,
    best_price_of "JetBlue" (deriveInsights two_dates) = [b] /\
    num_le (i_price b) (usd 100) = true /\
    num_eq (usd 100) (i_price b) = true /\
    savings two_dates_flex = Some s /\ num_lt lit_20 s = true.
Proof.
  destruct (@X13_flex_price_and_savings two_dates two_dates_flex)
    as (b & s & H1 & _ & H2 & H3 & H4 & H5).
  - vm_compute. right. left. reflexivity.
  - reflexivity.
  - exists b, s. split; [exact H1|]. split; [exact H2|].
    split; [|split; [exact H4|exact H5]].
    apply H3. intros r [<-|[<-|[]]]; reflexivity.
Defined.

(* ------------------------------------------------------------------ *)
(** ** Where a best-price insight takes its date and link from *)

Lemma find_first (A : Type) (f : A -> bool) (l : list A) (c : A) :
  find f l = Some c ->
  exists pre post, l = pre ++ c :: post /\ f c = true /\
                   forall r, In r pre -> f r = false.
Proof.
  induction l as [|x l IH]; cbn [find]; [discriminate|].
  destruct (f x) eqn:E.
  - intros [= <-]. exists [], l. repeat split; auto. intros r [].
  - intros H. destruct (IH H) as (pre & post & -> & Hc & Hpre).
    exists (x :: pre), post. repeat split; auto.
    intros r [<-|Hr]; auto.
Qed.

Lemma bestPriceStep_provenance (m : list (string * list flight_row))
  (n : nat) (acc : list insight) (a : string) :
  flights_of m a <> [] ->
  exists i, bestPriceStep m (n, acc) a = (S n, acc ++ [i]) /\
            provenance (flights_of m a) a i.
Proof.
  intros Hne. unfold bestPriceStep.
  destruct (find_minPrice Hne) as [c Hc]. rewrite Hc.
  destruct (find_first _ _ Hc) as (pre & post & E & Hp & Hpre).
  eexists. split; [reflexivity|].
  assert (Hfirst : first_at_price (flights_of m a)
                     (Math_min (prices_of (flights_of m a))) c).
  { exists pre, post. split; [exact E|]. split; [exact Hp|exact Hpre]. }
  unfold provenance.
  destruct (num_lt _ _); [|destruct (num_lt _ _)];
    cbn [i_airline type i_price date searchUrl flightDetail];
    (split; [reflexivity|]; split; [discriminate|]; split; [reflexivity|];
     exists c; auto).
Qed.

Lemma bestPrice_fold_provenance (m : list (string * list flight_row))
  (airlines : list string) :
  forall n acc,
  (forall a, In a airlines -> flights_of m a <> []) ->
  exists l,
    fold_left (bestPriceStep m) airlines (n, acc)
    = ((n + List.length airlines)%nat, acc ++ l) /\
    Forall2 (fun a i => provenance (flights_of m a) a i) airlines l.
Proof.
  induction airlines as [|a airlines IH]; intros n acc Hne; cbn [fold_left].
  - exists []. rewrite app_nil_r, Nat.add_0_r. split; constructor.
  - destruct (@bestPriceStep_provenance m n acc a (Hne a (or_introl eq_refl)))
      as (i & E & Hi).
    rewrite E.
    destruct (IH (S n) (acc ++ [i])) as (l & El & Hl).
    { intros b Hb. apply Hne. now right. }
    exists (i :: l). rewrite El, <- app_assoc. cbn [List.length app]. split.
    + f_equal. lia.
    + constructor; assumption.
Qed.

(** X15. A buy or wait insight takes its date, its search link and its
    flight detail from the first observation of its airline in the window
    (the most recent one) whose price is the least price of the airline,
    and reports that price. *)
Theorem X15_best_price_provenance (rows : list flight_row) (i : insight) :
  In i (deriveInsights rows) -> type i <> flex ->
  exists c,
    first_at_price (group_of rows (i_airline i)) (i_price i) c /\
    (forall r, In r (group_of rows (i_airline i)) ->
               num_le (i_price i) (price r) = true) /\
    date i = Some (departure_date c) /\
    searchUrl i = Some (buildGFUrl (origin c) (destination c) (departure_date c)) /\
    flightDetail i = Some (flightDetail_of c).
Proof.
  intros Hin Ht.
  destruct rows as [|r0 rows'] eqn:Erows; [contradiction|].
  rewrite <- Erows in *. assert (Hrows : rows <> []) by (subst; discriminate).
  clear Erows.
  assert (Hshape : exists l ls, deriveInsights rows = l ++ List.concat ls /\
            Forall2 (fun a j => provenance (group_of rows a) a j)
                    (map fst (byAirline rows)) l /\
            Forall2 (fun a fl => flex_outcome (group_of rows a) a fl)
                    (map fst (byAirline rows)) ls).
  { unfold deriveInsights. destruct rows as [|r rs] eqn:E; [congruence|].
    rewrite <- E. clear E. cbv zeta.
    set (m := byAirline rows). set (airlines := map fst m).
    destruct (@bestPrice_fold_provenance m airlines 1 []) as (l & El & Hl).
    { intros a Ha. unfold m. rewrite byAirline_flights.
      apply group_of_nonempty. now apply byAirline_keys_In. }
    rewrite El.
    destruct (flex_fold m airlines (1 + List.length airlines) ([] ++ l))
      as (ls & Ef & Hf & _).
    rewrite Ef. cbn [snd app]. exists l, ls. split; [reflexivity|]. split.
    - eapply Forall2_impl; [|exact Hl]. intros a j H.
      unfold m in H. now rewrite byAirline_flights in H.
    - eapply Forall2_impl; [|exact Hf]. intros a fl H.
      unfold m in H. now rewrite byAirline_flights in H. }
  destruct Hshape as (l & ls & E & Hl & Hf).
  rewrite E in Hin. apply in_app_or in Hin as [Hin|Hin].
  - destruct (@Forall2_In_r _ _ _ _ _ i Hl Hin)
      as (a & Ha & (Hia & _ & Hp & c & Hc & Hd & Hu & Hfd)).
    subst a. exists c. split; [exact Hc|]. split; [|auto].
    intros r Hr.
    assert (Hne : prices_of (group_of rows (i_airline i)) <> []).
    { destruct (group_of rows (i_airline i)); [contradiction|discriminate]. }
    destruct (@Math_min_spec _ Hne (prices_not_nan _)) as (_ & _ & Hlb).
    rewrite Forall_forall in Hlb.
    rewrite Hp. apply Hlb. unfold prices_of.
    now apply (in_map (fun f => num_of (price f))).
  - exfalso. apply in_concat in Hin as (fl & Hfl & Hifl).
    destruct (@Forall2_In_r _ _ _ _ _ fl Hf Hfl) as (a & _ & HR).
    pose proof (flex_outcome_kind HR) as Hk. rewrite Forall_forall in Hk.
    destruct (Hk i Hifl) as [_ Hflex]. unfold is_flex in Hflex.
    destruct (type i); congruence.
Qed.

Lemma X15_best_price_provenance_witness :
  exists c,
    first_at_price (group_of one_low_fare "JetBlue") (usd 80) c /\
    date one_low_fare_best = Some (departure_date c) /\
    searchUrl one_low_fare_best
    = Some (buildGFUrl (origin c) (destination c) (departure_date c)).
Proof.
  destruct (@X15_best_price_provenance one_low_fare one_low_fare_best)
    as (c & H1 & _ & H2 & H3 & _).
  - vm_compute. left. reflexivity.
  - discriminate.
  - exists c. auto.
Defined.

(* ------------------------------------------------------------------ *)
(** ** The ids of the dashboard *)

Lemma insight_ids (rows : list flight_row) :
  map id (deriveInsights rows) = seq 1 (List.length (deriveInsights rows)).
Proof.
  destruct (deriveInsights_shape rows) as (_ & _ & _ & _ & _ & H). exact H.
Qed.

Lemma map_add_seq (c k : nat) :
  forall a, map (fun n => (n + c)%nat) (seq a k) = seq (a + c) k.
Proof.
  induction k as [|k IH]; intros a; [reflexivity|].
  cbn [seq map]. f_equal. apply (IH (S a)).
Qed.

(** X16. The insights the dashboard shows for a route, those of the
    outbound query followed by those of the return query with their ids
    raised by 100, have pairwise distinct ids: an endpoint never answers
    with more than 100 insights, so the two ranges do not meet. *)
Theorem X16_dashboard_ids_distinct (o d : string) (table : list flight_row) :
  NoDup (map t_id (dashboardInsights o d table)) /\
  List.length (dashboardInsights o d table)
  = (List.length (insightsEndpoint (Some o) (Some d) table)
     + List.length (insightsEndpoint (Some d) (Some o) table))%nat.
Proof.
  unfold dashboardInsights, mergeInsights.
  set (outI := insightsEndpoint (Some o) (Some d) table).
  set (retI := insightsEndpoint (Some d) (Some o) table).
  split; [|now rewrite length_app, !length_map].
  rewrite map_app, !map_map. cbn [t_id].
  assert (Eo : map (fun i => id i) outI = seq 1 (List.length outI)).
  { unfold outI, insightsEndpoint. apply insight_ids. }
  assert (Er : map (fun i => (id i + 100)%nat) retI
               = seq (1 + 100) (List.length retI)).
  { rewrite <- (map_map id (fun n => (n + 100)%nat)).
    unfold retI, insightsEndpoint. rewrite insight_ids. apply map_add_seq. }
  rewrite Eo, Er.
  pose proof (insightsEndpoint_length (Some o) (Some d) table) as Hle.
  apply NoDup_app; [apply seq_NoDup|apply seq_NoDup|].
  intros x Hx Hy. apply in_seq in Hx, Hy. fold outI in Hle.
  set (no := List.length outI) in *. set (nr := List.length retI) in *.
  clearbody no nr. lia.
Qed.

(* ------------------------------------------------------------------ *)
(** ** The scheduled job and the seed *)

(** X17. With keys configured, a tick of the schedule returns normally
    after exactly one request, for JFK to MIA on 2024-04-12, and moves the
    rotation by one key, so successive ticks take the keys in turn. *)
Theorem X17_scheduled_job (env : environment) (keys : list string) (w : world) :
  keys <> [] -> Forall (fun k => truthy_str k = true) keys ->
  exists w',
    scheduledJob env keys w = Returned w' /\
    calls w' = S (calls w) /\
    serpKeyIndex w' = S (serpKeyIndex w) /\
    fetched_dates (console w') = fetched_dates (console w) ++ ["2024-04-12"] /\
    In (LogFetching "JFK" "MIA" "2024-04-12") (console w').
Proof.
  intros Hne Hall. unfold scheduledJob.
  destruct (fetch_single_date env "JFK" "MIA" "2024-04-12" w Hne Hall)
    as (w' & c & new & E & K & C & F & D).
  exists w'. split; [exact E|].
  assert (Hcalls : calls w' = S (calls w)).
  { destruct (@fetch_requests_prefix env keys "JFK" "MIA" "2024-04-12" 0 w
                ["2024-04-12"] Hne eq_refl) as (k & Hk & Hc & Hf).
    rewrite E in Hc, Hf. cbn [world_of List.length] in Hk, Hc, Hf.
    rewrite F in Hf. apply app_inv_head in Hf.
    destruct k as [|[|k]]; [discriminate|lia|lia]. }
  split; [exact Hcalls|]. split; [exact K|]. split; [exact F|].
  rewrite C. apply in_or_app. right. now left.
Qed.

Lemma X17_scheduled_job_witness :
  exists w',
    scheduledJob env_two_fares ["key0"; "key1"] empty_world = Returned w' /\
    calls w' = 1%nat /\ serpKeyIndex w' = 1%nat.
Proof.
  destruct (@X17_scheduled_job env_two_fares ["key0"; "key1"] empty_world)
    as (w' & H1 & H2 & H3 & _).
  - discriminate.
  - repeat constructor.
  - exists w'. auto.
Defined.

(** In a zone that keeps one offset, the date of iteration [i], when the
    instant is read on the local day of [today]: [i] days before it *)
Lemma pastDate_same_day (tz : timezone) (c today now i : Z) :
  keeps_offset tz c ->
  Day (now + c) = Day (today + c) ->
  0 <= i <= 7 ->
  Z.abs now + 7 * msPerDay <= maxTime ->
  pastDate tz today now i = Some (now - i * msPerDay).
Proof.
  intros Hc E Hi Hr. unfold pastDate.
  assert (Hg : getDate tz today = getDate tz now).
  { unfold getDate, LocalTime. rewrite !Hc, E. reflexivity. }
  rewrite Hg.
  replace (getDate tz now - i) with (getDate tz now + - i) by lia.
  rewrite (setDate_fixed _ _ Hc).
  unfold msPerDay in *.
  rewrite TimeClip_in_range by (unfold maxTime in *; lia). f_equal. lia.
Qed.

(** X18. In a process whose zone keeps one offset, the seed endpoint
    appends sixteen rows and changes nothing else: for each of the eight
    days ending today, oldest first, one JetBlue and one JSX row for JFK
    to MIA on 2024-04-12, stamped that many days before the instant read
    (when it is read on the local day of [today]), each with a positive
    whole-dollar price. *)
Theorem X18_seed_rows (env : environment) (c : Z) (today : Z) (nows : Z -> Z)
  (w : world) :
  keeps_offset (zone env) c ->
  (forall i, 0 <= i <= 7 -> Day (nows i + c) = Day (today + c)) ->
  (forall i, 0 <= i <= 7 -> Z.abs (nows i) + 7 * msPerDay <= maxTime) ->
  exists rows,
    db (seed env today nows w) = db w ++ rows /\
    List.length rows = 16%nat /\
    map (fun r => (airline r, scraped_at r)) rows
    = flat_map (fun i => [("JetBlue", nows i - i * msPerDay);
                          ("JSX", nows i - i * msPerDay)])
               [7; 6; 5; 4; 3; 2; 1; 0] /\
    Forall (fun r => origin r = "JFK" /\ destination r = "MIA" /\
                     departure_date r = "2024-04-12" /\
                     exists z, 0 < z /\ price r = usd z) rows /\
    serpKeyIndex (seed env today nows w) = serpKeyIndex w /\
    calls (seed env today nows w) = calls w /\
    console (seed env today nows w) = console w.
Proof.
  intros Hc Hday Hr. unfold seed.
  cbn [db serpKeyIndex calls console seedLoop].
  repeat (rewrite (@pastDate_same_day (zone env) c today _ _ Hc)
            by (first [apply Hday; lia | lia | apply Hr; lia]);
          cbv beta iota).
  rewrite <- !app_assoc.
  eexists. split; [reflexivity|]. split; [reflexivity|].
  split; [reflexivity|]. split; [|auto].
  apply Forall_forall. intros r Hin.
  cbn [app seed_rows_of] in Hin. cbv zeta in Hin.
  repeat (destruct Hin as [<-|Hin]); try contradiction;
    (do 3 (split; [reflexivity|]); eexists; (split; [|reflexivity]);
     vm_compute; reflexivity).
Qed.

Lemma X18_seed_rows_witness :
  exists rows,
    db (seed env_two_fares 1712900000000 (fun _ => 1712900000123) empty_world)
    = db empty_world ++ rows /\
    List.length rows = 16%nat.
Proof.
  destruct (@X18_seed_rows env_two_fares 0 1712900000000
              (fun _ => 1712900000123) empty_world)
    as (rows & H1 & H2 & _).
  - intros t b. reflexivity.
  - intros i _. reflexivity.
  - intros i _. vm_compute. discriminate.
  - exists rows. auto.
Defined.

(* ------------------------------------------------------------------ *)
(** ** The window in a zone that keeps one offset *)

(** X19. With [flexDays = 0] the window is the base date alone, and a
    fetch that holds a key requests exactly that date. In a process whose
    zone keeps one offset, with [flexDays = f > 0] and a base date read
    as the instant [t], the window is the base date followed, for
    [i = 1..f], by the UTC dates of the instants [i] days before and [i]
    days after [t], which makes [2 f + 1] dates; the rendering of an
    instant reads back as midnight of its day (for the years written with
    four digits). For [2024-04-12] and [f = 2] the window is
    [04-12, 04-11, 04-13, 04-10, 04-14]. *)
Theorem X19_window_fixed_offset (env : environment) (keys : list string)
  (o d baseDateStr : string) (flexDays : nat) (w : world) (c : Z) :
  keeps_offset (zone env) c ->
  datesToSearch (zone env) (legacyParse env) baseDateStr 0 = Some [baseDateStr] /\
  (forall apiKey idx,
     getNextSerpKey keys (serpKeyIndex w) = (Some apiKey, idx) ->
     truthy_str apiKey = true ->
     exists w', fetchRealFlightPrices env keys o d baseDateStr 0 w = Returned w' /\
                fetched_dates (console w') =
                fetched_dates (console w) ++ [baseDateStr]) /\
  (forall t, (0 < flexDays)%nat ->
     parseDate (legacyParse env) baseDateStr = Some t ->
     Z.abs t + Z.of_nat flexDays * msPerDay <= maxTime ->
     exists dates,
       datesToSearch (zone env) (legacyParse env) baseDateStr flexDays
       = Some dates /\
       dates = baseDateStr ::
               flat_map (fun i => [isoDate (t - Z.of_nat i * msPerDay);
                                   isoDate (t + Z.of_nat i * msPerDay)])
                        (seq 1 flexDays) /\
       List.length dates = (2 * flexDays + 1)%nat) /\
  (forall x k, Day (x + k * msPerDay) = Day x + k) /\
  (forall x, 0 <= year_of x <= 9999 ->
     parseIsoDate (isoDate x) = Some (Day x * msPerDay)) /\
  datesToSearch (fixed_zone 0) (fun _ => None) "2024-04-12" 2 =
  Some ["2024-04-12"; "2024-04-11"; "2024-04-13"; "2024-04-10"; "2024-04-14"].
Proof.
  intros Hc.
  split; [reflexivity|].
  split; [|split; [|split; [|split; [apply parseIsoDate_isoDate|]]]].
  - intros apiKey idx Hk Ht. unfold fetchRealFlightPrices.
    rewrite Hk, Ht. cbn [datesToSearch].
    eexists. split; [reflexivity|].
    rewrite fetchDates_single. reflexivity.
  - intros t Hf Hp Hr. eexists.
    split; [apply (@datesToSearch_fixed _ _ c _ _ t Hc Hf Hp Hr)|].
    split; [reflexivity|].
    cbn [List.length]. rewrite flat_map_pair_length by reflexivity.
    rewrite length_seq. lia.
  - intros x k. apply day_shift.
  - vm_compute. reflexivity.
Qed.

Lemma X19_window_fixed_offset_witness :
  (exists w', fetchRealFlightPrices env_second_fails ["key0"] "jfk" "mia"
                "2024-04-12" 0 empty_world = Returned w' /\
              fetched_dates (console w') =
              fetched_dates (console empty_world) ++ ["2024-04-12"]) /\
  (exists dates,
     datesToSearch (fixed_zone 0) (fun _ => None) "2024-04-12" 2 = Some dates /\
     dates = "2024-04-12" ::
             flat_map (fun i => [isoDate (1712880000000 - Z.of_nat i * msPerDay);
                                 isoDate (1712880000000 + Z.of_nat i * msPerDay)])
                      (seq 1 2) /\
     List.length dates = (2 * 2 + 1)%nat).
Proof.
  pose proof (@X19_window_fixed_offset env_second_fails ["key0"] "jfk" "mia"
                "2024-04-12" 2 empty_world 0 (fun _ _ => eq_refl))
    as (_ & H0 & Hf & _).
  split.
  - apply (H0 "key0" 1%nat); reflexivity.
  - apply (Hf 1712880000000); [lia | vm_compute; reflexivity
                              | vm_compute; discriminate].
Defined.
